(** * dataseer_client: the batch client of the Dataseer service

    A shallow embedding of [dataseer_client/client.py] and the properties of
    its batch dispatcher: output path derivation, file enumeration and
    batching, the per-file request/response exchange with its status decision
    table, the skip rule and the start-up probe.

    Conventions of the embedding.
    - Python [str] is [string]; [None]-able values are [option].
    - [os.path] is [posixpath] (the client is modelled on a POSIX host, where
      [os.sep] is a slash); [ntpath] is modelled separately because the source
      calls it by name.
    - The process environment the code reads (working directory, directory
      listings, the replies of the remote service, write failures, the order
      in which futures complete) is the record [world]; the files the code
      tests with [os.path.isfile] and writes are a finite map from path to
      content.
    - Methods run in the monad [M]: a store of files is threaded, the trace of
      observable events is accumulated, a Python exception is the result
      [Exc e], and [None] means that the recursion fuel ran out (the retry
      recursion of the source need not terminate).
    - Of the clock the embedding keeps what decides the control flow: the
      elapsed time that a progress line reads, as the source rounds it (a
      reading of zero makes the line divide by zero). The line as printed
      carries the running total only.
    - A write that fails may have opened the file first: what it leaves is
      part of the environment ([failed_write]).
    - Reading an input file and printing a line do not fail, and the
      recursion limit of the interpreter is not modelled. *)

From Stdlib Require Import ZArith Ascii String.
From stdpp Require Import base tactics option list gmap strings.

Local Open Scope Z_scope.

(** ** Python string methods *)

Module Str.

Definition eqb (s t : string) : bool := String.eqb s t.

(** [s.startswith(p)] *)
Definition startswith (s p : string) : bool := String.prefix p s.

(** [s.endswith(p)]: [p] is [s] or the end of what follows its first
    character. *)
Fixpoint endswith (s p : string) : bool :=
  if String.eqb s p then true
  else match s with
       | EmptyString => false
       | String _ s' => endswith s' p
       end.

(** [c in s] for a character. *)
Fixpoint contains (c : ascii) (s : string) : bool :=
  match s with
  | EmptyString => false
  | String a s' => (Ascii.eqb a c || contains c s')%bool
  end.

(** [s.split(c)] for a separator of one character: never empty. *)
Fixpoint split (c : ascii) (s : string) : list string :=
  match s with
  | EmptyString => [EmptyString]
  | String a s' =>
      if Ascii.eqb a c then EmptyString :: split c s'
      else match split c s' with
           | [] => [String a EmptyString]
           | x :: xs => String a x :: xs
           end
  end.

(** [c.join(l)] *)
Definition join (c : string) (l : list string) : string := String.concat c l.

(** [s.replace(a, b)] for single characters. *)
Fixpoint replace (a b : ascii) (s : string) : string :=
  match s with
  | EmptyString => EmptyString
  | String c s' => String (if Ascii.eqb c a then b else c) (replace a b s')
  end.

(** [s[i:]] and [s[:i]] for [0 <= i]. *)
Fixpoint drop (i : nat) (s : string) : string :=
  match i, s with
  | O, _ => s
  | S i, String _ s' => drop i s'
  | S _, EmptyString => EmptyString
  end.

Fixpoint take (i : nat) (s : string) : string :=
  match i, s with
  | S i, String c s' => String c (take i s')
  | _, _ => EmptyString
  end.

(** [s.find(c, start)] for a single character: [None] is Python's -1. *)
Fixpoint find (c : ascii) (start : nat) (s : string) : option nat :=
  match s with
  | EmptyString => None
  | String a s' =>
      match start with
      | O => if Ascii.eqb a c then Some O else S <$> find c O s'
      | S start' => S <$> find c start' s'
      end
  end.

(** [s.upper()] on the ASCII letters. *)
Definition upper_char (c : ascii) : ascii :=
  let n := nat_of_ascii c in
  if (Nat.leb 97 n && Nat.leb n 122)%bool then ascii_of_nat (n - 32) else c.

Fixpoint upper (s : string) : string :=
  match s with
  | EmptyString => EmptyString
  | String c s' => String (upper_char c) (upper s')
  end.

(** [s.rstrip(chars)]: drop the trailing characters that satisfy [p]. *)
Fixpoint rstrip (p : ascii -> bool) (s : string) : string :=
  match s with
  | EmptyString => EmptyString
  | String c s' =>
      match rstrip p s' with
      | EmptyString => if p c then EmptyString else String c EmptyString
      | r => String c r
      end
  end.

End Str.

(** ** [posixpath]: the functions of Python's POSIX path module that the
    client calls, after the library's documented behaviour. *)

Module posixpath.

Definition sep : ascii := "/"%char.

Definition isabs (s : string) : bool := Str.startswith s "/".

(** [join(a, b)]: an absolute [b] discards [a]; otherwise one slash is
    inserted unless [a] is empty or already ends with one. *)
Definition join (a b : string) : string :=
  if Str.startswith b "/" then b
  else if (Str.eqb a "" || Str.endswith a "/")%bool then a +:+ b
  else a +:+ "/" +:+ b.

(** [join] applied to a non-empty list of parts, from left to right. *)
Definition join_all (parts : list string) : string :=
  match parts with
  | [] => ""
  | a :: p => fold_left join p a
  end.

(** [basename(p)]: what follows the last slash. *)
Definition basename (p : string) : string := List.last (Str.split sep p) "".

(** [dirname(p)]: what precedes the last slash, without its trailing
    slashes unless it is made of slashes only. *)
Definition dirname (p : string) : string :=
  let head := String.concat "/" (removelast (Str.split sep p)) in
  let head := if Nat.eqb (length (Str.split sep p)) 1 then "" else head +:+ "/" in
  let stripped := Str.rstrip (Ascii.eqb sep) head in
  if Str.eqb stripped "" then head else stripped.

(** The number of leading slashes [normpath] keeps: two are kept, three or
    more collapse to one. *)
Definition initial_slashes (path : string) : nat :=
  if Str.startswith path "/" then
    if (Str.startswith path "//" && negb (Str.startswith path "///"))%bool
    then 2%nat else 1%nat
  else 0%nat.

Definition is_nil {A} (l : list A) : bool :=
  match l with [] => true | _ => false end.

(** One turn of the loop of [normpath] over the components. *)
Definition norm_step (initial : nat) (new_comps : list string) (comp : string)
  : list string :=
  if (Str.eqb comp "" || Str.eqb comp ".")%bool then new_comps
  else if (negb (Str.eqb comp "..")
           || (Nat.eqb initial 0 && is_nil new_comps)
           || (negb (is_nil new_comps) && Str.eqb (List.last new_comps "") ".."))%bool
       then new_comps ++ [comp]
       else removelast new_comps.

Definition norm_comps (path : string) : list string :=
  fold_left (norm_step (initial_slashes path)) (Str.split sep path) [].

Fixpoint slashes (n : nat) : string :=
  match n with O => "" | S n => String sep (slashes n) end.

Definition normpath (path : string) : string :=
  if Str.eqb path "" then "."
  else
    let p := slashes (initial_slashes path) +:+ Str.join "/" (norm_comps path) in
    if Str.eqb p "" then "." else p.

(** [abspath(path)]: [cwd] is [os.getcwd()], read only for a relative path. *)
Definition abspath (cwd path : string) : string :=
  normpath (if isabs path then path else join cwd path).

(** The non-empty components of a path: [[x for x in p.split(sep) if x]]. *)
Definition parts (p : string) : list string :=
  List.filter (fun x => negb (Str.eqb x "")) (Str.split sep p).

(** The length of [commonprefix([l1, l2])] on two lists of components: the
    length of their longest common prefix. *)
Fixpoint common_len (l1 l2 : list string) : nat :=
  match l1, l2 with
  | x :: l1', y :: l2' => if Str.eqb x y then S (common_len l1' l2') else O
  | _, _ => O
  end.

(** [relpath(path, start)] for a non-empty [path] (the library raises
    [ValueError] on an empty one; the client passes the result of
    [abspath], which is never empty). *)
Definition relpath (cwd path start : string) : string :=
  let start_list := parts (abspath cwd start) in
  let path_list := parts (abspath cwd path) in
  let i := common_len start_list path_list in
  let rel_list :=
    List.repeat ".." (length start_list - i) ++ List.skipn i path_list in
  if is_nil rel_list then "." else join_all rel_list.

End posixpath.

(** ** [ntpath]: the Windows flavour, which the client calls by name "to be
    sure it will work on Windows too". *)

Module ntpath.

Definition is_sep (c : ascii) : bool :=
  (Ascii.eqb c "/" || Ascii.eqb c "\")%bool.

Definition unc_prefix : string := "\\?\UNC\".

(** [splitdrive(p)]: a drive letter with its colon, or a UNC share, is the
    drive; everything else has the empty drive. *)
Definition splitdrive (p : string) : string * string :=
  if Nat.leb 2 (String.length p) then
    let normp := Str.replace "/" "\" p in
    if Str.eqb (Str.take 2 normp) "\\" then
      let start := if Str.eqb (Str.upper (Str.take 8 normp)) unc_prefix
                   then 8%nat else 2%nat in
      match Str.find "\" start normp with
      | None => (p, "")
      | Some index =>
          match Str.find "\" (index + 1) normp with
          | None => (p, "")
          | Some index2 => (Str.take index2 p, Str.drop index2 p)
          end
      end
    else if Str.eqb (Str.take 1 (Str.drop 1 normp)) ":" then
      (Str.take 2 p, Str.drop 2 p)
    else ("", p)
  else ("", p).

(** The cut of [split]: [(p[:i], p[i:])] with [i] just after the last
    separator of [p], or 0 when [p] has none. *)
Fixpoint cut (p : string) : string * string :=
  match p with
  | EmptyString => (EmptyString, EmptyString)
  | String c p' =>
      let '(head, tail) := cut p' in
      match head with
      | EmptyString =>
          if is_sep c then (String c EmptyString, tail)
          else (EmptyString, String c tail)
      | _ => (String c head, tail)
      end
  end.

Definition split (p : string) : string * string :=
  let '(d, p) := splitdrive p in
  let '(head, tail) := cut p in
  let stripped := Str.rstrip is_sep head in
  let head := if Str.eqb stripped "" then head else stripped in
  (d +:+ head, tail).

Definition basename (p : string) : string := snd (split p).
Definition dirname (p : string) : string := fst (split p).

End ntpath.

(** ** Data model *)

(** The exceptions the client can meet: those of [requests], those the
    interpreter raises on the client's own code, and the client's own. *)
Inductive pyexn :=
| Timeout | TooManyRedirects | ConnectionError | RequestException
| UnboundLocalError | TypeError | ValueError | ZeroDivisionError
| ServerUnavailableException.

(** What a call of [requests.get] or [requests.post] does: it returns a
    response (status code and text), or it raises. *)
Inductive reply :=
| Response (status_code : Z) (text : string)
| Raises (e : pyexn).

(** The result of a Python call: a value, or an exception in flight. *)
Inductive result (A : Type) :=
| Ok (a : A)
| Exc (e : pyexn).
Arguments Ok {A} a.
Arguments Exc {A} e.

(** The tuple [(input_file, status, text)] a worker returns. *)
Definition outcome : Type := string * Z * option string.

(** A finished future: [r.result()] returns its value or raises again what
    the worker raised. *)
Definition future : Type := result outcome.

(** [config.json] once loaded. *)
Record config := {
  dataseer_server : string;
  dataseer_port : string;
  timeout : Z;
  sleep_time : Z;
  batch_size : Z;
}.

Record DataseerClient := {
  endpoint_isalive : string;
  endpoint_tei : string;
  endpoint_pdf : string;
  client_config : config;
  service_url : string;
}.

(** The lines the client prints, by kind and with the values they show. *)
Inductive message :=
| MsgConnectionFailed
| MsgNotRunning (status : Z)
| MsgRunning
| MsgTotal (nb_total : nat)
| MsgFile (filename : string)
| MsgBatch (len : nat)
| MsgSkipping (filename : string)
| MsgFailed (input_file : string) (status : Z)
| MsgWriteFailed (filename : string)
| MsgOverloaded (sleep : Z)
| MsgServerError (status : Z) (file : string)
| MsgBadRequest (status : Z)
| MsgContent
| MsgUnexpected (status : Z)
| MsgTimeout
| MsgRedirects
| MsgRequestFailed.

(** What a run does to the outside. [EvTruncate] is what is left of a write
    that failed after the file was opened for writing: the file was created
    or emptied, and holds [remains]. *)
Inductive event :=
| EvGet (url : string)
| EvPost (url file : string) (gunzip : bool) (tmo : Z)
| EvSleep (seconds : Z)
| EvPrint (m : message)
| EvWrite (filename text : string)
| EvTruncate (filename remains : string).

(** A directory: its name in its parent, its file names, its sub-directories. *)
#[warnings="-register-all"]
Inductive tree :=
| Dir (name : string) (filenames : list string) (subdirs : list tree).

Definition dir_name (t : tree) : string :=
  match t with Dir name _ _ => name end.

(** The environment of the process.
    - [getcwd]: the working directory.
    - [scandir top]: the directory found at [top], as the walk of a run
      reads it.
    - [requests_get url]: what the probe meets.
    - [requests_post url file k]: what the POST of [file] to [url] meets when
      [k] requests have been made for that file before (the exchanges of
      different files do not influence each other).
    - [oserror filename]: creating the parents of [filename] or writing it
      fails with [OSError].
    - [as_completed]: the order in which finished futures are handed back.
    - [runtime nb_total]: the elapsed time, in thousandths of a second, that
      the progress line for [nb_total] files reads from the clock, rounded
      as the source rounds it ([round(time.time() - start_time, 3)]).
    - [failed_write filename text]: what a failed write of [text] leaves at
      [filename]: [None] when it failed before the file was opened for
      writing (a parent could not be created, the file could not be opened),
      [Some remains] when the file was opened with the mode ["w"], hence
      created or emptied, and holds [remains] when the [OSError] is caught. *)
Record world := {
  getcwd : string;
  scandir : string -> tree;
  requests_get : string -> reply;
  requests_post : string -> string -> nat -> reply;
  oserror : string -> bool;
  as_completed : list future -> list future;
  runtime : nat -> Z;
  failed_write : string -> string -> option string;
}.

(** ** The monad of the methods *)

Abbreviation files := (gmap string string).

Definition M (A : Type) : Type :=
  files -> option (result A * files * list event).

Definition ret {A} (a : A) : M A := fun fs => Some (Ok a, fs, []).

Definition raise {A} (e : pyexn) : M A := fun fs => Some (Exc e, fs, []).

Definition diverge {A} : M A := fun _ => None.

Definition bind {A B} (m : M A) (k : A -> M B) : M B := fun fs =>
  match m fs with
  | None => None
  | Some (Exc e, fs1, t1) => Some (Exc e, fs1, t1)
  | Some (Ok a, fs1, t1) =>
      match k a fs1 with
      | None => None
      | Some (r, fs2, t2) => Some (r, fs2, t1 ++ t2)
      end
  end.

Notation "x <- m ;; k" := (bind m (fun x => k))
  (at level 100, m at next level, right associativity).
Notation "m ;; k" := (bind m (fun _ => k))
  (at level 100, right associativity).

Definition emit (e : event) : M unit := fun fs => Some (Ok tt, fs, [e]).

Definition print (m : message) : M unit := emit (EvPrint m).

Definition when (b : bool) (m : M unit) : M unit := if b then m else ret tt.

(** [try: body finally: final], where [final] sees how [body] ended and, as
    in both workers, ends in a [return] of its own: whatever [body] returned
    or raised is dropped, and the result is that of [final]. *)
Definition try_finally {A B} (body : M A) (final : result A -> M B) : M B :=
  fun fs =>
    match body fs with
    | None => None
    | Some (r, fs1, t1) =>
        match final r fs1 with
        | None => None
        | Some (r', fs2, t2) => Some (r', fs2, t1 ++ t2)
        end
    end.

(** [for x in l: body x] *)
Fixpoint for_each {A} (l : list A) (body : A -> M unit) : M unit :=
  match l with
  | [] => ret tt
  | x :: l' => body x ;; for_each l' body
  end.

(** A loop that updates local variables [S]. *)
Fixpoint for_fold {A S} (l : list A) (body : S -> A -> M S) (s : S) : M S :=
  match l with
  | [] => ret s
  | x :: l' => s' <- body s x ;; for_fold l' body s'
  end.

(** [os.path.isfile(filename)] *)
Definition isfile (filename : string) : M bool :=
  fun fs => Some (Ok (bool_decide (is_Some (fs !! filename))), fs, []).

(** [executor.submit(task)] and the wait at the end of the [with] block: the
    task runs to its end in a worker; what it returned or raised is kept in
    the future, and nothing is raised here. *)
Definition executor_submit (task : M outcome) : M future := fun fs =>
  match task fs with
  | None => None
  | Some (r, fs1, t1) => Some (Ok r, fs1, t1)
  end.

(** [r.result()] *)
Definition future_result (r : future) : M outcome :=
  match r with
  | Ok v => ret v
  | Exc e => raise e
  end.

(** ** The client *)

(** [os.walk(top)], top-down: a directory, then what is below it. *)
Fixpoint os_walk (top : string) (t : tree)
  : list (string * list string * list string) :=
  match t with
  | Dir _ filenames subdirs =>
      (top, map dir_name subdirs, filenames)
        :: flat_map (fun d => os_walk (posixpath.join top (dir_name d)) d) subdirs
  end.

Definition __init__fields (cfg : config) : DataseerClient :=
  let url := "http://" +:+ dataseer_server cfg in
  let url := if Nat.ltb 0 (String.length (dataseer_port cfg))
             then url +:+ ":" +:+ dataseer_port cfg else url in
  {| endpoint_isalive := "isalive";
     endpoint_tei := "processDataseerTEI";
     endpoint_pdf := "processDataseerPDF";
     client_config := cfg;
     service_url := url +:+ "/service/" |}.

(** [_test_server_connection]: the bare [except] catches whatever
    [requests.get] raises. *)
Definition _test_server_connection (w : world) (self : DataseerClient) : M unit :=
  let the_url := service_url self +:+ endpoint_isalive self in
  emit (EvGet the_url) ;;
  match requests_get w the_url with
  | Raises _ =>
      print MsgConnectionFailed ;;
      raise ServerUnavailableException
  | Response status _ =>
      if negb (status =? 200) then print (MsgNotRunning status)
      else print MsgRunning
  end.

(** [DataseerClient(config_path)], from the configuration once loaded. *)
Definition __init__ (w : world) (cfg : config) : M DataseerClient :=
  let self := __init__fields cfg in
  _test_server_connection w self ;;
  ret self.

Definition suffix : string := ".dataseer.tei.xml".

(** [s.split(".")[0]] *)
Definition first_segment (s : string) : string := hd "" (Str.split "." s).

Definition _output_file_name (w : world) (input_file input_path : string)
    (output : option string) : string :=
  match output with
  | Some output =>
      let input_file_name :=
        posixpath.relpath (getcwd w)
          (posixpath.abspath (getcwd w) input_file) input_path in
      posixpath.join output
        (first_segment (posixpath.basename input_file_name) +:+ suffix)
  | None =>
      let input_file_name := ntpath.basename input_file in
      posixpath.join (ntpath.dirname input_file)
        (first_segment (posixpath.basename input_file_name) +:+ suffix)
  end.

(** The [except] clauses of the workers, for what [requests.post] raised. *)
Definition except_request (e : pyexn) : M unit :=
  match e with
  | Timeout => print MsgTimeout
  | TooManyRedirects => print MsgRedirects
  | ConnectionError | RequestException => print MsgRequestFailed
  | _ => ret tt
  end.

(** How the body of the [try] of a worker ends when it does not raise: by
    its [return], or at its end with the value [tei_data] then has. *)
Inductive ending :=
| Returned (v : outcome)
| Fell (tei_data : option string).

Definition tei_data_at_end (c : result ending) : option string :=
  match c with
  | Ok (Fell tei_data) => tei_data
  | _ => None
  end.

(** [finally: return (file, response.status_code, tei_data)]: [response] is
    [None] here when the local variable was never bound. *)
Definition finally_return (file : string) (response : option Z)
    (tei_data : option string) : M outcome :=
  match response with
  | None => raise UnboundLocalError
  | Some status_code => ret (file, status_code, tei_data)
  end.

(** [time.sleep(seconds)]: a negative length is refused with [ValueError]. *)
Definition time_sleep (seconds : Z) : M unit :=
  if seconds <? 0 then raise ValueError else emit (EvSleep seconds).

(** The [if]/[elif] chain on the status code, common to both workers; [retry]
    is the call made after the sleep. Formatting the 404 line adds a number
    and a string, which raises [TypeError]. *)
Definition on_status (self : DataseerClient) (file : string)
    (status_code : Z) (text : string) (retry : M outcome) : M ending :=
  if status_code =? 503 then
    print (MsgOverloaded (sleep_time (client_config self))) ;;
    time_sleep (sleep_time (client_config self)) ;;
    v <- retry ;;
    ret (Returned v)
  else if status_code >=? 500 then
    print (MsgServerError status_code file) ;;
    ret (Fell None)
  else if status_code =? 404 then
    raise TypeError
  else if status_code >=? 400 then
    print (MsgBadRequest status_code) ;;
    print MsgContent ;;
    ret (Fell None)
  else if status_code =? 200 then
    ret (Fell (Some text))
  else
    print (MsgUnexpected status_code) ;;
    ret (Fell None).

(** [process_tei]; [k] counts the requests already made for the file, and
    the fuel bounds the depth of the recursion (the recursion limit of the
    interpreter is not modelled). *)
Fixpoint process_tei (fuel : nat) (w : world) (self : DataseerClient)
    (service tei_file : string) (k : nat) : M outcome :=
  match fuel with
  | O => diverge
  | S fuel =>
      let url := service_url self +:+ endpoint_tei self in
      emit (EvPost url tei_file false (timeout (client_config self))) ;;
      match requests_post w url tei_file k with
      | Raises e =>
          except_request e ;;
          finally_return tei_file None None
      | Response status_code text =>
          try_finally
            (on_status self tei_file status_code text
               (process_tei fuel w self service tei_file (S k)))
            (fun c => finally_return tei_file (Some status_code)
                        (tei_data_at_end c))
      end
  end.

(** [process_pdf]: the call after the sleep is to [process_tei]. *)
Definition process_pdf (fuel : nat) (w : world) (self : DataseerClient)
    (service pdf_file : string) (k : nat) : M outcome :=
  let url := service_url self +:+ endpoint_pdf self in
  emit (EvPost url pdf_file (Str.endswith pdf_file ".pdf.gz")
          (timeout (client_config self))) ;;
  match requests_post w url pdf_file k with
  | Raises e =>
      except_request e ;;
      finally_return pdf_file None None
  | Response status_code text =>
      try_finally
        (on_status self pdf_file status_code text
           (process_tei fuel w self service pdf_file (S k)))
        (fun c => finally_return pdf_file (Some status_code)
                    (tei_data_at_end c))
  end.

(** Writing the TEI file: the parents are created, the file is opened with
    the mode ["w"] and the text written. An [OSError] is caught and reported;
    when it came after the file was opened, the file has been created or
    emptied and holds what the failed write left. *)
Definition write_tei (w : world) (filename text : string) : M unit :=
  if oserror w filename then
    match failed_write w filename text with
    | Some remains =>
        fun fs => Some (Ok tt, <[filename := remains]> fs,
                        [EvTruncate filename remains])
    | None => ret tt
    end ;;
    print (MsgWriteFailed filename)
  else fun fs => Some (Ok tt, <[filename := text]> fs, [EvWrite filename text]).

(** The choice of the worker in [process_batch]: [process_tei] unless the
    service is the PDF one. *)
Definition selected_process (self : DataseerClient) (service : string)
  : nat -> world -> DataseerClient -> string -> string -> nat -> M outcome :=
  if Str.eqb service (endpoint_pdf self) then process_pdf else process_tei.

(** The URL the selected worker posts to, and whether it opens the file
    through [gzip]. *)
Definition worker_url (self : DataseerClient) (service : string) : string :=
  service_url self +:+
    (if Str.eqb service (endpoint_pdf self) then endpoint_pdf self
     else endpoint_tei self).

Definition worker_gunzip (self : DataseerClient) (service file : string) : bool :=
  (Str.eqb service (endpoint_pdf self) && Str.endswith file ".pdf.gz")%bool.

(** The first loop of [process_batch], inside the [with] block. *)
Definition submit_one (fuel : nat) (w : world) (self : DataseerClient)
    (service input_path : string) (output : option string) (force : bool)
    (results : list future) (input_file : string) : M (list future) :=
  let filename := _output_file_name w input_file input_path output in
  exists_ <- (if force then ret false else isfile filename) ;;
  if (negb force && exists_)%bool then
    print (MsgSkipping filename) ;;
    ret results
  else
    r <- executor_submit
           (selected_process self service fuel w self service input_file O) ;;
    ret (results ++ [r]).

Definition submit_loop (fuel : nat) (w : world) (self : DataseerClient)
    (service : string) (input_files : list string) (input_path : string)
    (output : option string) (force : bool) : M (list future) :=
  for_fold input_files
    (submit_one fuel w self service input_path output force) [].

(** The second loop of [process_batch], over the futures as they complete. *)
Definition collect_one (w : world) (input_path : string)
    (output : option string) (r : future) : M unit :=
  v <- future_result r ;;
  let '(input_file, status, text) := v in
  let filename := _output_file_name w input_file input_path output in
  match text with
  | None => print (MsgFailed input_file status)
  | Some text => write_tei w filename text
  end.

Definition collect_loop (w : world) (results : list future)
    (input_path : string) (output : option string) : M unit :=
  for_each (as_completed w results) (collect_one w input_path output).

(** [process_batch]; a pool of [n <= 0] workers is refused by the executor. *)
Definition process_batch (fuel : nat) (w : world) (self : DataseerClient)
    (service : string) (input_files : list string) (input_path : string)
    (output : option string) (n : Z) (force verbose : bool) : M unit :=
  when verbose (print (MsgBatch (length input_files))) ;;
  (if n <=? 0 then raise ValueError else ret tt) ;;
  results <- submit_loop fuel w self service input_files input_path output force ;;
  collect_loop w results input_path output.

(** The test on a file name in [process]. *)
Definition matches (service filename : string) : bool :=
  (Str.eqb service "processDataseerPDF"
     && (Str.endswith filename ".pdf.gz" || Str.endswith filename ".pdf")
   || Str.eqb service "processDataseerTEI" && Str.endswith filename ".tei.xml")%bool.

(** The progress line after a batch: the rate it shows divides the total by
    the elapsed time as rounded, which raises [ZeroDivisionError] when that
    is zero; nothing is printed then. *)
Definition progress_line (w : world) (nb_total : nat) : M unit :=
  if runtime w nb_total =? 0 then raise ZeroDivisionError
  else print (MsgTotal nb_total).

(** The body of the inner loop of [process], on the local variables
    [(input_files, nb_total)]. *)
Definition process_file (fuel : nat) (w : world) (self : DataseerClient)
    (service input_path : string) (output : option string) (n : Z)
    (force verbose : bool) (dirpath : string)
    (st : list string * nat) (filename : string) : M (list string * nat) :=
  let '(input_files, nb_total) := st in
  if matches service filename then
    when verbose (print (MsgFile filename)) ;;
    let input_files := input_files ++ [dirpath +:+ "/" +:+ filename] in
    if Z.of_nat (length input_files) =? batch_size (client_config self) then
      process_batch fuel w self service input_files input_path output n
        force verbose ;;
      let nb_total := (nb_total + length input_files)%nat in
      progress_line w nb_total ;;
      ret ([], nb_total)
    else ret (input_files, nb_total)
  else ret st.

(** The end of [process]: what is left is the last batch. *)
Definition last_batch (fuel : nat) (w : world) (self : DataseerClient)
    (service input_path : string) (output : option string) (n : Z)
    (force verbose : bool) (st : list string * nat) : M unit :=
  if Nat.ltb 0 (length (fst st)) then
    process_batch fuel w self service (fst st) input_path output n
      force verbose
  else ret tt.

(** [process] with all its arguments given. *)
Definition process_with (fuel : nat) (w : world) (self : DataseerClient)
    (service input_path : string) (output : option string) (n : Z)
    (force verbose : bool) : M unit :=
  print (MsgTotal 0) ;;
  st <- for_fold (os_walk input_path (scandir w input_path))
          (fun st '(dirpath, _, filenames) =>
             for_fold filenames
               (process_file fuel w self service input_path output n
                  force verbose dirpath) st)
          ([], O) ;;
  last_batch fuel w self service input_path output n force verbose st.

(** [process(service, input_path, output=None, n=10, force=True,
    verbose=False)]: an argument left out is [None] here and takes its
    default. *)
Definition process (fuel : nat) (w : world) (self : DataseerClient)
    (service input_path : string) (output : option string) (n : option Z)
    (force verbose : option bool) : M unit :=
  process_with fuel w self service input_path output
    (default 10 n) (default true force) (default false verbose).

(** ** The pipeline the loops implement *)

(** The matching files of a tree in the order of the walk, each with the
    directory it was found in. *)
Definition matching_files (service input_path : string) (t : tree)
  : list (string * string) :=
  flat_map (fun '(dirpath, _, filenames) =>
              map (pair dirpath) (List.filter (matches service) filenames))
    (os_walk input_path t).

(** [os.sep.join([dirpath, filename])] *)
Definition input_file_of (p : string * string) : string :=
  fst p +:+ "/" +:+ snd p.

(** Cutting a sequence into batches: a batch is closed when it reaches
    [size]; what is left at the end is the last batch. *)
Fixpoint batches_from {A} (size : Z) (acc l : list A) : list (list A) :=
  match l with
  | [] => if Nat.ltb 0 (length acc) then [acc] else []
  | x :: l' =>
      if Z.of_nat (length (acc ++ [x])) =? size
      then (acc ++ [x]) :: batches_from size [] l'
      else batches_from size (acc ++ [x]) l'
  end.

Definition batches {A} (size : Z) (l : list A) : list (list A) :=
  batches_from size [] l.

(** The lines of the verbose mode for the files of a batch. *)
Definition announce (verbose : bool) (b : list (string * string)) : M unit :=
  when verbose (for_each b (fun p => print (MsgFile (snd p)))).

(** One batch: it is processed, and a full batch is counted and reported. *)
Definition run_batch (fuel : nat) (w : world) (self : DataseerClient)
    (service input_path : string) (output : option string) (n : Z)
    (force verbose : bool) (b : list (string * string)) (nb_total : nat)
  : M nat :=
  process_batch fuel w self service (map input_file_of b) input_path output n
    force verbose ;;
  if Z.of_nat (length b) =? batch_size (client_config self) then
    progress_line w (nb_total + length b) ;;
    ret (nb_total + length b)%nat
  else ret nb_total.

(** The batches one after the other; an exception ends the sequence. *)
Fixpoint run_batches (fuel : nat) (w : world) (self : DataseerClient)
    (service input_path : string) (output : option string) (n : Z)
    (force verbose : bool) (bs : list (list (string * string)))
    (nb_total : nat) : M unit :=
  match bs with
  | [] => ret tt
  | b :: bs' =>
      announce verbose b ;;
      nb_total <- run_batch fuel w self service input_path output n
                    force verbose b nb_total ;;
      run_batches fuel w self service input_path output n force verbose
        bs' nb_total
  end.

(** All the files of a tree in the order of the walk, matching or not. *)
Definition walked_files (input_path : string) (t : tree)
  : list (string * string) :=
  flat_map (fun '(dirpath, _, filenames) => map (pair dirpath) filenames)
    (os_walk input_path t).

(** A name as a directory entry has it: not empty, not [.] or [..], and
    without a slash. *)
Definition plain (name : string) : bool :=
  (negb (Str.eqb name "") && negb (Str.eqb name ".")
   && negb (Str.eqb name "..") && negb (Str.contains "/" name))%bool.

(** A tree all of whose entries have such names. *)
Fixpoint plain_tree (t : tree) : bool :=
  match t with
  | Dir _ filenames subdirs =>
      (forallb plain filenames
       && forallb (fun d => plain (dir_name d) && plain_tree d) subdirs)%bool
  end.

(** [located top t dirpath filename]: the tree [t], found at the path [top],
    holds a file named [filename] in its directory of path [dirpath], at any
    depth. *)
Inductive located : string -> tree -> string -> string -> Prop :=
| located_here top name filenames subdirs filename :
    filename ∈ filenames ->
    located top (Dir name filenames subdirs) top filename
| located_below top name filenames subdirs d dirpath filename :
    d ∈ subdirs ->
    located (posixpath.join top (dir_name d)) d dirpath filename ->
    located top (Dir name filenames subdirs) dirpath filename.

(** The loop of [process] from the middle: the files [l] are still to come,
    [st] holds the local variables. *)
Definition process_rest (fuel : nat) (w : world) (self : DataseerClient)
    (service input_path : string) (output : option string) (n : Z)
    (force verbose : bool) (l : list (string * string))
    (st : list string * nat) : M unit :=
  st <- for_fold l
          (fun st p => process_file fuel w self service input_path output n
                         force verbose (fst p) st (snd p)) st ;;
  last_batch fuel w self service input_path output n force verbose st.

(** The batches from the middle: [acc] is the open batch, whose files have
    been announced already, and [ms] are the matching files still to come. *)
Definition run_rest (fuel : nat) (w : world) (self : DataseerClient)
    (service input_path : string) (output : option string) (n : Z)
    (force verbose : bool) (acc ms : list (string * string)) (nb_total : nat)
  : M unit :=
  match batches_from (batch_size (client_config self)) acc ms with
  | [] => ret tt
  | b :: bs =>
      announce verbose (List.skipn (length acc) b) ;;
      nb_total <- run_batch fuel w self service input_path output n
                    force verbose b nb_total ;;
      run_batches fuel w self service input_path output n force verbose
        bs nb_total
  end.

(** The tasks a batch dispatches: all of them when forced, otherwise those
    whose derived output is not yet a file. *)
Definition dispatched (w : world) (fs : files) (input_path : string)
    (output : option string) (force : bool) (input_files : list string)
  : list string :=
  List.filter
    (fun f => (force
               || negb (bool_decide
                          (is_Some (fs !! _output_file_name w f input_path output))))%bool)
    input_files.

(** The files after the writes of a trace, failed ones included, in order. *)
Definition apply_writes (t : list event) (fs : files) : files :=
  fold_left (fun fs e => match e with
                         | EvWrite filename text => <[filename := text]> fs
                         | EvTruncate filename remains => <[filename := remains]> fs
                         | _ => fs
                         end) t fs.

(** Every finished future is handed back, once. *)
Definition hands_back_all (w : world) : Prop :=
  forall results, as_completed w results ≡ₚ results.

(** ** Reading a trace *)

(** The requests of a trace, in order: the URL and the file of each POST. *)
Definition posted (t : list event) : list (string * string) :=
  omap (fun e => match e with
                 | EvPost url file _ _ => Some (url, file)
                 | _ => None
                 end) t.

(** The pauses of a trace, in order. *)
Definition sleeps (t : list event) : list Z :=
  omap (fun e => match e with EvSleep s => Some s | _ => None end) t.

(** The files written by a trace, in order, with what was written. *)
Definition written (t : list event) : list (string * string) :=
  omap (fun e => match e with
                 | EvWrite filename text => Some (filename, text)
                 | _ => None
                 end) t.

(** The outcomes without a body that a trace reported: file and status. *)
Definition failed (t : list event) : list (string * Z) :=
  omap (fun e => match e with
                 | EvPrint (MsgFailed input_file status) => Some (input_file, status)
                 | _ => None
                 end) t.

(** The paths at which a trace reported a failed write. *)
Definition write_failures (t : list event) : list string :=
  omap (fun e => match e with
                 | EvPrint (MsgWriteFailed filename) => Some filename
                 | _ => None
                 end) t.

(** The files that failed writes of a trace created or emptied, in order,
    with what they were left with. *)
Definition spoiled (t : list event) : list (string * string) :=
  omap (fun e => match e with
                 | EvTruncate filename remains => Some (filename, remains)
                 | _ => None
                 end) t.

(** What a worker may do for [file]: requests for that file, pauses, lines
    of output; it reads no other file and writes nothing. *)
Definition worker_message (m : message) : Prop :=
  match m with
  | MsgOverloaded _ | MsgServerError _ _ | MsgBadRequest _ | MsgContent
  | MsgUnexpected _ | MsgTimeout | MsgRedirects | MsgRequestFailed => True
  | _ => False
  end.

Definition worker_event (file : string) (e : event) : Prop :=
  match e with
  | EvPost _ f _ _ => f = file
  | EvSleep _ => True
  | EvPrint m => worker_message m
  | EvGet _ | EvWrite _ _ | EvTruncate _ _ => False
  end.

(** A line of output of a worker. *)
Definition worker_print (e : event) : Prop :=
  match e with EvPrint m => worker_message m | _ => False end.

(** A worker leaves the files alone; all it does concerns its own file; its
    first act is the request to its endpoint; the outcome it returns names its
    own file. *)
Definition worker_ok (file url : string) (gz : bool) (tmo : Z) (fs : files)
    (r : result outcome) (fs' : files) (t : list event) : Prop :=
  fs' = fs
  /\ Forall (worker_event file) t
  /\ (exists t', t = EvPost url file gz tmo :: t')
  /\ (forall f s b, r = Ok (f, s, b) -> f = file).

(** A line of output. *)
Definition is_print (e : event) : Prop :=
  match e with EvPrint _ => True | _ => False end.

(** The outcome the decision table records for a status other than 503. *)
Definition terminal_outcome (file : string) (status_code : Z) (text : string)
  : outcome :=
  (file, status_code, if status_code =? 200 then Some text else None).

(** What one batch over [input_files] does to the files [fs], leaving [fs']
    and the trace [t]; [completed] says that it ended without an exception.
    - The files after it are the files before it with its writes.
    - Requests, writes, failed writes and reported failures all belong to
      dispatched tasks: a write is at the path derived from one of them.
    - A file is created or emptied by a failed write only where a failed
      write is reported.
    - When completed, every dispatched task was sent to the endpoint of the
      service, and the body of each one whose first answer is 200 was written
      at its derived path, unless that write failed. *)
Definition batch_facts (w : world) (self : DataseerClient) (service : string)
    (input_path : string) (output : option string) (force : bool)
    (input_files : list string) (fs : files) (completed : Prop)
    (fs' : files) (t : list event) : Prop :=
  let tasks := dispatched w fs input_path output force input_files in
  let out f := _output_file_name w f input_path output in
  fs' = apply_writes t fs
  /\ (forall url f, (url, f) ∈ posted t -> f ∈ tasks)
  /\ (forall p text, (p, text) ∈ written t -> exists f, f ∈ tasks /\ p = out f)
  /\ (forall f st, (f, st) ∈ failed t -> f ∈ tasks)
  /\ (forall p, p ∈ write_failures t -> exists f, f ∈ tasks /\ p = out f)
  /\ (forall p remains, (p, remains) ∈ spoiled t -> p ∈ write_failures t)
  /\ (completed ->
      forall f, f ∈ tasks ->
        (worker_url self service, f) ∈ posted t
        /\ forall text,
            requests_post w (worker_url self service) f 0 = Response 200 text ->
            oserror w (out f) = false ->
            (out f, text) ∈ written t).

(** The paths where a trace wrote, or where a write of it failed after the
    file was opened, in order. *)
Definition touched (t : list event) : list string :=
  omap (fun e => match e with
                 | EvWrite filename _ | EvTruncate filename _ => Some filename
                 | _ => None
                 end) t.

(** The derivation with an output directory as the specification words it:
    the path of the input relative to the input root, rebased under the
    output root, the first dot-segment of the file name kept and the suffix
    appended. *)
Definition mirrored_output_path (w : world) (input_file input_path output : string)
  : string :=
  let relative :=
    posixpath.relpath (getcwd w)
      (posixpath.abspath (getcwd w) input_file) input_path in
  posixpath.join output
    (posixpath.join (posixpath.dirname relative)
       (first_segment (posixpath.basename relative) +:+ suffix)).

(** A trace that sends nothing, writes nothing and reports no outcome. *)
Definition silent (t : list event) : Prop :=
  posted t = [] /\ written t = [] /\ failed t = [] /\ write_failures t = []
  /\ spoiled t = [].

(** ** What a batch and a run may do, and what they must show *)

(** The URL of the TEI endpoint, where both workers send their retries. *)
Definition retry_url (self : DataseerClient) : string :=
  service_url self +:+ endpoint_tei self.

(** Every trace of [m] is made of events that satisfy [P]. *)
Definition traced {A} (P : event -> Prop) (m : M A) : Prop :=
  forall fs r fs' t, m fs = Some (r, fs', t) -> Forall P t.

(** What a batch may do, for the service and the flags it was called with:
    no probe; requests to the endpoint of the service, or to the TEI endpoint
    without [gzip] (the retries), with the configured timeout; pauses of the
    configured time; writes where writing does not fail, and what a failed
    write leaves where it does; and its own lines, the line of the verbose
    mode in that mode only and the skipping line without the force flag
    only. *)
Definition batch_event (w : world) (self : DataseerClient) (service : string)
    (force verbose : bool) (e : event) : Prop :=
  match e with
  | EvGet _ => False
  | EvPost url file gunzip tmo =>
      (url = worker_url self service /\ gunzip = worker_gunzip self service file
       \/ url = retry_url self /\ gunzip = false)
      /\ tmo = timeout (client_config self)
  | EvSleep seconds => seconds = sleep_time (client_config self)
  | EvWrite filename _ => oserror w filename = false
  | EvTruncate filename remains =>
      oserror w filename = true
      /\ exists text, failed_write w filename text = Some remains
  | EvPrint m =>
      match m with
      | MsgConnectionFailed | MsgNotRunning _ | MsgRunning
      | MsgTotal _ | MsgFile _ => False
      | MsgBatch _ => verbose = true
      | MsgSkipping _ => force = false
      | MsgWriteFailed filename => oserror w filename = true
      | MsgOverloaded seconds => seconds = sleep_time (client_config self)
      | _ => True
      end
  end.

(** What a run of [process] may do: what its batches may do, the progress
    lines, and the file lines of the verbose mode. *)
Definition run_event (w : world) (self : DataseerClient) (service : string)
    (force verbose : bool) (e : event) : Prop :=
  match e with
  | EvPrint (MsgTotal _) => True
  | EvPrint (MsgFile _) => verbose = true
  | _ => batch_event w self service force verbose e
  end.

(** The lines that only the verbose mode prints. *)
Definition verbose_line (e : event) : bool :=
  match e with
  | EvPrint (MsgFile _) | EvPrint (MsgBatch _) => true
  | _ => false
  end.

(** A trace without them. *)
Definition quiet (t : list event) : list event :=
  List.filter (fun e => negb (verbose_line e)) t.

(** [calm] does what [loud] does, less the lines of the verbose mode. *)
Definition quiets {A} (loud calm : M A) : Prop :=
  forall fs, calm fs = match loud fs with
                       | None => None
                       | Some (r, fs', t) => Some (r, fs', quiet t)
                       end.

(** The sign that a trace bears of the outcome of the task of [f], read off
    the first reply to its request: the body written, or the failed write
    reported, for 200; the status reported for another one. A request that
    fails leaves no such sign: it ends the batch. *)
Definition accounted (w : world) (self : DataseerClient)
    (service input_path : string) (output : option string) (t : list event)
    (f : string) : Prop :=
  let filename := _output_file_name w f input_path output in
  match requests_post w (worker_url self service) f 0 with
  | Response status_code text =>
      if status_code =? 200 then
        if oserror w filename then filename ∈ write_failures t
        else (filename, text) ∈ written t
      else (f, status_code) ∈ failed t
  | Raises _ => False
  end.

(** The sizes that the batch lines of a trace show, in order. *)
Definition batch_lines (t : list event) : list nat :=
  omap (fun e => match e with
                 | EvPrint (MsgBatch size) => Some size
                 | _ => None
                 end) t.

(** The running totals of the progress lines of a trace, in order. *)
Definition totals (t : list event) : list nat :=
  omap (fun e => match e with
                 | EvPrint (MsgTotal nb_total) => Some nb_total
                 | _ => None
                 end) t.

(** The totals reported along a sequence of batches: a batch of the
    configured size is counted and reported, another one is not. *)
Fixpoint progress {A} (size : Z) (bs : list (list A)) (nb_total : nat)
  : list nat :=
  match bs with
  | [] => []
  | b :: bs' =>
      if Z.of_nat (length b) =? size
      then (nb_total + length b)%nat :: progress size bs' (nb_total + length b)
      else progress size bs' nb_total
  end.

(** The same environment with another order of completion. *)
Definition with_as_completed (w : world) (order : list future -> list future)
  : world :=
  {| getcwd := getcwd w;
     scandir := scandir w;
     requests_get := requests_get w;
     requests_post := requests_post w;
     oserror := oserror w;
     as_completed := order;
     runtime := runtime w;
     failed_write := failed_write w |}.

(** What the second loop of [process_batch] does with one outcome. *)
Definition collect_event (w : world) (input_path : string)
    (output : option string) (v : outcome) : list event :=
  let '(input_file, status, text) := v in
  let filename := _output_file_name w input_file input_path output in
  match text with
  | None => [EvPrint (MsgFailed input_file status)]
  | Some text =>
      if oserror w filename then
        match failed_write w filename text with
        | Some remains => [EvTruncate filename remains]
        | None => []
        end ++ [EvPrint (MsgWriteFailed filename)]
      else [EvWrite filename text]
  end.

(** The address of the service as the configuration names it. *)
Definition base_url (cfg : config) : string :=
  "http://" +:+ dataseer_server cfg
    +:+ (if Str.eqb (dataseer_port cfg) "" then ""
         else ":" +:+ dataseer_port cfg)
    +:+ "/service/".

(** What a client made from [cfg] may contact when it is created and then
    asked to process [service]. *)
Definition contact (cfg : config) (service : string) (e : event) : Prop :=
  match e with
  | EvGet _ => False
  | EvPost url _ _ _ =>
      url = base_url cfg +:+ "processDataseerTEI"
      \/ service = "processDataseerPDF"
         /\ url = base_url cfg +:+ "processDataseerPDF"
  | _ => True
  end.

(** ** Sample configurations and worlds, for the concrete runs below *)

Module Sample.

Definition cfg : config :=
  {| dataseer_server := "localhost"; dataseer_port := "8060";
     timeout := 60; sleep_time := 5; batch_size := 2 |}.

Definition client : DataseerClient := __init__fields cfg.

Definition pdf_url : string := "http://localhost:8060/service/processDataseerPDF".
Definition tei_url : string := "http://localhost:8060/service/processDataseerTEI".
Definition isalive_url : string := "http://localhost:8060/service/isalive".

(** A world around a directory and a service; the probe succeeds, writes
    succeed, futures complete in the order of submission, and the clock has
    moved on when a progress line is due. *)
Definition world_of (t : tree) (post : string -> string -> nat -> reply) : world :=
  {| getcwd := "/home/u";
     scandir := fun _ => t;
     requests_get := fun _ => Response 200 "true";
     requests_post := post;
     oserror := fun _ => false;
     as_completed := fun l => l;
     runtime := fun _ => 1;
     failed_write := fun _ _ => None |}.

(** The service of the overload test: 503 exactly once, then 200. *)
Definition overloaded_once : world :=
  world_of (Dir "" ["a.pdf"] [])
    (fun _ _ k => if Nat.eqb k 0 then Response 503 "busy"
                  else Response 200 "<TEI/>").

(** A service that answers 404 to everything. *)
Definition not_found : world :=
  world_of (Dir "" ["a.pdf"] []) (fun _ _ _ => Response 404 "no such page").

(** The request for [a.pdf] times out; every other file is annotated. *)
Definition one_timeout : world :=
  world_of (Dir "" ["a.pdf"; "b.pdf"; "c.pdf"] [])
    (fun _ file _ => if Str.eqb file "/in/a.pdf" then Raises Timeout
                     else Response 200 "<TEI/>").

(** The same, with the futures handed back in the reverse order. *)
Definition one_timeout_last : world :=
  {| getcwd := getcwd one_timeout;
     scandir := scandir one_timeout;
     requests_get := requests_get one_timeout;
     requests_post := requests_post one_timeout;
     oserror := oserror one_timeout;
     as_completed := @rev future;
     runtime := runtime one_timeout;
     failed_write := failed_write one_timeout |}.

(** A service that annotates everything, and a directory with a
    sub-directory and a file that is no PDF. *)
Definition annotating : world :=
  world_of (Dir "" ["a.pdf"; "notes.txt"; "b.pdf"] [Dir "sub" ["c.pdf.gz"] []])
    (fun _ _ _ => Response 200 "<TEI/>").

(** The same, run from another working directory. *)
Definition annotating_elsewhere : world :=
  {| getcwd := "/srv/work";
     scandir := scandir annotating;
     requests_get := requests_get annotating;
     requests_post := requests_post annotating;
     oserror := oserror annotating;
     as_completed := as_completed annotating;
     runtime := runtime annotating;
     failed_write := failed_write annotating |}.

(** The probe cannot connect. *)
Definition unreachable : world :=
  {| getcwd := "/home/u";
     scandir := fun _ => Dir "" [] [];
     requests_get := fun _ => Raises ConnectionError;
     requests_post := fun _ _ _ => Raises ConnectionError;
     oserror := fun _ => false;
     as_completed := fun l => l;
     runtime := fun _ => 1;
     failed_write := fun _ _ => None |}.

(** The probe is answered, with a server error. *)
Definition unhealthy : world :=
  {| getcwd := "/home/u";
     scandir := fun _ => Dir "" [] [];
     requests_get := fun _ => Response 500 "";
     requests_post := fun _ _ _ => Response 200 "<TEI/>";
     oserror := fun _ => false;
     as_completed := fun l => l;
     runtime := fun _ => 1;
     failed_write := fun _ _ => None |}.

(** The service is overloaded for three requests, then out of reach. *)
Definition overloaded_then_unreachable : world :=
  world_of (Dir "" ["a.pdf"] [])
    (fun _ _ k => if Nat.ltb k 3 then Response 503 "busy"
                  else Raises ConnectionError).

(** [a.pdf] is annotated, [b.pdf] meets a server error, [c.pdf] is annotated
    but its output cannot be written; the futures come back in the reverse
    order. *)
Definition mixed : world :=
  {| getcwd := "/home/u";
     scandir := fun _ => Dir "" ["a.pdf"; "b.pdf"; "c.pdf"] [];
     requests_get := fun _ => Response 200 "true";
     requests_post := fun _ file _ =>
       if Str.eqb file "/in/b.pdf" then Response 500 "" else Response 200 "<TEI/>";
     oserror := fun filename => Str.eqb filename "/in/c.dataseer.tei.xml";
     as_completed := @rev future;
     runtime := fun _ => 1;
     failed_write := fun _ _ => None |}.

(** A client whose batch size is never reached. *)
Definition client_unbatched : DataseerClient :=
  __init__fields
    {| dataseer_server := "localhost"; dataseer_port := "";
       timeout := 60; sleep_time := 5; batch_size := 0 |}.

(** Two files of one directory with one derived output path; the service
    answers each with a text of its own. *)
Definition colliding : world :=
  world_of (Dir "" ["a.pdf"; "a.pdf.gz"] [])
    (fun _ file _ => if Str.eqb file "/in/a.pdf" then Response 200 "<A/>"
                     else Response 200 "<B/>").

(** A client whose configured pause is negative. *)
Definition client_hasty : DataseerClient :=
  __init__fields
    {| dataseer_server := "localhost"; dataseer_port := "8060";
       timeout := 60; sleep_time := -1; batch_size := 2 |}.

(** The directory of [annotating] when the outputs of [a.pdf] and [b.pdf]
    are there from an earlier run. *)
Definition resumed : files :=
  <["/in/a.dataseer.tei.xml" := "<TEI/>"]>
    {["/in/b.dataseer.tei.xml" := "<TEI/>"]}.

(** [annotating], with a clock that has not moved by half a thousandth of a
    second when a progress line is due. *)
Definition instant : world :=
  {| getcwd := getcwd annotating;
     scandir := scandir annotating;
     requests_get := requests_get annotating;
     requests_post := requests_post annotating;
     oserror := oserror annotating;
     as_completed := as_completed annotating;
     runtime := fun _ => 0;
     failed_write := failed_write annotating |}.

(** [mixed], where the write that fails does so after the file was opened:
    the file is left empty. *)
Definition mixed_emptied : world :=
  {| getcwd := getcwd mixed;
     scandir := scandir mixed;
     requests_get := requests_get mixed;
     requests_post := requests_post mixed;
     oserror := oserror mixed;
     as_completed := as_completed mixed;
     runtime := runtime mixed;
     failed_write := fun _ _ => Some "" |}.

End Sample.

(* ================================================================== *)
(** * Properties *)
(* ================================================================== *)

(** ** The string and path models on concrete values *)

Example split_ex : Str.split "." "a.pdf.gz" = ["a"; "pdf"; "gz"].
Proof. reflexivity. Qed.
Example endswith_ex : Str.endswith "x/a.pdf.gz" ".pdf.gz" = true.
Proof. reflexivity. Qed.
Example abspath_ex : posixpath.abspath "/home/u" "../x/./a.pdf" = "/home/x/a.pdf".
Proof. reflexivity. Qed.
Example abspath_ex2 : posixpath.abspath "/home/u" "//x///a.pdf" = "//x/a.pdf".
Proof. reflexivity. Qed.
Example relpath_ex : posixpath.relpath "/home/u" "/in/sub/a.pdf" "/in" = "sub/a.pdf".
Proof. reflexivity. Qed.
Example relpath_ex2 : posixpath.relpath "/home/u" "/in/sub/a.pdf" "/in/x/y" = "../../sub/a.pdf".
Proof. reflexivity. Qed.
Example nt_ex : ntpath.split "/in/sub/a.pdf" = ("/in/sub", "a.pdf").
Proof. reflexivity. Qed.
Example nt_ex2 : ntpath.split "C:\in\sub/a.pdf" = ("C:\in\sub", "a.pdf").
Proof. reflexivity. Qed.
Example nt_ex3 : ntpath.split "//host/share/a.pdf" = ("//host/share/", "a.pdf").
Proof. reflexivity. Qed.
Example nt_ex4 : ntpath.split "//a.pdf" = ("//a.pdf", "").
Proof. reflexivity. Qed.
Example nt_ex5 : ntpath.split "a.pdf" = ("", "a.pdf").
Proof. reflexivity. Qed.
Example nt_ex6 : ntpath.split "/a.pdf" = ("/", "a.pdf").
Proof. reflexivity. Qed.

(** ** The monad *)

Lemma bind_ret_l {A B} (a : A) (k : A -> M B) fs :
  (x <- ret a ;; k x) fs = k a fs.
Proof.
  unfold bind, ret. destruct (k a fs) as [[[r fs2] t2]|]; reflexivity.
Qed.

Lemma bind_assoc {A B C} (m : M A) (k : A -> M B) (h : B -> M C) fs :
  (y <- (x <- m ;; k x) ;; h y) fs = (x <- m ;; y <- k x ;; h y) fs.
Proof.
  unfold bind. destruct (m fs) as [[[[a|e] fs1] t1]|]; try reflexivity.
  destruct (k a fs1) as [[[[b|e] fs2] t2]|]; try reflexivity.
  destruct (h b fs2) as [[[r fs3] t3]|]; try reflexivity.
  by rewrite app_assoc.
Qed.

Lemma bind_ext {A B} (m : M A) (k k' : A -> M B) fs :
  (forall a fs', k a fs' = k' a fs') ->
  (x <- m ;; k x) fs = (x <- m ;; k' x) fs.
Proof.
  intros H. unfold bind. destruct (m fs) as [[[[a|e] fs1] t1]|]; try reflexivity.
  by rewrite H.
Qed.

(** ** The workers *)

(** A transport failure of the request leaves [response] unbound, and the
    [return] of the [finally] clause raises: no outcome is returned. *)
Lemma process_tei_transport_failure fuel w self service file k e fs :
  requests_post w (service_url self +:+ endpoint_tei self) file k = Raises e ->
  exists t, process_tei (S fuel) w self service file k fs
            = Some (Exc UnboundLocalError, fs,
                    EvPost (service_url self +:+ endpoint_tei self) file false
                      (timeout (client_config self)) :: t)
            /\ Forall worker_print t.
Proof.
  intros H. cbn [process_tei]. unfold bind at 1, emit.
  rewrite H. destruct e; cbn; eexists; (split; [reflexivity|]);
    by repeat constructor.
Qed.

Lemma process_pdf_transport_failure fuel w self service file k e fs :
  requests_post w (service_url self +:+ endpoint_pdf self) file k = Raises e ->
  exists t, process_pdf fuel w self service file k fs
            = Some (Exc UnboundLocalError, fs,
                    EvPost (service_url self +:+ endpoint_pdf self) file
                      (Str.endswith file ".pdf.gz")
                      (timeout (client_config self)) :: t)
            /\ Forall worker_print t.
Proof.
  intros H. unfold process_pdf. unfold bind at 1, emit.
  rewrite H. destruct e; cbn; eexists; (split; [reflexivity|]);
    by repeat constructor.
Qed.

Lemma bind_Some {A B} (m : M A) (k : A -> M B) fs r fs' t :
  (x <- m ;; k x) fs = Some (r, fs', t) ->
  (exists e, m fs = Some (Exc e, fs', t) /\ r = Exc e) \/
  (exists a fs1 t1 t2, m fs = Some (Ok a, fs1, t1) /\
                       k a fs1 = Some (r, fs', t2) /\ t = t1 ++ t2).
Proof.
  unfold bind. destruct (m fs) as [[[[a|e] fs1] t1]|]; [| |done].
  - destruct (k a fs1) as [[[r2 fs2] t2]|] eqn:Hk; [|done].
    intros [= <- <- <-]. right. eauto 10.
  - intros [= <- <- <-]. left. eauto.
Qed.

(** On 503 the worker pauses, makes the call [retry], and then returns the
    status 503 without a body, whatever [retry] returned or raised. With a
    negative time to pause, the pause is refused and no call is made: the
    [ValueError] is dropped like everything else, and the result is the
    same. *)
Lemma worker_overloaded self file text (retry : M outcome) fs :
  try_finally (on_status self file 503 text retry)
    (fun c => finally_return file (Some 503) (tei_data_at_end c)) fs
  = if sleep_time (client_config self) <? 0 then
      Some (Ok (file, 503, None), fs,
            [EvPrint (MsgOverloaded (sleep_time (client_config self)))])
    else
      match retry fs with
      | None => None
      | Some (_, fs', t) =>
          Some (Ok (file, 503, None), fs',
                EvPrint (MsgOverloaded (sleep_time (client_config self)))
                  :: EvSleep (sleep_time (client_config self)) :: t)
      end.
Proof.
  unfold try_finally, on_status, time_sleep. cbn.
  unfold bind. cbn.
  destruct (sleep_time (client_config self) <? 0); [done|]. cbn.
  destruct (retry fs) as [[[[v|e] fs1] t1]|]; cbn;
    rewrite ?app_nil_r; reflexivity.
Qed.

(** On any other status the worker makes no further request and does not
    pause: it prints at most, and returns the status, with the text of the
    response for 200 and without a body otherwise. *)
Lemma worker_terminal self file status_code text (retry : M outcome) fs :
  status_code <> 503 ->
  exists t,
    try_finally (on_status self file status_code text retry)
      (fun c => finally_return file (Some status_code) (tei_data_at_end c)) fs
    = Some (Ok (terminal_outcome file status_code text), fs, t)
    /\ Forall worker_print t /\ (status_code = 404 -> t = []).
Proof.
  intros H503. unfold try_finally, on_status, terminal_outcome.
  destruct (Z.eqb_spec status_code 503) as [|_]; [done|].
  destruct (status_code >=? 500) eqn:H500.
  { destruct (Z.eqb_spec status_code 200) as [->|_]; [done|].
    cbn. eexists. split; [reflexivity|]. split; [by repeat constructor|].
    by intros ->. }
  destruct (Z.eqb_spec status_code 404) as [->|H404].
  { cbn. eexists. split; [reflexivity|]. done. }
  destruct (status_code >=? 400) eqn:H400.
  { destruct (Z.eqb_spec status_code 200) as [->|_]; [done|].
    cbn. eexists. split; [reflexivity|]. split; [by repeat constructor|done]. }
  destruct (Z.eqb_spec status_code 200) as [->|_].
  { cbn. eexists. split; [reflexivity|]. done. }
  cbn. eexists. split; [reflexivity|]. split; [by repeat constructor|done].
Qed.

Lemma prints_only t :
  Forall is_print t -> posted t = [] /\ sleeps t = [] /\ written t = [].
Proof.
  induction 1 as [|e t He _ IH]; [done|]. by destruct e.
Qed.

Lemma worker_prints t : Forall worker_print t -> Forall is_print t.
Proof. intros H. eapply Forall_impl; [exact H|]. by intros []. Qed.

Lemma process_tei_terminal fuel w self service file k status_code text fs :
  requests_post w (service_url self +:+ endpoint_tei self) file k
    = Response status_code text ->
  status_code <> 503 ->
  exists t,
    process_tei (S fuel) w self service file k fs
    = Some (Ok (terminal_outcome file status_code text), fs,
            EvPost (service_url self +:+ endpoint_tei self) file false
              (timeout (client_config self)) :: t)
    /\ Forall worker_print t /\ (status_code = 404 -> t = []).
Proof.
  intros H Hs. cbn [process_tei]. unfold bind at 1, emit. rewrite H.
  destruct (worker_terminal self file status_code text
              (process_tei fuel w self service file (S k)) fs Hs)
    as (t & -> & Ht). eauto.
Qed.

Lemma process_pdf_terminal fuel w self service file k status_code text fs :
  requests_post w (service_url self +:+ endpoint_pdf self) file k
    = Response status_code text ->
  status_code <> 503 ->
  exists t,
    process_pdf fuel w self service file k fs
    = Some (Ok (terminal_outcome file status_code text), fs,
            EvPost (service_url self +:+ endpoint_pdf self) file
              (Str.endswith file ".pdf.gz") (timeout (client_config self)) :: t)
    /\ Forall worker_print t /\ (status_code = 404 -> t = []).
Proof.
  intros H Hs. unfold process_pdf. unfold bind at 1, emit. rewrite H.
  destruct (worker_terminal self file status_code text
              (process_tei fuel w self service file (S k)) fs Hs)
    as (t & -> & Ht). eauto.
Qed.

Lemma process_tei_overloaded fuel w self service file k text fs :
  requests_post w (service_url self +:+ endpoint_tei self) file k
    = Response 503 text ->
  process_tei (S fuel) w self service file k fs
  = if sleep_time (client_config self) <? 0 then
      Some (Ok (file, 503, None), fs,
            [EvPost (service_url self +:+ endpoint_tei self) file false
               (timeout (client_config self));
             EvPrint (MsgOverloaded (sleep_time (client_config self)))])
    else
      match process_tei fuel w self service file (S k) fs with
      | None => None
      | Some (_, fs', t) =>
          Some (Ok (file, 503, None), fs',
                EvPost (service_url self +:+ endpoint_tei self) file false
                  (timeout (client_config self))
                  :: EvPrint (MsgOverloaded (sleep_time (client_config self)))
                  :: EvSleep (sleep_time (client_config self)) :: t)
      end.
Proof.
  intros H. cbn [process_tei]. unfold bind at 1, emit. rewrite H.
  rewrite worker_overloaded.
  destruct (sleep_time (client_config self) <? 0); [done|].
  by destruct (process_tei fuel w self service file (S k) fs) as [[[? ?] ?]|].
Qed.

(** In [process_pdf] the call after the pause is to [process_tei]: the file
    is sent again to the TEI endpoint, not through [gzip]. *)
Lemma process_pdf_overloaded fuel w self service file k text fs :
  requests_post w (service_url self +:+ endpoint_pdf self) file k
    = Response 503 text ->
  process_pdf fuel w self service file k fs
  = if sleep_time (client_config self) <? 0 then
      Some (Ok (file, 503, None), fs,
            [EvPost (service_url self +:+ endpoint_pdf self) file
               (Str.endswith file ".pdf.gz") (timeout (client_config self));
             EvPrint (MsgOverloaded (sleep_time (client_config self)))])
    else
      match process_tei fuel w self service file (S k) fs with
      | None => None
      | Some (_, fs', t) =>
          Some (Ok (file, 503, None), fs',
                EvPost (service_url self +:+ endpoint_pdf self) file
                  (Str.endswith file ".pdf.gz") (timeout (client_config self))
                  :: EvPrint (MsgOverloaded (sleep_time (client_config self)))
                  :: EvSleep (sleep_time (client_config self)) :: t)
      end.
Proof.
  intros H. unfold process_pdf. unfold bind at 1, emit. rewrite H.
  rewrite worker_overloaded.
  destruct (sleep_time (client_config self) <? 0); [done|].
  by destruct (process_tei fuel w self service file (S k) fs) as [[[? ?] ?]|].
Qed.

Lemma prints_worker_events file t :
  Forall worker_print t -> Forall (worker_event file) t.
Proof. intros H. eapply Forall_impl; [exact H|]. by intros []. Qed.

Lemma process_tei_inv fuel w self service file k fs r fs' t :
  process_tei fuel w self service file k fs = Some (r, fs', t) ->
  worker_ok file (service_url self +:+ endpoint_tei self) false
    (timeout (client_config self)) fs r fs' t.
Proof.
  revert k r fs' t. induction fuel as [|fuel IH]; intros k r fs' t; [done|].
  destruct (requests_post w (service_url self +:+ endpoint_tei self) file k)
    as [status_code text|e] eqn:Hpost.
  - destruct (decide (status_code = 503)) as [->|Hs].
    + rewrite (process_tei_overloaded _ _ _ _ _ _ _ _ Hpost).
      destruct (sleep_time (client_config self) <? 0).
      { intros [= <- <- <-].
        repeat split; [by repeat constructor|eauto|congruence]. }
      destruct (process_tei fuel w self service file (S k) fs)
        as [[[r1 fs1] t1]|] eqn:Hrec; [|done].
      intros [= <- <- <-]. destruct (IH _ _ _ _ Hrec) as (-> & Ht & _).
      repeat split; [by repeat constructor|eauto|congruence].
    + destruct (process_tei_terminal fuel w self service file k _ _ fs Hpost Hs)
        as (t1 & -> & Hp & _).
      intros [= <- <- <-]. unfold terminal_outcome.
      repeat split; [|eauto|congruence].
      constructor; [done|]. by apply prints_worker_events.
  - destruct (process_tei_transport_failure fuel w self service file k e fs Hpost)
      as (t1 & -> & Hp).
    intros [= <- <- <-].
    repeat split; [|eauto|congruence].
    constructor; [done|]. by apply prints_worker_events.
Qed.

Lemma process_pdf_inv fuel w self service file k fs r fs' t :
  process_pdf fuel w self service file k fs = Some (r, fs', t) ->
  worker_ok file (service_url self +:+ endpoint_pdf self)
    (Str.endswith file ".pdf.gz") (timeout (client_config self)) fs r fs' t.
Proof.
  destruct (requests_post w (service_url self +:+ endpoint_pdf self) file k)
    as [status_code text|e] eqn:Hpost.
  - destruct (decide (status_code = 503)) as [->|Hs].
    + rewrite (process_pdf_overloaded _ _ _ _ _ _ _ _ Hpost).
      destruct (sleep_time (client_config self) <? 0).
      { intros [= <- <- <-].
        repeat split; [by repeat constructor|eauto|congruence]. }
      destruct (process_tei fuel w self service file (S k) fs)
        as [[[r1 fs1] t1]|] eqn:Hrec; [|done].
      intros [= <- <- <-].
      destruct (process_tei_inv _ _ _ _ _ _ _ _ _ _ Hrec) as (-> & Ht & _).
      repeat split; [by repeat constructor|eauto|congruence].
    + destruct (process_pdf_terminal fuel w self service file k _ _ fs Hpost Hs)
        as (t1 & -> & Hp & _).
      intros [= <- <- <-]. unfold terminal_outcome.
      repeat split; [|eauto|congruence].
      constructor; [done|]. by apply prints_worker_events.
  - destruct (process_pdf_transport_failure fuel w self service file k e fs Hpost)
      as (t1 & -> & Hp).
    intros [= <- <- <-].
    repeat split; [|eauto|congruence].
    constructor; [done|]. by apply prints_worker_events.
Qed.

Lemma selected_process_inv fuel w self service file k fs r fs' t :
  selected_process self service fuel w self service file k fs = Some (r, fs', t) ->
  worker_ok file (worker_url self service) (worker_gunzip self service file)
    (timeout (client_config self)) fs r fs' t.
Proof.
  unfold selected_process, worker_url, worker_gunzip.
  destruct (Str.eqb service (endpoint_pdf self)).
  - apply process_pdf_inv.
  - apply process_tei_inv.
Qed.


(** The retry has no bound of its own: as long as the service answers 503
    the file is sent again, after one pause each time (the time to pause is
    not negative). When another status ends the exchange, the worker still
    returns 503 without a body if it paused at all. *)
Lemma process_tei_retries w self service file n :
  0 <= sleep_time (client_config self) ->
  forall fuel k fs status_code text,
    (forall i, (i < n)%nat -> exists txt,
        requests_post w (service_url self +:+ endpoint_tei self) file (k + i)%nat
        = Response 503 txt) ->
    requests_post w (service_url self +:+ endpoint_tei self) file (k + n)%nat
      = Response status_code text ->
    status_code <> 503 ->
    exists t,
      process_tei (S (n + fuel)) w self service file k fs
      = Some (Ok (match n with
                  | O => terminal_outcome file status_code text
                  | S _ => (file, 503, None)
                  end), fs, t)
      /\ posted t = repeat (service_url self +:+ endpoint_tei self, file) (S n)
      /\ sleeps t = repeat (sleep_time (client_config self)) n.
Proof.
  intros Hpause.
  induction n as [|n IH]; intros fuel k fs status_code text Hbusy Hlast Hs.
  - rewrite Nat.add_0_r in Hlast.
    destruct (process_tei_terminal (0 + fuel) w self service file k _ _ fs Hlast Hs)
      as (t & -> & Hp & _).
    destruct (prints_only _ (worker_prints _ Hp)) as (Hp1 & Hp2 & Hp3).
    eexists. split; [reflexivity|].
    unfold posted, sleeps in *. cbn. by rewrite Hp1, Hp2.
  - destruct (Hbusy O ltac:(lia)) as [txt Hk]. rewrite Nat.add_0_r in Hk.
    change (S n + fuel)%nat with (S (n + fuel)).
    rewrite (process_tei_overloaded _ _ _ _ _ _ _ _ Hk).
    rewrite (proj2 (Z.ltb_ge _ _) Hpause).
    destruct (IH fuel (S k) fs status_code text) as (t & -> & Hp & Hsl).
    + intros i Hi. destruct (Hbusy (S i) ltac:(lia)) as [txt' Hi'].
      exists txt'. by rewrite <- Hi', Nat.add_succ_r.
    + by rewrite <- Hlast, Nat.add_succ_r.
    + done.
    + eexists. split; [reflexivity|].
      unfold posted, sleeps in *. cbn. by rewrite Hp, Hsl.
Qed.

Lemma process_pdf_retries w self service file n fuel k fs txt status_code text :
  0 <= sleep_time (client_config self) ->
  requests_post w (service_url self +:+ endpoint_pdf self) file k
    = Response 503 txt ->
  (forall i, (i < n)%nat -> exists txt,
      requests_post w (service_url self +:+ endpoint_tei self) file (S k + i)%nat
      = Response 503 txt) ->
  requests_post w (service_url self +:+ endpoint_tei self) file (S k + n)%nat
    = Response status_code text ->
  status_code <> 503 ->
  exists t,
    process_pdf (S (n + fuel)) w self service file k fs
    = Some (Ok (file, 503, None), fs, t)
    /\ posted t = (service_url self +:+ endpoint_pdf self, file)
                  :: repeat (service_url self +:+ endpoint_tei self, file) (S n)
    /\ sleeps t = repeat (sleep_time (client_config self)) (S n).
Proof.
  intros Hpause Hk Hbusy Hlast Hs.
  rewrite (process_pdf_overloaded _ _ _ _ _ _ _ _ Hk).
  rewrite (proj2 (Z.ltb_ge _ _) Hpause).
  destruct (process_tei_retries w self service file n Hpause fuel (S k) fs
              status_code text Hbusy Hlast Hs) as (t & -> & Hp & Hsl).
  eexists. split; [reflexivity|].
  unfold posted, sleeps in *. cbn. by rewrite Hp, Hsl.
Qed.

(** C1 (the code departs from it). The overload test of the specification, on
    a PDF task: the service answers 503 once and then 200 with the annotated
    document. The client pauses once and sends the file again, but to the TEI
    endpoint (the retry in [process_pdf] calls [process_tei]), and the
    [return] of the [finally] clause then replaces the result of the retry:
    the outcome is the status 503 without a body, and the 200 body is lost. *)
Theorem overload_then_success_loses_the_body :
  process_pdf 2 Sample.overloaded_once Sample.client
    "processDataseerPDF" "/in/a.pdf" 0 ∅
  = Some (Ok ("/in/a.pdf", 503, None), ∅,
          [EvPost Sample.pdf_url "/in/a.pdf" false 60;
           EvPrint (MsgOverloaded 5);
           EvSleep 5;
           EvPost Sample.tei_url "/in/a.pdf" false 60]).
Proof. vm_compute. reflexivity. Qed.

(** C2 (the code departs from it). The request for a file times out: the
    matching [except] clause prints its line, and the [finally] clause then
    reads [response], which was never bound. The worker raises
    [UnboundLocalError] instead of returning an outcome with a status for the
    transport failure. *)
Theorem transport_failure_returns_no_outcome :
  process_pdf 1 Sample.one_timeout Sample.client
    "processDataseerPDF" "/in/a.pdf" 0 ∅
  = Some (Exc UnboundLocalError, ∅,
          [EvPost Sample.pdf_url "/in/a.pdf" false 60; EvPrint MsgTimeout]).
Proof. vm_compute. reflexivity. Qed.

(** C5. When the service answers 404 to the request of a task, the worker
    selected for the service returns the outcome [(file, 404, None)]: the
    status 404, no body. Its trace is the one request: it made no second
    request and did not pause. (Formatting the line for 404 raises
    [TypeError] in the source; the [finally] clause returns all the same.) *)
Theorem not_found_is_terminal fuel w self service file text fs :
  requests_post w (worker_url self service) file 0 = Response 404 text ->
  selected_process self service (S fuel) w self service file 0 fs
  = Some (Ok (file, 404, None), fs,
          [EvPost (worker_url self service) file
             (worker_gunzip self service file) (timeout (client_config self))]).
Proof.
  unfold worker_url, worker_gunzip, selected_process.
  destruct (Str.eqb service (endpoint_pdf self)); intros H.
  - destruct (process_pdf_terminal (S fuel) w self service file 0 404 text fs H)
      as (t & -> & _ & Ht); [done|]. by rewrite Ht.
  - destruct (process_tei_terminal fuel w self service file 0 404 text fs H)
      as (t & -> & _ & Ht); [done|]. by rewrite Ht.
Qed.

Lemma not_found_is_terminal_witness :
  selected_process Sample.client "processDataseerPDF" 1 Sample.not_found
    Sample.client "processDataseerPDF" "/in/a.pdf.gz" 0 ∅
  = Some (Ok ("/in/a.pdf.gz", 404, None), ∅,
          [EvPost Sample.pdf_url "/in/a.pdf.gz" true 60]).
Proof.
  apply (not_found_is_terminal 0 Sample.not_found Sample.client
           "processDataseerPDF" "/in/a.pdf.gz" "no such page" ∅).
  reflexivity.
Defined.

(** ** The start-up probe *)

(** C6. Creating the client performs the GET of the liveness endpoint before
    anything that uses the client: the probe is the first event of any
    program [client <- DataseerClient(...) ;; k client]. If the GET raises
    (the probe could not be completed), the program ends there with
    [ServerUnavailableException] and [k] never runs; if the GET is answered,
    whatever the status, one line is printed (a warning for a status other
    than 200) and [k] runs. So creating the client fails if and only if the
    GET raised. *)
Theorem startup_probe {A} (w : world) (cfg : config)
    (k : DataseerClient -> M A) (fs : files) :
  let self := __init__fields cfg in
  let the_url := service_url self +:+ endpoint_isalive self in
  (client <- __init__ w cfg ;; k client) fs
  = match requests_get w the_url with
    | Raises _ =>
        Some (Exc ServerUnavailableException, fs,
              [EvGet the_url; EvPrint MsgConnectionFailed])
    | Response status _ =>
        match k self fs with
        | None => None
        | Some (r, fs', t) =>
            Some (r, fs',
                  EvGet the_url
                    :: EvPrint (if status =? 200 then MsgRunning
                                else MsgNotRunning status)
                    :: t)
        end
    end
  /\ ((exists t, __init__ w cfg fs = Some (Exc ServerUnavailableException, fs, t))
      <-> (exists e, requests_get w the_url = Raises e)).
Proof.
  intros self the_url. unfold __init__, _test_server_connection.
  fold self. fold the_url. split.
  - unfold bind, emit, print, emit, raise, ret.
    destruct (requests_get w the_url) as [status text|e]; [|done].
    destruct (status =? 200); cbn;
      by destruct (k self fs) as [[[r fs'] t]|].
  - unfold bind, emit, print, emit, raise, ret.
    destruct (requests_get w the_url) as [status text|e].
    + split; [|by intros [e [=]]].
      intros [t Ht]. by destruct (status =? 200).
    + split; eauto.
Qed.

Lemma startup_probe_witness :
  (client <- __init__ Sample.unhealthy Sample.cfg ;;
   process 1 Sample.unhealthy client "processDataseerPDF" "/in" None None None None) ∅
  = Some (Ok tt, ∅,
          [EvGet Sample.isalive_url; EvPrint (MsgNotRunning 500);
           EvPrint (MsgTotal 0)])
  /\ (client <- __init__ Sample.unreachable Sample.cfg ;;
      process 1 Sample.unreachable client "processDataseerPDF" "/in" None None None None) ∅
    = Some (Exc ServerUnavailableException, ∅,
            [EvGet Sample.isalive_url; EvPrint MsgConnectionFailed]).
Proof.
  split.
  - exact (proj1 (startup_probe Sample.unhealthy Sample.cfg
             (fun client => process 1 Sample.unhealthy client
                              "processDataseerPDF" "/in" None None None None) ∅)).
  - exact (proj1 (startup_probe Sample.unreachable Sample.cfg
             (fun client => process 1 Sample.unreachable client
                              "processDataseerPDF" "/in" None None None None) ∅)).
Defined.

(** ** A batch *)

(** C3 (the code departs from it). A batch of two PDF files: the request for
    the first times out, the second is annotated. The worker of the first
    raises (see C2), [r.result()] raises again in the loop over the futures,
    and nothing catches it. When the failed future comes first, the body of
    the second file is never written and no line reports either file; when it
    comes last, the body is written, and the exception still leaves
    [process]: the third file, of the next batch, is never sent. *)
Theorem transport_failure_aborts_the_batch :
  process_batch 1 Sample.one_timeout Sample.client "processDataseerPDF"
    ["/in/a.pdf"; "/in/b.pdf"] "/in" None 10 true false ∅
  = Some (Exc UnboundLocalError, ∅,
          [EvPost Sample.pdf_url "/in/a.pdf" false 60; EvPrint MsgTimeout;
           EvPost Sample.pdf_url "/in/b.pdf" false 60])
  /\ process 1 Sample.one_timeout_last Sample.client "processDataseerPDF"
       "/in" None None None None ∅
    = Some (Exc UnboundLocalError, {[ "/in/b.dataseer.tei.xml" := "<TEI/>" ]},
            [EvPrint (MsgTotal 0);
             EvPost Sample.pdf_url "/in/a.pdf" false 60; EvPrint MsgTimeout;
             EvPost Sample.pdf_url "/in/b.pdf" false 60;
             EvWrite "/in/b.dataseer.tei.xml" "<TEI/>"]).
Proof. split; vm_compute; reflexivity. Qed.

(** *** Reading the traces of sequences *)

Lemma posted_app t1 t2 : posted (t1 ++ t2) = posted t1 ++ posted t2.
Proof. apply omap_app. Qed.

Lemma written_app t1 t2 : written (t1 ++ t2) = written t1 ++ written t2.
Proof. apply omap_app. Qed.

Lemma apply_writes_app t1 t2 fs :
  apply_writes (t1 ++ t2) fs = apply_writes t2 (apply_writes t1 fs).
Proof. apply fold_left_app. Qed.

Lemma posted_worker file t url f :
  Forall (worker_event file) t -> (url, f) ∈ posted t -> f = file.
Proof.
  induction 1 as [|e t He _ IH]; [by intros ?%elem_of_nil|].
  destruct e; cbn in *; try done.
  intros [[= -> ->]|?]%elem_of_cons; auto.
Qed.

Lemma written_worker file t : Forall (worker_event file) t -> written t = [].
Proof.
  induction 1 as [|e t He _ IH]; [done|]. by destruct e.
Qed.

Lemma failed_app t1 t2 : failed (t1 ++ t2) = failed t1 ++ failed t2.
Proof. apply omap_app. Qed.

Lemma write_failures_app t1 t2 :
  write_failures (t1 ++ t2) = write_failures t1 ++ write_failures t2.
Proof. apply omap_app. Qed.

Lemma spoiled_app t1 t2 : spoiled (t1 ++ t2) = spoiled t1 ++ spoiled t2.
Proof. apply omap_app. Qed.

Lemma reports_worker file t :
  Forall (worker_event file) t -> failed t = [] /\ write_failures t = [].
Proof.
  induction 1 as [|e t He _ IH]; [done|].
  destruct e as [| | |[]| |]; done.
Qed.

Lemma spoiled_worker file t : Forall (worker_event file) t -> spoiled t = [].
Proof.
  induction 1 as [|e t He _ IH]; [done|]. by destruct e.
Qed.

Lemma apply_writes_none t fs :
  written t = [] -> spoiled t = [] -> apply_writes t fs = fs.
Proof.
  revert fs. induction t as [|e t IH]; intros fs; [done|].
  destruct e; cbn; try done; apply IH.
Qed.

(** Writing only adds files or replaces their content, and so does a write
    that fails. *)
Lemma apply_writes_dom t fs p :
  is_Some (fs !! p) -> is_Some (apply_writes t fs !! p).
Proof.
  revert fs. induction t as [|e t IH]; intros fs H; [done|].
  destruct e; cbn; try (by apply IH);
    (apply IH; destruct (decide (filename = p)) as [->|Hne];
     [rewrite lookup_insert_eq; eauto|by rewrite lookup_insert_ne]).
Qed.

(** A file the trace wrote is there in the end. *)
Lemma apply_writes_written_dom t fs p text :
  (p, text) ∈ written t -> is_Some (apply_writes t fs !! p).
Proof.
  revert fs. induction t as [|e t IH]; intros fs; [by intros ?%elem_of_nil|].
  destruct e; cbn; try (by apply IH).
  intros [[= <- <-]|Hin]%elem_of_cons; [|by apply IH].
  apply apply_writes_dom. rewrite lookup_insert_eq. eauto.
Qed.



(** A file the trace did not write, and where no write failed, is as it
    was. *)
Lemma apply_writes_other t fs p :
  (forall text, (p, text) ∉ written t) ->
  (forall remains, (p, remains) ∉ spoiled t) ->
  apply_writes t fs !! p = fs !! p.
Proof.
  revert fs. induction t as [|e t IH]; intros fs H Hsp; [done|].
  destruct e; cbn in *; try (by apply IH).
  - rewrite IH.
    + rewrite lookup_insert_ne; [done|]. intros ->. eapply H. by apply elem_of_cons; left.
    + intros text' ?. eapply H. by apply elem_of_cons; right.
    + done.
  - rewrite IH.
    + rewrite lookup_insert_ne; [done|]. intros ->. eapply Hsp. by apply elem_of_cons; left.
    + done.
    + intros remains' ?. eapply Hsp. by apply elem_of_cons; right.
Qed.

(** *** The two loops of a batch *)

Lemma submit_one_eq fuel w self service input_path output force results f fs :
  submit_one fuel w self service input_path output force results f fs
  = if (force || negb (bool_decide
                         (is_Some (fs !! _output_file_name w f input_path output))))%bool
    then match selected_process self service fuel w self service f 0 fs with
         | None => None
         | Some (r, fs1, t1) => Some (Ok (results ++ [r]), fs1, t1)
         end
    else Some (Ok results, fs,
               [EvPrint (MsgSkipping (_output_file_name w f input_path output))]).
Proof.
  unfold submit_one, bind, isfile, executor_submit, ret, print, emit.
  destruct force; cbn.
  - destruct (selected_process _ _ _ _ _ _ _ _ _) as [[[r fs1] t1]|]; [|done].
    by rewrite app_nil_r.
  - destruct (bool_decide _); cbn; [done|].
    destruct (selected_process _ _ _ _ _ _ _ _ _) as [[[r fs1] t1]|]; [|done].
    by rewrite app_nil_r.
Qed.

(** The submissions: one future per dispatched task, in order, holding what
    the worker of the task returned or raised; the files are not touched and
    the only requests are those of the dispatched tasks. *)
Lemma submit_fold fuel w self service input_path output force input_files :
  forall acc fs r fs' t,
    for_fold input_files
      (submit_one fuel w self service input_path output force) acc fs
    = Some (r, fs', t) ->
    fs' = fs
    /\ (written t = [] /\ failed t = [] /\ write_failures t = []
        /\ spoiled t = [])
    /\ (forall url f, (url, f) ∈ posted t ->
          f ∈ dispatched w fs input_path output force input_files)
    /\ (forall f, f ∈ dispatched w fs input_path output force input_files ->
          (worker_url self service, f) ∈ posted t)
    /\ exists news,
        r = Ok (acc ++ news)
        /\ Forall2 (fun f fut => exists tf,
                      selected_process self service fuel w self service f 0 fs
                      = Some (fut, fs, tf))
             (dispatched w fs input_path output force input_files) news.
Proof.
  induction input_files as [|f l IH]; intros acc fs r fs' t.
  { intros [= <- <- <-]. repeat split; try (by intros * ?%elem_of_nil).
    exists []. by rewrite app_nil_r. }
  cbn [for_fold]. intros [(e & He & _)|(a & fs1 & t1 & t2 & H1 & H2 & ->)]%bind_Some.
  { rewrite submit_one_eq in He. destruct (_ || _)%bool; [|done].
    by destruct (selected_process _ _ _ _ _ _ _ _ _) as [[[? ?] ?]|]. }
  rewrite submit_one_eq in H1. unfold dispatched. cbn [List.filter].
  destruct (_ || _)%bool eqn:Hd.
  - destruct (selected_process self service fuel w self service f 0 fs)
      as [[[fut fs0] tf]|] eqn:Hw; [|done].
    injection H1 as <- <- <-.
    destruct (selected_process_inv _ _ _ _ _ _ _ _ _ _ Hw)
      as (-> & Hev & [t' ->] & _).
    destruct (IH _ _ _ _ _ H2)
      as (-> & (Hwr & Hfl & Hwf & Hsp) & Hposted & Hall & news & -> & HF).
    destruct (reports_worker _ _ Hev) as [Hfl0 Hwf0].
    split; [done|]. split.
    { by rewrite written_app, failed_app, write_failures_app, spoiled_app,
        (written_worker _ _ Hev), (spoiled_worker _ _ Hev),
        Hfl0, Hwf0, Hwr, Hfl, Hwf, Hsp. }
    repeat split.
    + intros url f'. rewrite posted_app. intros [Hin|Hin]%elem_of_app.
      * apply (posted_worker _ _ _ _ Hev) in Hin as ->. by apply elem_of_cons; left.
      * apply elem_of_cons; right. by eapply Hposted.
    + intros f'. rewrite posted_app. intros [->|Hin]%elem_of_cons.
      * apply elem_of_app; left. cbn. by apply elem_of_cons; left.
      * apply elem_of_app; right. by apply Hall.
    + exists (fut :: news). split; [by rewrite <- app_assoc|].
      constructor; [eauto|done].
  - injection H1 as <- <- <-.
    destruct (IH _ _ _ _ _ H2)
      as (-> & (Hwr & Hfl & Hwf & Hsp) & Hposted & Hall & news & -> & HF).
    repeat split; eauto.
Qed.

(** One turn of the second loop: the exception of the future, or what
    [collect_event] tells for its outcome. *)
Lemma collect_one_eq w input_path output r fs :
  collect_one w input_path output r fs
  = match r with
    | Exc e => Some (Exc e, fs, [])
    | Ok v =>
        Some (Ok tt, apply_writes (collect_event w input_path output v) fs,
              collect_event w input_path output v)
    end.
Proof.
  unfold collect_one, bind, future_result, ret, raise, write_tei, print, emit.
  destruct r as [[[f st] [text|]]|e]; cbn; [|done..].
  destruct (oserror w _); [|done].
  by destruct (failed_write w _ _).
Qed.

Lemma collect_event_facts w input_path output f st text :
  let t := collect_event w input_path output (f, st, text) in
  let filename := _output_file_name w f input_path output in
  posted t = []
  /\ (forall p x, (p, x) ∈ written t -> text = Some x /\ p = filename)
  /\ (forall f' st', (f', st') ∈ failed t -> f' = f /\ st' = st /\ text = None)
  /\ (forall p, p ∈ write_failures t -> p = filename /\ exists x, text = Some x)
  /\ (forall p remains, (p, remains) ∈ spoiled t -> p ∈ write_failures t)
  /\ (forall x, text = Some x -> oserror w filename = false ->
        (filename, x) ∈ written t).
Proof.
  cbn. destruct text as [x|];
    [destruct (oserror w _) eqn:Hos; [destruct (failed_write w _ _)|]|]; cbn;
    split_and!; try done; try (by intros * ?%elem_of_nil);
    try (intros * [= -> ->]%list_elem_of_singleton);
    try (intros * ->%list_elem_of_singleton);
    try (intros ? [= ->] ?);
    eauto; try (by apply list_elem_of_singleton); congruence.
Qed.

(** The collection: it sends nothing; every write is the body of one of the
    futures, at the path derived from its file; the first future that holds
    an exception ends the loop with that exception. *)
Lemma collect_fold w input_path output l :
  forall fs r fs' t,
    for_each l (collect_one w input_path output) fs = Some (r, fs', t) ->
    fs' = apply_writes t fs /\ posted t = []
    /\ (forall p text, (p, text) ∈ written t ->
          exists f st, Ok (f, st, Some text) ∈ l
                       /\ p = _output_file_name w f input_path output)
    /\ (forall f st, (f, st) ∈ failed t -> Ok (f, st, None) ∈ l)
    /\ (forall p, p ∈ write_failures t ->
          exists f st text, Ok (f, st, Some text) ∈ l
                            /\ p = _output_file_name w f input_path output)
    /\ (forall p remains, (p, remains) ∈ spoiled t -> p ∈ write_failures t)
    /\ (r = Ok tt ->
        Forall (fun fut => exists v, fut = Ok v) l
        /\ forall f st text,
            Ok (f, st, Some text) ∈ l ->
            oserror w (_output_file_name w f input_path output) = false ->
            (_output_file_name w f input_path output, text) ∈ written t).
Proof.
  induction l as [|fut l IH]; intros fs r fs' t.
  { intros [= <- <- <-]. repeat split; try done; by intros * ?%elem_of_nil. }
  cbn [for_each].
  intros [(e & He & ->)|(a & fs1 & t1 & t2 & H1 & H2 & ->)]%bind_Some;
    rewrite collect_one_eq in *.
  { destruct fut as [v|e']; [done|].
    injection He as <- <- <-. repeat split; try done; by intros * ?%elem_of_nil. }
  destruct (IH _ _ _ _ H2) as (-> & Hp & Hw & Hfl & Hwf & Hsp & Hok).
  assert (posted t1 = [] /\ fs1 = apply_writes t1 fs
          /\ (forall p text, (p, text) ∈ written t1 ->
                exists f st, fut = Ok (f, st, Some text)
                             /\ p = _output_file_name w f input_path output)
          /\ (forall f st, (f, st) ∈ failed t1 -> fut = Ok (f, st, None))
          /\ (forall p, p ∈ write_failures t1 ->
                exists f st text, fut = Ok (f, st, Some text)
                                  /\ p = _output_file_name w f input_path output)
          /\ (forall p remains, (p, remains) ∈ spoiled t1 ->
                p ∈ write_failures t1)
          /\ (exists v, fut = Ok v)
          /\ (forall f st text, fut = Ok (f, st, Some text) ->
                oserror w (_output_file_name w f input_path output) = false ->
                (_output_file_name w f input_path output, text) ∈ written t1))
    as (Hp1 & -> & Hw1 & Hfl1 & Hwf1 & Hsp1 & Hv & Hdone).
  { destruct fut as [[[f st] text]|e']; [|done].
    injection H1 as <- <- <-.
    destruct (collect_event_facts w input_path output f st text)
      as (Hp0 & Hw0 & Hfl0 & Hwf0 & Hsp0 & Hdone0).
    repeat split; eauto.
    - intros p x Hin. destruct (Hw0 _ _ Hin) as [-> ->]. eauto.
    - intros f' st' Hin. destruct (Hfl0 _ _ Hin) as (-> & -> & ->). done.
    - intros p Hin. destruct (Hwf0 _ Hin) as (-> & x & ->). eauto.
    - intros f' st' x [= -> -> ->]. by apply Hdone0. }
  repeat split.
  - by rewrite apply_writes_app.
  - by rewrite posted_app, Hp1, Hp.
  - intros p text. rewrite written_app. intros [Hin|Hin]%elem_of_app.
    + destruct (Hw1 _ _ Hin) as (f & st & Hf & ->).
      exists f, st. split; [by apply elem_of_cons; left|done].
    + destruct (Hw _ _ Hin) as (f & st & ? & ->).
      exists f, st. split; [by apply elem_of_cons; right|done].
  - intros f st. rewrite failed_app. intros [Hin|Hin]%elem_of_app.
    + apply elem_of_cons; left. symmetry. by apply Hfl1.
    + apply elem_of_cons; right. by apply Hfl.
  - intros p. rewrite write_failures_app. intros [Hin|Hin]%elem_of_app.
    + destruct (Hwf1 _ Hin) as (f & st & text & Hf & ->).
      exists f, st, text. split; [by apply elem_of_cons; left|done].
    + destruct (Hwf _ Hin) as (f & st & text & ? & ->).
      exists f, st, text. split; [by apply elem_of_cons; right|done].
  - intros p remains. rewrite spoiled_app, write_failures_app.
    intros [Hin|Hin]%elem_of_app; apply elem_of_app; eauto.
  - constructor; [done|]. by apply Hok.
  - intros f st text [Hf|Hin]%elem_of_cons Hos; rewrite written_app; apply elem_of_app.
    + left. by eapply Hdone.
    + right. by eapply Hok.
Qed.

Lemma Forall2_elem_of_l {A B} (P : A -> B -> Prop) l k x :
  Forall2 P l k -> x ∈ l -> exists y, y ∈ k /\ P x y.
Proof.
  intros H [i Hi]%list_elem_of_lookup.
  destruct (Forall2_lookup_l _ _ _ _ _ H Hi) as (y & Hy & HP).
  exists y. split; [|done]. by eapply list_elem_of_lookup_2.
Qed.

Lemma Forall2_elem_of_r {A B} (P : A -> B -> Prop) l k y :
  Forall2 P l k -> y ∈ k -> exists x, x ∈ l /\ P x y.
Proof.
  intros H [i Hi]%list_elem_of_lookup.
  destruct (Forall2_lookup_r _ _ _ _ _ H Hi) as (x & Hx & HP).
  exists x. split; [|done]. by eapply list_elem_of_lookup_2.
Qed.

(** With any fuel that lets it return, the selected worker returns the
    terminal outcome of the first answer when that is not 503. *)
Lemma selected_process_first_answer fuel w self service file status_code text
    fs fut fs' t :
  selected_process self service fuel w self service file 0 fs
    = Some (fut, fs', t) ->
  requests_post w (worker_url self service) file 0 = Response status_code text ->
  status_code <> 503 ->
  fut = Ok (terminal_outcome file status_code text).
Proof.
  unfold selected_process, worker_url.
  destruct (Str.eqb service (endpoint_pdf self)); intros Hrun H Hs.
  - destruct (process_pdf_terminal fuel w self service file 0 _ _ fs H Hs)
      as (t' & Heq & _). congruence.
  - destruct fuel as [|fuel]; [done|].
    destruct (process_tei_terminal fuel w self service file 0 _ _ fs H Hs)
      as (t' & Heq & _). congruence.
Qed.

(** What a batch does, whatever the order in which its futures come back.
    - The files after it are the files before it with its writes.
    - It sends requests for dispatched tasks only, and, once the pool exists,
      for each of them.
    - It writes only at the paths derived from dispatched tasks.
    - If it ends without an exception, the body of every dispatched task
      whose first answer is 200 has been written, unless the write failed. *)
Lemma process_batch_spec fuel w self service input_files input_path output n
    force verbose fs r fs' t :
  hands_back_all w ->
  process_batch fuel w self service input_files input_path output n
    force verbose fs = Some (r, fs', t) ->
  batch_facts w self service input_path output force input_files fs
    (r = Ok tt) fs' t.
Proof.
  intros Hback. unfold process_batch, batch_facts.
  intros [(e & He & ->)|(a & fs1 & t1 & t2 & H1 & H2 & ->)]%bind_Some.
  { destruct verbose; cbn in He; done. }
  assert (fs1 = fs /\ posted t1 = [] /\ written t1 = [] /\ failed t1 = []
          /\ write_failures t1 = [] /\ spoiled t1 = [])
    as (-> & Hp1 & Hw1 & Hfl1 & Hwf1 & Hsp1).
  { by destruct verbose; cbn in H1; injection H1 as <- <- <-. }
  revert H2.
  intros [(e & He & ->)|(a2 & fs2 & t3 & t4 & H3 & H4 & ->)]%bind_Some.
  { destruct (n <=? 0); cbn in He; [|done]. injection He as <- <- <-.
    rewrite app_nil_r, Hp1, Hw1, Hfl1, Hwf1, Hsp1,
      (apply_writes_none _ _ Hw1 Hsp1).
    repeat split; try done; by intros * ?%elem_of_nil. }
  destruct (Z.leb_spec n 0) as [|Hn]; [done|]. injection H3 as _ <- <-.
  revert H4.
  intros [(e & He & ->)|(results & fs3 & t5 & t6 & H5 & H6 & ->)]%bind_Some.
  { unfold submit_loop in He.
    by destruct (submit_fold _ _ _ _ _ _ _ _ _ _ _ _ _ He)
      as (_ & _ & _ & _ & news & [=] & _). }
  unfold submit_loop in H5.
  destruct (submit_fold _ _ _ _ _ _ _ _ _ _ _ _ _ H5)
    as (-> & (Hw5 & Hfl5 & Hwf5 & Hsp5) & Hposted & Hall & news & [= ->] & HF).
  unfold collect_loop in H6.
  destruct (collect_fold _ _ _ _ _ _ _ _ H6)
    as (-> & Hp6 & Hw6 & Hfl6 & Hwf6 & Hsp6 & Hok).
  assert (forall f st b, Ok (f, st, b) ∈ as_completed w news ->
            f ∈ dispatched w fs input_path output force input_files) as Hdisp.
  { intros f st b Hf. rewrite (Hback news) in Hf.
    destruct (Forall2_elem_of_r _ _ _ _ HF Hf) as (f0 & Hf0 & tf & Hrun).
    destruct (selected_process_inv _ _ _ _ _ _ _ _ _ _ Hrun) as (_ & _ & _ & Hfile).
    by rewrite (Hfile _ _ _ eq_refl). }
  cbn [app].
  rewrite !posted_app, !written_app, !failed_app, !write_failures_app,
    !spoiled_app, Hp1, Hp6, Hw1, Hw5, Hfl1, Hfl5, Hwf1, Hwf5, Hsp1, Hsp5.
  cbn [app]. rewrite app_nil_r.
  repeat split.
  - rewrite !apply_writes_app.
    by rewrite (apply_writes_none t1), (apply_writes_none t5).
  - done.
  - intros p text Hin. destruct (Hw6 _ _ Hin) as (f & st & Hf & ->). eauto.
  - intros f st Hin. eauto.
  - intros p Hin. destruct (Hwf6 _ Hin) as (f & st & text & Hf & ->). eauto.
  - done.
  - by apply Hall.
  - intros text Hreply Hos. destruct (Hok H) as [_ Hdone].
    destruct (Forall2_elem_of_l _ _ _ _ HF H0) as (fut & Hfut & tf & Hrun).
    pose proof (selected_process_first_answer _ _ _ _ _ _ _ _ _ _ _
                  Hrun Hreply ltac:(done)) as ->.
    apply (Hdone f 200); [|done]. by rewrite (Hback news).
Qed.

(** *** Outcomes never end a batch *)





(** ** Enumeration and batching *)

Lemma for_fold_app {A S} (l1 l2 : list A) (body : S -> A -> M S) s fs :
  for_fold (l1 ++ l2) body s fs
  = (s' <- for_fold l1 body s ;; for_fold l2 body s') fs.
Proof.
  revert s fs. induction l1 as [|x l1 IH]; intros s fs; cbn [for_fold app].
  - by rewrite bind_ret_l.
  - rewrite bind_assoc. by apply bind_ext.
Qed.

Lemma for_fold_map {A B S} (f : A -> B) (l : list A) (body : S -> B -> M S) s fs :
  for_fold (map f l) body s fs = for_fold l (fun s x => body s (f x)) s fs.
Proof.
  revert s fs. induction l as [|x l IH]; intros s fs; [done|].
  cbn [for_fold map]. by apply bind_ext.
Qed.

(** The two nested loops of [process] visit the files of the walk in order. *)
Lemma nested_loops_flat {S} (body : string -> S -> string -> M S)
    (walk : list (string * list string * list string)) s fs :
  for_fold walk (fun st '(dirpath, _, filenames) =>
                   for_fold filenames (body dirpath) st) s fs
  = for_fold
      (flat_map (fun '(dirpath, _, filenames) => map (pair dirpath) filenames) walk)
      (fun st p => body (fst p) st (snd p)) s fs.
Proof.
  revert s fs. induction walk as [|[[dirpath dirnames] filenames] walk IH];
    intros s fs; [done|].
  cbn [for_fold flat_map]. rewrite for_fold_app.
  unfold bind. rewrite for_fold_map. cbn [fst snd].
  destruct (for_fold filenames _ s fs) as [[[[s'|e] fs1] t1]|]; try done.
  by rewrite IH.
Qed.

Lemma matching_files_filter service input_path t :
  matching_files service input_path t
  = List.filter (fun p => matches service (snd p)) (walked_files input_path t).
Proof.
  unfold matching_files, walked_files.
  induction (os_walk input_path t) as [|[[dirpath dirnames] filenames] walk IH];
    [done|].
  cbn [flat_map]. rewrite List.filter_app, IH. f_equal.
  clear. induction filenames as [|x l IH]; [done|].
  cbn. destruct (matches service x); cbn; by rewrite IH.
Qed.

Lemma process_with_rest fuel w self service input_path output n force verbose fs :
  process_with fuel w self service input_path output n force verbose fs
  = (print (MsgTotal 0) ;;
     process_rest fuel w self service input_path output n force verbose
       (walked_files input_path (scandir w input_path)) ([], O)) fs.
Proof.
  unfold process_with, process_rest, walked_files. apply bind_ext. intros _ fs'.
  unfold bind. by rewrite nested_loops_flat.
Qed.

(** *** The cut into batches *)

Section Batches.
Context {A : Type} (size : Z).

Lemma batches_from_concat (l acc : list A) :
  concat (batches_from size acc l) = acc ++ l.
Proof.
  revert acc. induction l as [|x l IH]; intros acc; cbn [batches_from].
  - destruct acc; cbn; by rewrite ?app_nil_r.
  - destruct (_ =? size); cbn [concat]; rewrite IH; by rewrite <- ?app_assoc.
Qed.

Lemma batches_from_head (l acc : list A) :
  acc <> [] -> exists rest bs, batches_from size acc l = (acc ++ rest) :: bs.
Proof.
  revert acc. induction l as [|x l IH]; intros acc Hacc; cbn [batches_from].
  - destruct acc; [done|]. exists [], []. by rewrite app_nil_r.
  - destruct (_ =? size).
    + by exists [x], (batches_from size [] l).
    + destruct (IH (acc ++ [x])) as (rest & bs & ->); [by destruct acc|].
      exists (x :: rest), bs. by rewrite <- app_assoc.
Qed.

(** With a positive size and an open batch below it: no batch is empty,
    none is above the size, and all but the last have exactly the size. *)
Lemma batches_from_sizes (l acc : list A) :
  0 < size -> Z.of_nat (length acc) < size ->
  Forall (fun b => 0 < Z.of_nat (length b) <= size) (batches_from size acc l)
  /\ forall i b, (S i < length (batches_from size acc l))%nat ->
                 batches_from size acc l !! i = Some b ->
                 Z.of_nat (length b) = size.
Proof.
  intros Hsize. revert acc.
  induction l as [|x l IH]; intros acc Hacc; cbn [batches_from].
  - destruct (Nat.ltb_spec 0 (length acc)); split;
      try (by repeat constructor; lia); cbn; intros; lia.
  - destruct (Z.eqb_spec (Z.of_nat (length (acc ++ [x]))) size) as [Heq|Hne].
    + destruct (IH []) as [IH1 IH2]; [cbn; lia|]. split.
      * constructor; [lia|done].
      * intros [|i] b Hi; cbn.
        -- by intros [= <-].
        -- cbn in Hi. apply IH2. lia.
    + apply IH. rewrite length_app in *. cbn in *. lia.
Qed.
End Batches.

(** *** The loop of [process] dispatches the batches of the cut *)

Lemma announce_nil verbose {A} (k : M A) fs :
  (announce verbose [] ;; k) fs = k fs.
Proof.
  unfold announce, when, bind. destruct verbose; cbn;
    by destruct (k fs) as [[[r fs1] t1]|].
Qed.

Lemma announce_cons verbose p b {A} (k : M A) fs :
  (announce verbose (p :: b) ;; k) fs
  = (when verbose (print (MsgFile (snd p))) ;; announce verbose b ;; k) fs.
Proof.
  unfold announce, when. destruct verbose; cbn [for_each].
  - rewrite bind_assoc. done.
  - by rewrite !bind_ret_l.
Qed.

Lemma run_rest_nil fuel w self service input_path output n force verbose ms nb fs :
  run_rest fuel w self service input_path output n force verbose [] ms nb fs
  = run_batches fuel w self service input_path output n force verbose
      (batches (batch_size (client_config self)) ms) nb fs.
Proof.
  unfold run_rest, batches.
  by destruct (batches_from _ [] ms) as [|b bs].
Qed.

Lemma process_rest_cons fuel w self service input_path output n force verbose
    p l st fs :
  process_rest fuel w self service input_path output n force verbose (p :: l) st fs
  = (st' <- process_file fuel w self service input_path output n force verbose
              (fst p) st (snd p) ;;
     process_rest fuel w self service input_path output n force verbose l st') fs.
Proof. unfold process_rest. cbn [for_fold]. by rewrite bind_assoc. Qed.

Lemma process_rest_run_rest fuel w self service input_path output n force
    verbose l :
  forall acc nb fs,
    acc = [] \/ Z.of_nat (length acc) <> batch_size (client_config self) ->
    process_rest fuel w self service input_path output n force verbose l
      (map input_file_of acc, nb) fs
    = run_rest fuel w self service input_path output n force verbose acc
        (List.filter (fun p => matches service (snd p)) l) nb fs.
Proof.
  induction l as [|p l IH]; intros acc nb fs Hacc.
  - unfold process_rest, run_rest. cbn [for_fold List.filter batches_from].
    rewrite bind_ret_l. unfold last_batch. cbn [fst].
    rewrite length_map. destruct acc as [|x acc]; [done|].
    destruct Hacc as [|Hacc]; [done|].
    change (Nat.ltb 0 (length (x :: acc))) with true. cbv iota.
    rewrite drop_all, announce_nil.
    unfold run_batch. rewrite bind_assoc.
    destruct (Z.eqb_spec (Z.of_nat (length (x :: acc)))
                (batch_size (client_config self))); [done|].
    cbn [run_batches]. unfold bind, ret.
    destruct (process_batch _ _ _ _ _ _ _ _ _ _ fs) as [[[[[]|e] fs1] t1]|];
      cbn; by rewrite ?app_nil_r.
  - rewrite process_rest_cons. unfold process_file. cbn [List.filter].
    destruct (matches service (snd p)) eqn:Hm.
    2: { rewrite bind_ret_l. by apply IH. }
    rewrite bind_assoc. unfold run_rest, run_batch. cbn [batches_from].
    replace (map input_file_of acc ++ [fst p +:+ "/" +:+ snd p])
      with (map input_file_of (acc ++ [p])) by (by rewrite map_app).
    rewrite length_map.
    destruct (Z.eqb_spec (Z.of_nat (length (acc ++ [p])))
                (batch_size (client_config self))) as [Hfull|Hopen].
    + rewrite drop_app_length, announce_cons. apply bind_ext. intros _ fs1.
      rewrite announce_nil, !bind_assoc.
      rewrite (proj2 (Z.eqb_eq _ _) Hfull).
      apply bind_ext. intros _ fs2. rewrite !bind_assoc.
      apply bind_ext. intros _ fs3. rewrite !bind_ret_l.
      rewrite (IH [] _ _ (or_introl eq_refl)). apply run_rest_nil.
    + destruct (batches_from_head (batch_size (client_config self))
                  (List.filter (fun p => matches service (snd p)) l)
                  (acc ++ [p])) as (rest & bs & Hbs); [by destruct acc|].
      rewrite Hbs. rewrite <- (app_assoc acc [p] rest) at 1.
      rewrite drop_app_length. cbn [app]. rewrite announce_cons.
      apply bind_ext. intros _ fs1. rewrite bind_ret_l.
      rewrite (IH (acc ++ [p]) _ _ (or_intror Hopen)).
      unfold run_rest, run_batch. rewrite Hbs.
      by rewrite drop_app_length.
Qed.

(** ** A run as a sequence of batches *)

Lemma dispatched_elem w fs input_path output force l f :
  f ∈ dispatched w fs input_path output force l
  <-> f ∈ l /\ (force = true
                \/ fs !! _output_file_name w f input_path output = None).
Proof.
  unfold dispatched. rewrite !list_elem_of_In, filter_In.
  destruct force; cbn; [by intuition auto|].
  destruct (fs !! _output_file_name w f input_path output) as [x|] eqn:Hx.
  - rewrite bool_decide_eq_true_2 by eauto. cbn. by intuition auto.
  - rewrite bool_decide_eq_false_2 by (by intros [? ?]). cbn. by intuition auto.
Qed.

Lemma apply_writes_None t fs p :
  apply_writes t fs !! p = None -> fs !! p = None.
Proof.
  intros H. destruct (fs !! p) eqn:Hp; [|done].
  destruct (apply_writes_dom t fs p) as [x Hx]; [eauto|]. congruence.
Qed.

Lemma batch_facts_silent_l w self service input_path output force l fs c fs' t0 t :
  silent t0 ->
  batch_facts w self service input_path output force l fs c fs' t ->
  batch_facts w self service input_path output force l fs c fs' (t0 ++ t).
Proof.
  intros (Hp & Hw & Hf & Hwf & Hsp). unfold batch_facts.
  rewrite posted_app, written_app, failed_app, write_failures_app, spoiled_app,
    apply_writes_app, (apply_writes_none t0), Hp, Hw, Hf, Hwf, Hsp by done.
  done.
Qed.

Lemma batch_facts_silent_r w self service input_path output force l fs c fs' t0 t :
  silent t0 ->
  batch_facts w self service input_path output force l fs c fs' t ->
  batch_facts w self service input_path output force l fs c fs' (t ++ t0).
Proof.
  intros (Hp & Hw & Hf & Hwf & Hsp). unfold batch_facts.
  rewrite posted_app, written_app, failed_app, write_failures_app, spoiled_app,
    apply_writes_app, Hp, Hw, Hf, Hwf, Hsp, !app_nil_r.
  intros (-> & H). by rewrite (apply_writes_none t0).
Qed.

Lemma batch_facts_weaken w self service input_path output force l fs
    (c c' : Prop) fs' t :
  (c' -> c) ->
  batch_facts w self service input_path output force l fs c fs' t ->
  batch_facts w self service input_path output force l fs c' fs' t.
Proof.
  intros Hc (? & ? & ? & ? & ? & ? & H). unfold batch_facts.
  repeat split; try done; intros; by apply H; auto.
Qed.

Lemma batch_facts_nil w self service input_path output force fs c :
  batch_facts w self service input_path output force [] fs c fs [].
Proof.
  unfold batch_facts, dispatched. cbn.
  repeat split; try (by intros * ?%elem_of_nil);
    by match goal with H : _ ∈ [] |- _ => apply elem_of_nil in H end.
Qed.

(** One batch after another counts as one batch over all their files, as far
    as these facts go; a forced run that completes has dispatched them all. *)
Lemma batch_facts_seq w self service input_path output force l1 l2 fs
    (c1 c2 c : Prop) fs1 fs2 t1 t2 :
  (c -> c1 /\ c2 /\ force = true) ->
  batch_facts w self service input_path output force l1 fs c1 fs1 t1 ->
  batch_facts w self service input_path output force l2 fs1 c2 fs2 t2 ->
  batch_facts w self service input_path output force (l1 ++ l2) fs c fs2
    (t1 ++ t2).
Proof.
  intros Hc (-> & Hp1 & Hw1 & Hf1 & Hwf1 & Hsp1 & Hc1)
    (-> & Hp2 & Hw2 & Hf2 & Hwf2 & Hsp2 & Hc2).
  assert (forall f, f ∈ dispatched w fs input_path output force l1 ->
            f ∈ dispatched w fs input_path output force (l1 ++ l2)) as Hl.
  { intros f. rewrite !dispatched_elem, elem_of_app. intros [? ?]. auto. }
  assert (forall f, f ∈ dispatched w (apply_writes t1 fs) input_path output force l2 ->
            f ∈ dispatched w fs input_path output force (l1 ++ l2)) as Hr.
  { intros f. rewrite !dispatched_elem, elem_of_app.
    intros [? [?|?%apply_writes_None]]; auto. }
  unfold batch_facts.
  rewrite posted_app, written_app, failed_app, write_failures_app, spoiled_app,
    apply_writes_app.
  repeat split.
  - intros url f [?|?]%elem_of_app; eauto.
  - intros p text [(f & ? & ->)%Hw1|(f & ? & ->)%Hw2]%elem_of_app; eauto.
  - intros f st [?|?]%elem_of_app; eauto.
  - intros p [(f & ? & ->)%Hwf1|(f & ? & ->)%Hwf2]%elem_of_app; eauto.
  - intros p remains [?|?]%elem_of_app; apply elem_of_app; eauto.
  - destruct (Hc H) as (H1 & H2 & ->).
    apply dispatched_elem in H0 as [[Hin|Hin]%elem_of_app _]; apply elem_of_app.
    + left. apply Hc1; [done|]. apply dispatched_elem. auto.
    + right. apply Hc2; [done|]. apply dispatched_elem. auto.
  - destruct (Hc H) as (H1' & H2' & ->). intros text Hreply Hos.
    apply dispatched_elem in H0 as [[Hin|Hin]%elem_of_app _]; apply elem_of_app.
    + left. eapply Hc1; eauto. apply dispatched_elem. auto.
    + right. eapply Hc2; eauto. apply dispatched_elem. auto.
Qed.

(** A batch that did not complete, as the start of a longer sequence. *)
Lemma batch_facts_cut w self service input_path output force l1 l2 fs
    (c1 c : Prop) fs' t :
  ~ c ->
  batch_facts w self service input_path output force l1 fs c1 fs' t ->
  batch_facts w self service input_path output force (l1 ++ l2) fs c fs' t.
Proof.
  intros Hc (-> & Hp1 & Hw1 & Hf1 & Hwf1 & Hsp1 & _).
  assert (forall f, f ∈ dispatched w fs input_path output force l1 ->
            f ∈ dispatched w fs input_path output force (l1 ++ l2)) as Hl.
  { intros f. rewrite !dispatched_elem, elem_of_app. intros [? ?]. auto. }
  unfold batch_facts. repeat split; try done; eauto.
  - intros p text (f & ? & ->)%Hw1. eauto.
  - intros p (f & ? & ->)%Hwf1. eauto.
Qed.

Lemma announce_inv verbose b fs r fs' t :
  announce verbose b fs = Some (r, fs', t) -> r = Ok tt /\ fs' = fs /\ silent t.
Proof.
  unfold announce, when. destruct verbose; [|by intros [= <- <- <-]].
  revert r fs' t. induction b as [|p b IH]; intros r fs' t; [by intros [= <- <- <-]|].
  cbn [for_each]. unfold bind at 1, print, emit.
  destruct (for_each b _ fs) as [[[r1 fs1] t1]|] eqn:Hb; [|done].
  intros [= <- <- <-]. destruct (IH _ _ _ eq_refl) as (-> & -> & Hs).
  unfold silent in *. cbn. done.
Qed.

Lemma run_batch_spec fuel w self service input_path output n force verbose b
    nb fs r fs' t :
  hands_back_all w ->
  run_batch fuel w self service input_path output n force verbose b nb fs
    = Some (r, fs', t) ->
  batch_facts w self service input_path output force (map input_file_of b) fs
    (exists nb', r = Ok nb') fs' t.
Proof.
  intros Hback. unfold run_batch.
  intros [(e & He & ->)|([] & fs1 & t1 & t2 & H1 & H2 & ->)]%bind_Some.
  { eapply batch_facts_weaken; [|by eapply process_batch_spec].
    by intros [? [=]]. }
  apply (process_batch_spec _ _ _ _ _ _ _ _ _ _ _ _ _ _ Hback) in H1.
  assert (fs' = fs1 /\ silent t2) as [-> Hs].
  { unfold progress_line in H2.
    destruct (_ =? _); [destruct (_ =? 0)|]; cbn in H2;
      by injection H2 as <- <- <-. }
  apply batch_facts_silent_r; [done|].
  eapply batch_facts_weaken; [|exact H1]. done.
Qed.

Lemma run_batches_spec fuel w self service input_path output n force verbose :
  hands_back_all w ->
  forall bs nb fs r fs' t,
    run_batches fuel w self service input_path output n force verbose bs nb fs
      = Some (r, fs', t) ->
    batch_facts w self service input_path output force
      (map input_file_of (concat bs)) fs (r = Ok tt /\ force = true) fs' t.
Proof.
  intros Hback. induction bs as [|b bs IH]; intros nb fs r fs' t.
  { intros [= <- <- <-]. apply batch_facts_nil. }
  cbn [run_batches concat]. rewrite map_app.
  intros [(e & He & ->)|([] & fs1 & t1 & t2 & H1 & H2 & ->)]%bind_Some.
  { by apply announce_inv in He as ([=] & _). }
  apply announce_inv in H1 as (_ & -> & Hs).
  apply batch_facts_silent_l; [done|]. revert H2.
  intros [(e & He & ->)|(nb' & fs2 & t3 & t4 & H3 & H4 & ->)]%bind_Some.
  { eapply batch_facts_cut; [|by eapply run_batch_spec]. by intros [[=] _]. }
  eapply batch_facts_seq; [|by eapply run_batch_spec|by eapply IH].
  intros [-> ->]. eauto.
Qed.

(** [process] dispatches, one after the other, the batches that the cut by
    the configured size makes of the matching files of the walk. *)
Lemma process_with_batches fuel w self service input_path output n force
    verbose fs :
  process_with fuel w self service input_path output n force verbose fs
  = (print (MsgTotal 0) ;;
     run_batches fuel w self service input_path output n force verbose
       (batches (batch_size (client_config self))
          (matching_files service input_path (scandir w input_path))) O) fs.
Proof.
  rewrite process_with_rest. apply bind_ext. intros _ fs'.
  rewrite (process_rest_run_rest _ _ _ _ _ _ _ _ _ _ [] _ _ (or_introl eq_refl)).
  by rewrite run_rest_nil, matching_files_filter.
Qed.

(** A whole run, seen as one batch over all the matching files. *)
Lemma process_with_spec fuel w self service input_path output n force verbose
    fs r fs' t :
  hands_back_all w ->
  process_with fuel w self service input_path output n force verbose fs
    = Some (r, fs', t) ->
  batch_facts w self service input_path output force
    (map input_file_of (matching_files service input_path (scandir w input_path)))
    fs (r = Ok tt /\ force = true) fs' t.
Proof.
  intros Hback. rewrite process_with_batches.
  unfold bind at 1, print, emit.
  destruct (run_batches _ _ _ _ _ _ _ _ _ _ _ fs) as [[[r1 fs1] t1]|] eqn:Hrun;
    [|done].
  intros [= <- <- <-].
  apply (batch_facts_silent_l _ _ _ _ _ _ _ _ _ _ [_]); [done|].
  apply (run_batches_spec _ _ _ _ _ _ _ _ _ Hback) in Hrun.
  unfold batches in Hrun. by rewrite batches_from_concat in Hrun.
Qed.

(** *** A run whose requests are all answered completes *)



Lemma progress_line_inv w nb fs r fs' t :
  progress_line w nb fs = Some (r, fs', t) ->
  fs' = fs
  /\ (r = Ok tt /\ t = [EvPrint (MsgTotal nb)] /\ runtime w nb <> 0
      \/ r = Exc ZeroDivisionError /\ t = [] /\ runtime w nb = 0).
Proof.
  unfold progress_line. destruct (Z.eqb_spec (runtime w nb) 0);
    intros [= <- <- <-]; auto.
Qed.



(** *** The walk reaches every file of the tree *)

Lemma tree_ind_strong (P : tree -> Prop) :
  (forall name filenames subdirs,
      Forall P subdirs -> P (Dir name filenames subdirs)) ->
  forall t, P t.
Proof.
  intros H. fix IH 1. intros [name filenames subdirs]. apply H.
  induction subdirs as [|d subdirs IHs]; constructor; [apply IH|exact IHs].
Qed.

Lemma walked_files_Dir top name filenames subdirs :
  walked_files top (Dir name filenames subdirs)
  = map (pair top) filenames
    ++ flat_map (fun d => walked_files (posixpath.join top (dir_name d)) d) subdirs.
Proof.
  unfold walked_files. cbn [os_walk flat_map]. f_equal.
  induction subdirs as [|d subdirs IH]; [done|].
  cbn [flat_map]. by rewrite flat_map_app, IH.
Qed.

Lemma walked_files_located top t dirpath filename :
  (dirpath, filename) ∈ walked_files top t <-> located top t dirpath filename.
Proof.
  split.
  - revert top. induction t as [name filenames subdirs IH] using tree_ind_strong.
    intros top. rewrite walked_files_Dir.
    intros [Hin|Hin]%elem_of_app.
    + apply list_elem_of_fmap in Hin as (f & [= -> ->] & Hf). by constructor.
    + apply list_elem_of_In, in_flat_map in Hin as (d & Hd & Hin).
      apply list_elem_of_In in Hd, Hin.
      eapply located_below; [done|].
      rewrite Forall_forall in IH. by apply IH.
  - induction 1 as [top name filenames subdirs filename Hf
                   |top name filenames subdirs d dirpath filename Hd _ IH];
      rewrite walked_files_Dir; apply elem_of_app.
    + left. by apply (list_elem_of_fmap_2 (pair top)).
    + right. apply list_elem_of_In, in_flat_map. exists d.
      by rewrite <- !list_elem_of_In.
Qed.

Lemma matching_files_located service top t dirpath filename :
  (dirpath, filename) ∈ matching_files service top t
  <-> located top t dirpath filename /\ matches service filename = true.
Proof.
  rewrite matching_files_filter, list_elem_of_In, filter_In, <- list_elem_of_In.
  by rewrite walked_files_located.
Qed.

Lemma concat_NoDup_one {A} (ls : list (list A)) i j b1 b2 x :
  NoDup (concat ls) ->
  ls !! i = Some b1 -> ls !! j = Some b2 -> x ∈ b1 -> x ∈ b2 -> i = j.
Proof.
  revert i j. induction ls as [|b ls IH]; intros i j Hnd Hi Hj H1 H2; [done|].
  cbn [concat] in Hnd. apply NoDup_app in Hnd as (_ & Hdisj & Hnd).
  assert (forall k bk, ls !! k = Some bk -> x ∈ bk -> x ∈ concat ls) as Hin.
  { intros k bk Hk Hx. apply list_elem_of_In, in_concat. exists bk.
    rewrite <- !list_elem_of_In. split; [|done]. by eapply list_elem_of_lookup_2. }
  destruct i as [|i], j as [|j]; cbn in Hi, Hj; [done| | |].
  - injection Hi as <-. destruct (Hdisj x H1). by eapply Hin.
  - injection Hj as <-. destruct (Hdisj x H2). by eapply Hin.
  - f_equal. by eapply IH.
Qed.

(** *** The test on the file name *)

Lemma endswith_refl p : Str.endswith p p = true.
Proof. destruct p; cbn [Str.endswith]; by rewrite String.eqb_refl. Qed.

Lemma endswith_spec s p :
  Str.endswith s p = true <-> exists stem, s = stem +:+ p.
Proof.
  split.
  - induction s as [|a s IH]; cbn [Str.endswith].
    + destruct (String.eqb_spec "" p) as [<-|]; [|done]. by exists "".
    + destruct (String.eqb_spec (String a s) p) as [<-|_]; [by exists ""|].
      intros [stem ->]%IH. by exists (String a stem).
  - intros [stem ->]. induction stem as [|a stem IH]; [apply endswith_refl|].
    change (String a stem +:+ p) with (String a (stem +:+ p)).
    cbn [Str.endswith].
    destruct (String.eqb (String a (stem +:+ p)) p); [done|exact IH].
Qed.

(** A name passes the test of the PDF service when it ends in [.pdf.gz] or
    [.pdf], the test of the TEI service when it ends in [.tei.xml]; no name
    passes the test of any other service. *)
Lemma matches_spec service filename :
  matches service filename = true
  <-> (service = "processDataseerPDF"
       /\ exists stem, filename = stem +:+ ".pdf.gz" \/ filename = stem +:+ ".pdf")
      \/ (service = "processDataseerTEI"
          /\ exists stem, filename = stem +:+ ".tei.xml").
Proof.
  unfold matches.
  rewrite orb_true_iff, !andb_true_iff, orb_true_iff, !String.eqb_eq,
    !endswith_spec.
  split.
  - intros [[-> [[stem ->]|[stem ->]]]|[-> [stem ->]]]; eauto 6.
  - intros [[-> [stem [->| ->]]]|[-> [stem ->]]]; eauto 6.
Qed.

(** The files [process] handles are the files of the tree, at any depth,
    whose name passes the test of the service (for the PDF service a name
    ending in .pdf.gz or .pdf, for the TEI service one ending in .tei.xml),
    in the order of the walk. With a positive batch size, [process] is the
    dispatch, one after the other and as long as no exception ends it, of
    batches that, put end to end, are exactly that sequence (so every
    occurrence of a file is in one batch and nothing else is; when the paths
    are distinct, no file is in two batches); no batch is empty or above the
    batch size, and every batch but the last has exactly the batch size. *)
Lemma dispatch_follows_the_cut fuel w self service input_path output n
    force verbose :
  0 < batch_size (client_config self) ->
  let found := matching_files service input_path (scandir w input_path) in
  let bs := batches (batch_size (client_config self)) found in
  (forall dirpath filename,
      (dirpath, filename) ∈ found
      <-> located input_path (scandir w input_path) dirpath filename
          /\ (service = "processDataseerPDF"
              /\ (exists stem, filename = stem +:+ ".pdf.gz"
                               \/ filename = stem +:+ ".pdf")
              \/ service = "processDataseerTEI"
                 /\ exists stem, filename = stem +:+ ".tei.xml"))
  /\ (forall fs,
        process fuel w self service input_path output n force verbose fs
        = (print (MsgTotal 0) ;;
           run_batches fuel w self service input_path output
             (default 10 n) (default true force) (default false verbose)
             bs O) fs)
  /\ concat bs = found
  /\ (NoDup found ->
      forall i j b1 b2 x,
        bs !! i = Some b1 -> bs !! j = Some b2 -> x ∈ b1 -> x ∈ b2 -> i = j)
  /\ Forall (fun b => 0 < Z.of_nat (length b) <= batch_size (client_config self)) bs
  /\ (forall i b, (S i < length bs)%nat -> bs !! i = Some b ->
        Z.of_nat (length b) = batch_size (client_config self)).
Proof.
  intros Hsize found bs.
  assert (concat bs = found) as Hconcat by apply batches_from_concat.
  destruct (batches_from_sizes (batch_size (client_config self)) found [])
    as [Hall Hfull]; [done|cbn; lia|].
  split; [intros; by rewrite <- matches_spec, <- matching_files_located|].
  split; [intros fs; unfold process; apply process_with_batches|].
  split; [done|].
  split; [|by split].
  intros Hnd i j b1 b2 x. apply concat_NoDup_one. by rewrite Hconcat.
Qed.

(** C8 (the code departs from it). A second run over the directory of
    [Sample.annotating], without the force flag, when the outputs of
    [a.pdf] and [b.pdf] exist from an earlier run. Three files match, and
    the batch size of two cuts them into the batches [a.pdf; b.pdf] and
    [sub/c.pdf.gz]. Both files of the first batch are skipped, so that the
    batch is over before the clock has moved by half a thousandth of a
    second: the progress line divides the total by an elapsed time of zero,
    and [process] ends there with [ZeroDivisionError]. The third matching
    file never comes into a batch: nothing is requested for it. *)
Theorem zero_elapsed_time_ends_the_run :
  matching_files "processDataseerPDF" "/in" (scandir Sample.instant "/in")
  = [("/in", "a.pdf"); ("/in", "b.pdf"); ("/in/sub", "c.pdf.gz")]
  /\ batches 2 (matching_files "processDataseerPDF" "/in"
                  (scandir Sample.instant "/in"))
     = [[("/in", "a.pdf"); ("/in", "b.pdf")]; [("/in/sub", "c.pdf.gz")]]
  /\ process 1 Sample.instant Sample.client "processDataseerPDF" "/in" None
       None (Some false) None Sample.resumed
     = Some (Exc ZeroDivisionError, Sample.resumed,
             [EvPrint (MsgTotal 0);
              EvPrint (MsgSkipping "/in/a.dataseer.tei.xml");
              EvPrint (MsgSkipping "/in/b.dataseer.tei.xml")]).
Proof. repeat split; vm_compute; reflexivity. Qed.

(** ** The skip rule and the force flag *)

Lemma hands_back_in_order (w : world) :
  (forall l, as_completed w l = l) -> hands_back_all w.
Proof. intros H l. by rewrite H. Qed.

(** C7. In a batch run without the force flag, a task whose derived output
    path is already a file is skipped before it is dispatched: the trace of
    the batch holds no request for its file and no sign of an outcome for it
    (no failure reported for the file, nothing written or failed to be
    written at its output path), and the file at that path is untouched.
    Consequently, a file that a first run of [process] wrote is not written
    again by a second run without the force flag over the same inputs, and
    is after the second run as it was before it. *)
Theorem skip_existing_outputs fuel w self service input_path output :
  hands_back_all w ->
  let out f := _output_file_name w f input_path output in
  (forall n verbose input_files fs r fs' t f,
      process_batch fuel w self service input_files input_path output n
        false verbose fs = Some (r, fs', t) ->
      f ∈ input_files -> is_Some (fs !! out f) ->
      (forall url, (url, f) ∉ posted t)
      /\ (forall st, (f, st) ∉ failed t)
      /\ (forall text, (out f, text) ∉ written t)
      /\ (out f ∉ write_failures t)
      /\ fs' !! out f = fs !! out f)
  /\ (forall n1 force1 verbose1 n2 verbose2 fs0 r1 fs1 t1 r2 fs2 t2,
        process fuel w self service input_path output n1 force1 verbose1 fs0
          = Some (r1, fs1, t1) ->
        process fuel w self service input_path output n2 (Some false) verbose2 fs1
          = Some (r2, fs2, t2) ->
        forall p text,
          (p, text) ∈ written t1 ->
          (forall text', (p, text') ∉ written t2) /\ fs2 !! p = fs1 !! p).
Proof.
  intros Hback out.
  assert (forall l fs c fs' t p,
            batch_facts w self service input_path output false l fs c fs' t ->
            is_Some (fs !! p) ->
            (forall url f, out f = p -> (url, f) ∉ posted t)
            /\ (forall f st, out f = p -> (f, st) ∉ failed t)
            /\ (forall text, (p, text) ∉ written t)
            /\ (p ∉ write_failures t)
            /\ fs' !! p = fs !! p) as Hskip.
  { intros l fs c fs' t p (-> & Hp & Hw & Hf & Hwf & Hsp & _) [x Hx].
    assert (forall f, f ∈ dispatched w fs input_path output false l ->
              out f <> p) as Hne.
    { intros f [_ [?|Hnone]]%dispatched_elem <-; [done|].
      unfold out in Hx. congruence. }
    assert (forall text, (p, text) ∉ written t) as Hnw.
    { intros text (f & Hd & ->)%Hw. by eapply Hne. }
    assert (p ∉ write_failures t) as Hnf.
    { intros (f & Hd & ->)%Hwf. by eapply Hne. }
    repeat split.
    - intros url f Hout Hin%Hp. by eapply Hne.
    - intros f st Hout Hin%Hf. by eapply Hne.
    - done.
    - done.
    - apply apply_writes_other; [done|]. by intros remains ?%Hsp. }
  split.
  - intros n verbose input_files fs r fs' t f Hrun Hf Hsome.
    apply (process_batch_spec _ _ _ _ _ _ _ _ _ _ _ _ _ _ Hback) in Hrun.
    destruct (Hskip _ _ _ _ _ _ Hrun Hsome) as (H1 & H2 & H3 & H4 & H5).
    repeat split; eauto.
  - intros n1 force1 verbose1 n2 verbose2 fs0 r1 fs1 t1 r2 fs2 t2 Hrun1 Hrun2
      p text Hin.
    unfold process in Hrun1, Hrun2.
    apply (process_with_spec _ _ _ _ _ _ _ _ _ _ _ _ _ Hback) in Hrun1 as [-> _].
    apply (process_with_spec _ _ _ _ _ _ _ _ _ _ _ _ _ Hback) in Hrun2.
    destruct (Hskip _ _ _ _ _ p Hrun2
                (apply_writes_written_dom t1 fs0 p text Hin))
      as (_ & _ & H3 & _ & H5).
    by split.
Qed.

Lemma skip_existing_outputs_witness :
  (forall url, (url, "/in/a.pdf") ∉
     posted [EvPrint (MsgSkipping "/in/a.dataseer.tei.xml");
             EvPost Sample.pdf_url "/in/b.pdf" false 60;
             EvWrite "/in/b.dataseer.tei.xml" "<TEI/>"])
  /\ (<["/in/b.dataseer.tei.xml" := "<TEI/>"]>
       ({["/in/a.dataseer.tei.xml" := "old"]} : files))
     !! "/in/a.dataseer.tei.xml"
     = ({["/in/a.dataseer.tei.xml" := "old"]} : files) !! "/in/a.dataseer.tei.xml".
Proof.
  pose proof (proj1 (skip_existing_outputs 1 Sample.annotating Sample.client
                "processDataseerPDF" "/in" None
                (hands_back_in_order Sample.annotating (fun l => eq_refl)))
              10 false ["/in/a.pdf"; "/in/b.pdf"]
              {["/in/a.dataseer.tei.xml" := "old"]}
              (Ok tt)
              (<["/in/b.dataseer.tei.xml" := "<TEI/>"]>
                 {["/in/a.dataseer.tei.xml" := "old"]})
              [EvPrint (MsgSkipping "/in/a.dataseer.tei.xml");
               EvPost Sample.pdf_url "/in/b.pdf" false 60;
               EvWrite "/in/b.dataseer.tei.xml" "<TEI/>"]
              "/in/a.pdf") as H.
  destruct H as (H1 & _ & _ & _ & H5).
  - vm_compute. reflexivity.
  - apply elem_of_cons. by left.
  - exists "old". vm_compute. reflexivity.
  - split; [exact H1|exact H5].
Defined.

(** ** Paths *)

(** *** Splitting and joining strings *)

Lemma append_String c a b : String c a +:+ b = String c (a +:+ b).
Proof. reflexivity. Qed.

Lemma append_nil_l a : "" +:+ a = a.
Proof. reflexivity. Qed.

Lemma append_assoc a b c : (a +:+ b) +:+ c = a +:+ b +:+ c.
Proof. induction a as [|x a IH]; [done|]. by rewrite !append_String, IH. Qed.

Lemma eqb_eq s t : Str.eqb s t = true <-> s = t.
Proof. apply String.eqb_eq. Qed.

Lemma eqb_neq s t : Str.eqb s t = false <-> s <> t.
Proof. apply String.eqb_neq. Qed.

Lemma split_nonempty c s : Str.split c s <> [].
Proof.
  destruct s as [|a s]; [done|]. cbn.
  destruct (Ascii.eqb a c); [done|]. by destruct (Str.split c s).
Qed.

Lemma split_String_sep c s : Str.split c (String c s) = "" :: Str.split c s.
Proof. cbn. by rewrite Ascii.eqb_refl. Qed.

(** Splitting at a separator that is written out. *)
Lemma split_app_sep c a b :
  Str.split c (a +:+ String c b) = Str.split c a ++ Str.split c b.
Proof.
  induction a as [|x a IH].
  - rewrite append_nil_l, split_String_sep. done.
  - rewrite append_String. cbn [Str.split]. rewrite IH.
    destruct (Ascii.eqb x c); [done|].
    pose proof (split_nonempty c a). by destruct (Str.split c a).
Qed.

Lemma split_no_sep c s : Str.contains c s = false -> Str.split c s = [s].
Proof.
  induction s as [|a s IH]; [done|]. cbn.
  destruct (Ascii.eqb a c); [done|]. cbn. intros H. by rewrite IH.
Qed.

Lemma split_parts_no_sep c s : Forall (fun x => Str.contains c x = false) (Str.split c s).
Proof.
  induction s as [|a s IH]; [by repeat constructor|]. cbn.
  destruct (Ascii.eqb a c) eqn:Ha; [by constructor|].
  pose proof (split_nonempty c s).
  destruct (Str.split c s) as [|x xs]; [done|].
  apply Forall_cons in IH as [Hx Hxs]. constructor; [|done]. cbn. by rewrite Ha.
Qed.

(** Joining parts without the separator and splitting again gives the parts. *)
Lemma split_join c l :
  l <> [] -> Forall (fun x => Str.contains c x = false) l ->
  Str.split c (Str.join (String c "") l) = l.
Proof.
  induction l as [|x l IH]; [done|]. intros _ [Hx Hl]%Forall_cons.
  destruct l as [|y l].
  - cbn [Str.join String.concat]. by apply split_no_sep.
  - change (Str.join (String c "") (x :: y :: l))
      with (x +:+ String c (Str.join (String c "") (y :: l))).
    rewrite split_app_sep, IH, split_no_sep; done.
Qed.

Lemma startswith_app a b c :
  a <> "" -> Str.startswith (a +:+ b) (String c "") = Str.startswith a (String c "").
Proof.
  destruct a as [|x a]; [done|]. intros _. rewrite append_String.
  unfold Str.startswith. cbn. destruct (ascii_dec c x); [|done].
  generalize (a +:+ b). intros s. by destruct a, s.
Qed.

Lemma endswith_char s c :
  Str.endswith s (String c "") = true -> exists s', s = s' +:+ String c "".
Proof.
  induction s as [|a s IH]; [done|]. cbn [Str.endswith].
  destruct (String.eqb_spec (String a s) (String c "")) as [[= -> ->]|_].
  - intros _. by exists "".
  - intros [s' ->]%IH. by exists (String a s').
Qed.

Lemma last_app_nonempty {A} (l1 l2 : list A) d :
  l2 <> [] -> List.last (l1 ++ l2) d = List.last l2 d.
Proof.
  intros H. induction l1 as [|x l1 IH]; [done|].
  cbn [app]. destruct (l1 ++ l2) eqn:E.
  - by destruct l1, l2.
  - rewrite <- IH. done.
Qed.

(** *** Normalisation *)

Lemma Str_eqb_spec s t : reflect (s = t) (Str.eqb s t).
Proof. apply String.eqb_spec. Qed.

Lemma plain_spec name :
  plain name = true
  <-> name <> "" /\ name <> "." /\ name <> ".." /\ Str.contains "/" name = false.
Proof.
  unfold plain. rewrite !andb_true_iff, !negb_true_iff, !eqb_neq. tauto.
Qed.

Lemma startswith_char a s c :
  Str.startswith (String a s) (String c "") = Ascii.eqb a c.
Proof.
  unfold Str.startswith. cbn [String.prefix].
  destruct (ascii_dec c a) as [->|Hne].
  - rewrite Ascii.eqb_refl. by destruct s.
  - symmetry. apply Ascii.eqb_neq. congruence.
Qed.

Lemma plain_not_abs name : plain name = true -> Str.startswith name "/" = false.
Proof.
  intros (_ & _ & _ & H)%plain_spec. destruct name as [|a s]; [done|].
  rewrite startswith_char. cbn in H. by apply orb_false_iff in H as [? _].
Qed.

Lemma norm_step_plain i acc c :
  plain c = true -> posixpath.norm_step i acc c = acc ++ [c].
Proof.
  intros (H1 & H2 & H3 & _)%plain_spec. unfold posixpath.norm_step.
  by rewrite (proj2 (eqb_neq _ _) H1), (proj2 (eqb_neq _ _) H2),
    (proj2 (eqb_neq _ _) H3).
Qed.

Lemma norm_fold_plain i names acc :
  Forall (fun c => plain c = true) names ->
  fold_left (posixpath.norm_step i) names acc = acc ++ names.
Proof.
  intros H. revert acc. induction H as [|c names Hc _ IH]; intros acc; cbn.
  - by rewrite app_nil_r.
  - by rewrite norm_step_plain, IH, <- app_assoc.
Qed.

(** The empty components of a path do not count. *)
Lemma norm_fold_parts i l acc :
  fold_left (posixpath.norm_step i) l acc
  = fold_left (posixpath.norm_step i)
      (List.filter (fun x => negb (Str.eqb x "")) l) acc.
Proof.
  revert acc. induction l as [|c l IH]; intros acc; [done|].
  cbn [fold_left List.filter]. destruct (Str.eqb c "") eqn:Hc; cbn [negb].
  - apply eqb_eq in Hc as ->. by rewrite <- IH.
  - cbn [fold_left]. apply IH.
Qed.

(** In an absolute path the normalised components are plain names. *)
Lemma norm_step_keeps_plain acc c :
  Forall (fun c => plain c = true) acc ->
  Str.contains "/" c = false ->
  Forall (fun c => plain c = true) (posixpath.norm_step 1 acc c).
Proof.
  intros Hacc Hc. unfold posixpath.norm_step.
  destruct (Str_eqb_spec c "") as [->|H1]; [done|].
  destruct (Str_eqb_spec c ".") as [->|H2]; [done|]. cbn [orb].
  destruct (Str_eqb_spec c "..") as [->|H3]; cbn [negb orb andb Nat.eqb].
  - destruct acc as [|x acc] using rev_ind; [done|]. clear IHacc.
    assert (posixpath.is_nil (acc ++ [x]) = false) as -> by by destruct acc.
    rewrite List.last_last. cbn [negb andb].
    apply Forall_app in Hacc as [Hacc [Hx _]%Forall_cons].
    apply plain_spec in Hx as (_ & _ & Hx & _).
    rewrite (proj2 (eqb_neq _ _) Hx), removelast_last. done.
  - apply Forall_app. split; [done|]. constructor; [|done].
    by apply plain_spec.
Qed.

Lemma norm_fold_keeps_plain l acc :
  Forall (fun c => plain c = true) acc ->
  Forall (fun c => Str.contains "/" c = false) l ->
  Forall (fun c => plain c = true) (fold_left (posixpath.norm_step 1) l acc).
Proof.
  intros Hacc Hl. revert acc Hacc.
  induction Hl as [|c l Hc _ IH]; intros acc Hacc; [done|]. cbn.
  apply IH. by apply norm_step_keeps_plain.
Qed.

(** *** The components of joined paths *)

Lemma parts_app_sep a b :
  posixpath.parts (a +:+ String "/" b) = posixpath.parts a ++ posixpath.parts b.
Proof.
  unfold posixpath.parts, posixpath.sep.
  by rewrite split_app_sep, List.filter_app.
Qed.

Lemma parts_empty : posixpath.parts "" = [].
Proof. reflexivity. Qed.

Lemma parts_plain d : plain d = true -> posixpath.parts d = [d].
Proof.
  intros (H1 & _ & _ & H)%plain_spec. unfold posixpath.parts.
  rewrite (split_no_sep posixpath.sep d H). cbn. by rewrite (proj2 (eqb_neq _ _) H1).
Qed.

Lemma parts_no_sep p : Forall (fun c => Str.contains "/" c = false) (posixpath.parts p).
Proof.
  unfold posixpath.parts. pose proof (split_parts_no_sep posixpath.sep p) as H.
  induction H as [|x l Hx _ IH]; [done|]. cbn.
  destruct (negb _); [by constructor|done].
Qed.

Lemma parts_join a b :
  Str.startswith b "/" = false ->
  posixpath.parts (posixpath.join a b) = posixpath.parts a ++ posixpath.parts b.
Proof.
  intros Hb. unfold posixpath.join. rewrite Hb.
  destruct (Str_eqb_spec a "") as [->|Ha]; [done|]. cbn [orb].
  destruct (Str.endswith a "/") eqn:He; [|apply parts_app_sep].
  apply endswith_char in He as [a' ->].
  rewrite append_assoc. change ("/" +:+ b) with (String "/" b).
  by rewrite !parts_app_sep, parts_empty, app_nil_r.
Qed.

Lemma isabs_join a b :
  a <> "" -> Str.startswith b "/" = false ->
  posixpath.isabs (posixpath.join a b) = posixpath.isabs a
  /\ posixpath.join a b <> "".
Proof.
  intros Ha Hb. unfold posixpath.join, posixpath.isabs. rewrite Hb.
  destruct (_ || _)%bool.
  - split; [by apply startswith_app|]. by destruct a.
  - split; [by apply startswith_app|]. by destruct a.
Qed.

(** Going down from [top] through directories with plain names. *)
Lemma descend_parts ds top :
  top <> "" -> Forall (fun c => plain c = true) ds ->
  posixpath.parts (fold_left posixpath.join ds top) = posixpath.parts top ++ ds
  /\ posixpath.isabs (fold_left posixpath.join ds top) = posixpath.isabs top
  /\ fold_left posixpath.join ds top <> "".
Proof.
  intros Htop Hds. revert top Htop.
  induction Hds as [|d ds Hd _ IH]; intros top Htop; cbn [fold_left].
  - by rewrite app_nil_r.
  - destruct (isabs_join top d Htop (plain_not_abs _ Hd)) as [Habs Hne].
    destruct (IH _ Hne) as (-> & -> & ?).
    rewrite (parts_join _ _ (plain_not_abs _ Hd)), (parts_plain _ Hd).
    by rewrite <- app_assoc.
Qed.

(** *** Absolute and relative paths *)

Lemma isabs_initial p :
  posixpath.isabs p = true -> exists k, posixpath.initial_slashes p = S k.
Proof.
  unfold posixpath.isabs, posixpath.initial_slashes. intros ->.
  destruct (_ && _)%bool; eauto.
Qed.

Lemma isabs_nonempty p : posixpath.isabs p = true -> p <> "".
Proof. by intros H ->. Qed.

(** A path once anchored at an absolute working directory. *)
Lemma anchored cwd p :
  posixpath.isabs cwd = true ->
  let q := if posixpath.isabs p then p else posixpath.join cwd p in
  posixpath.isabs q = true
  /\ posixpath.parts q
     = (if posixpath.isabs p then [] else posixpath.parts cwd) ++ posixpath.parts p.
Proof.
  intros Hcwd. cbn zeta. destruct (posixpath.isabs p) eqn:Hp; [done|].
  destruct (isabs_join cwd p (isabs_nonempty _ Hcwd) Hp) as [-> _].
  split; [done|]. by apply parts_join.
Qed.

Lemma abspath_eq cwd p :
  posixpath.isabs cwd = true ->
  exists k,
    posixpath.abspath cwd p
    = posixpath.slashes (S k)
      +:+ Str.join "/"
            (fold_left (posixpath.norm_step 1)
               ((if posixpath.isabs p then [] else posixpath.parts cwd)
                  ++ posixpath.parts p) []).
Proof.
  intros Hcwd. destruct (anchored cwd p Hcwd) as [Habs Hparts].
  unfold posixpath.abspath, posixpath.normpath.
  set (q := if posixpath.isabs p then p else posixpath.join cwd p) in *.
  destruct (isabs_initial q Habs) as [k Hk]. exists k.
  rewrite (proj2 (eqb_neq q "") (isabs_nonempty _ Habs)).
  unfold posixpath.norm_comps. rewrite Hk.
  change (posixpath.norm_step (S k)) with (posixpath.norm_step 1).
  rewrite norm_fold_parts. fold (posixpath.parts q). rewrite Hparts.
  reflexivity.
Qed.

Lemma parts_String_sep s : posixpath.parts (String "/" s) = posixpath.parts s.
Proof. unfold posixpath.parts, posixpath.sep. by rewrite split_String_sep. Qed.

Lemma parts_slashes k s :
  posixpath.parts (posixpath.slashes k +:+ s) = posixpath.parts s.
Proof.
  induction k as [|k IH]; [done|].
  cbn [posixpath.slashes]. rewrite append_String.
  unfold posixpath.sep. by rewrite parts_String_sep.
Qed.

Lemma parts_joined N :
  Forall (fun c => plain c = true) N -> posixpath.parts (Str.join "/" N) = N.
Proof.
  intros HN. destruct (decide (N = [])) as [->|Hne]; [done|].
  unfold posixpath.parts, posixpath.sep. rewrite split_join; [|done|].
  - induction HN as [|c N (Hc & _)%plain_spec _ IH]; [done|]. cbn.
    rewrite (proj2 (eqb_neq c "") Hc). cbn. f_equal.
    destruct N; [done|]. by apply IH.
  - eapply Forall_impl; [exact HN|]. by intros c (_ & _ & _ & ?)%plain_spec.
Qed.

(** The components of [abspath(p)]: those of the working directory, for a
    relative [p], then those of [p], normalised; and [abspath] changes
    nothing in a path it returned. *)
Lemma parts_abspath cwd p :
  posixpath.isabs cwd = true ->
  let N := fold_left (posixpath.norm_step 1)
             ((if posixpath.isabs p then [] else posixpath.parts cwd)
                ++ posixpath.parts p) [] in
  posixpath.parts (posixpath.abspath cwd p) = N
  /\ Forall (fun c => plain c = true) N
  /\ posixpath.isabs (posixpath.abspath cwd p) = true.
Proof.
  intros Hcwd N. destruct (abspath_eq cwd p Hcwd) as [k ->]. fold N.
  assert (Forall (fun c => plain c = true) N) as HN.
  { apply norm_fold_keeps_plain; [done|]. apply Forall_app. split.
    - destruct (posixpath.isabs p); [done|apply parts_no_sep].
    - apply parts_no_sep. }
  split; [|split; [done|]].
  - by rewrite parts_slashes, parts_joined.
  - cbn [posixpath.slashes]. rewrite append_String.
    unfold posixpath.isabs. by rewrite startswith_char.
Qed.

Lemma parts_abspath_twice cwd p :
  posixpath.isabs cwd = true ->
  posixpath.parts (posixpath.abspath cwd (posixpath.abspath cwd p))
  = posixpath.parts (posixpath.abspath cwd p).
Proof.
  intros Hcwd. destruct (parts_abspath cwd p Hcwd) as (Hp & HN & Habs).
  destruct (parts_abspath cwd (posixpath.abspath cwd p) Hcwd) as (-> & _ & _).
  rewrite Habs, Hp. cbn [app]. by rewrite norm_fold_plain.
Qed.

Lemma common_len_prefix N rest : posixpath.common_len N (N ++ rest) = length N.
Proof.
  induction N as [|x N IH]; [done|]. cbn.
  by rewrite (proj2 (eqb_eq x x) eq_refl), IH.
Qed.

Lemma no_slash_not_abs s : Str.contains "/" s = false -> Str.startswith s "/" = false.
Proof.
  destruct s as [|a s]; [done|]. rewrite startswith_char. cbn.
  by intros [? _]%orb_false_iff.
Qed.

Lemma basename_no_slash name :
  Str.contains "/" name = false -> posixpath.basename name = name.
Proof.
  intros H. unfold posixpath.basename.
  by rewrite (split_no_sep posixpath.sep name H).
Qed.

Lemma basename_app_sep a name :
  Str.contains "/" name = false ->
  posixpath.basename (a +:+ String "/" name) = name.
Proof.
  intros H. unfold posixpath.basename, posixpath.sep.
  rewrite split_app_sep, (split_no_sep "/" name H).
  by rewrite last_app_nonempty.
Qed.

Lemma basename_join a name :
  Str.contains "/" name = false ->
  posixpath.basename (posixpath.join a name) = name.
Proof.
  intros H. unfold posixpath.join. rewrite (no_slash_not_abs _ H).
  destruct (Str_eqb_spec a "") as [->|Ha]; [by apply basename_no_slash|].
  cbn [orb]. destruct (Str.endswith a "/") eqn:He; [|by apply basename_app_sep].
  apply endswith_char in He as [a' ->].
  rewrite append_assoc. change ("/" +:+ name) with (String "/" name).
  by apply basename_app_sep.
Qed.

Lemma basename_join_all ds name :
  Str.contains "/" name = false ->
  posixpath.basename (posixpath.join_all (ds ++ [name])) = name.
Proof.
  intros H. destruct ds as [|d ds]; cbn [app posixpath.join_all].
  - by apply basename_no_slash.
  - rewrite fold_left_app. cbn [fold_left]. by apply basename_join.
Qed.

(** The last component of the path of a file relative to a directory above
    it is the name of the file, whatever the working directory. *)
Lemma basename_relpath cwd top ds name :
  posixpath.isabs cwd = true ->
  top <> "" ->
  Forall (fun c => plain c = true) ds ->
  plain name = true ->
  posixpath.basename
    (posixpath.relpath cwd
       (posixpath.abspath cwd (fold_left posixpath.join ds top +:+ "/" +:+ name))
       top)
  = name.
Proof.
  intros Hcwd Htop Hds Hname.
  destruct (descend_parts ds top Htop Hds) as (Hparts & Habs & Hne).
  set (dirpath := fold_left posixpath.join ds top) in *.
  change ("/" +:+ name) with (String "/" name).
  set (f := dirpath +:+ String "/" name).
  assert (posixpath.parts f = posixpath.parts top ++ ds ++ [name]) as Hf.
  { unfold f. by rewrite parts_app_sep, Hparts, (parts_plain _ Hname), <- app_assoc. }
  assert (posixpath.isabs f = posixpath.isabs top) as Hfabs.
  { unfold f, posixpath.isabs. rewrite startswith_app by done. exact Habs. }
  unfold posixpath.relpath. rewrite parts_abspath_twice by done.
  destruct (parts_abspath cwd f Hcwd) as (-> & _ & _).
  destruct (parts_abspath cwd top Hcwd) as (-> & HN & _).
  rewrite Hf, Hfabs.
  set (base := if posixpath.isabs top then [] else posixpath.parts cwd) in *.
  rewrite (app_assoc base), (fold_left_app _ (base ++ posixpath.parts top)).
  set (N := fold_left (posixpath.norm_step 1) (base ++ posixpath.parts top) []) in *.
  rewrite (norm_fold_plain 1 (ds ++ [name]) N).
  2: { apply Forall_app. split; [done|]. by constructor. }
  rewrite common_len_prefix, Nat.sub_diag, drop_app_length. cbn [repeat app].
  assert (posixpath.is_nil (ds ++ [name]) = false) as -> by by destruct ds.
  apply basename_join_all. by apply plain_spec in Hname as (_ & _ & _ & ?).
Qed.

(** A file of a tree with plain names lies below the root through
    directories with plain names. *)
Lemma located_shape top t dirpath filename :
  plain_tree t = true ->
  located top t dirpath filename ->
  plain filename = true
  /\ exists ds, Forall (fun c => plain c = true) ds
                /\ dirpath = fold_left posixpath.join ds top.
Proof.
  intros Ht Hloc.
  induction Hloc as [top name filenames subdirs filename Hf
                    |top name filenames subdirs d dirpath filename Hd _ IH];
    cbn [plain_tree] in Ht; apply andb_true_iff in Ht as [Hfiles Hsubs].
  - split; [|by exists []].
    rewrite forallb_forall in Hfiles. by apply Hfiles, list_elem_of_In.
  - rewrite forallb_forall in Hsubs.
    apply list_elem_of_In, Hsubs, andb_true_iff in Hd as [Hname Hsub].
    destruct (IH Hsub) as (Hfile & ds & Hds & ->).
    split; [done|]. exists (dir_name d :: ds). split; [by constructor|done].
Qed.

(** With an output directory, the derived path of a file found by the walk
    is directly in that directory, whatever the sub-directory the file was
    found in: only the name of the file is kept. *)
Lemma output_file_name_flat w top t dirpath filename output :
  posixpath.isabs (getcwd w) = true ->
  top <> "" ->
  plain_tree t = true ->
  located top t dirpath filename ->
  _output_file_name w (dirpath +:+ "/" +:+ filename) top (Some output)
  = posixpath.join output (first_segment filename +:+ suffix).
Proof.
  intros Hcwd Htop Ht Hloc.
  destruct (located_shape _ _ _ _ Ht Hloc) as (Hname & ds & Hds & ->).
  unfold _output_file_name. by rewrite basename_relpath.
Qed.

(** *** Next to the input: the [ntpath] side *)

Lemma cut_no_sep name :
  Str.contains "/" name = false -> Str.contains "\" name = false ->
  ntpath.cut name = ("", name).
Proof.
  induction name as [|c name IH]; [done|]. cbn [Str.contains ntpath.cut].
  intros [Hc1 H1]%orb_false_iff [Hc2 H2]%orb_false_iff.
  rewrite (IH H1 H2). unfold ntpath.is_sep. by rewrite Hc1, Hc2.
Qed.

Lemma cut_app_sep a name :
  Str.contains "/" name = false -> Str.contains "\" name = false ->
  ntpath.cut (a +:+ String "/" name) = (a +:+ "/", name).
Proof.
  intros H1 H2. induction a as [|x a IH].
  - rewrite !append_nil_l. cbn [ntpath.cut]. by rewrite (cut_no_sep _ H1 H2).
  - rewrite !append_String. cbn [ntpath.cut]. rewrite IH.
    by destruct a.
Qed.

Lemma rstrip_app_sep a :
  Str.rstrip ntpath.is_sep (a +:+ "/") = Str.rstrip ntpath.is_sep a.
Proof.
  induction a as [|x a IH]; [done|].
  rewrite append_String. cbn [Str.rstrip]. by rewrite IH.
Qed.

Lemma endswith_String a s c :
  s <> "" -> Str.endswith (String a s) (String c "") = Str.endswith s (String c "").
Proof.
  intros Hs. cbn [Str.endswith].
  destruct (String.eqb_spec (String a s) (String c "")) as [[= -> ->]|_]; done.
Qed.

Lemma rstrip_keeps a :
  Str.endswith a "/" = false -> Str.endswith a "\" = false ->
  Str.rstrip ntpath.is_sep a = a.
Proof.
  induction a as [|x a IH]; [done|]. cbn [Str.rstrip].
  destruct a as [|y a].
  - cbn. unfold ntpath.is_sep.
    destruct (Ascii.eqb_spec x "/") as [->|_]; [done|].
    by destruct (Ascii.eqb_spec x "\") as [->|_].
  - rewrite (endswith_String x (String y a) "/"),
      (endswith_String x (String y a) "\") by done.
    intros H1 H2. by rewrite (IH H1 H2).
Qed.

Lemma first_segment_not_abs name :
  Str.contains "/" name = false ->
  Str.startswith (first_segment name +:+ suffix) "/" = false.
Proof.
  destruct name as [|c name]; [done|]. cbn [Str.contains].
  intros [Hc _]%orb_false_iff. unfold first_segment. cbn [Str.split].
  destruct (Ascii.eqb c "."); [done|].
  pose proof (split_nonempty "." name).
  destruct (Str.split "." name) as [|x xs]; [done|]. cbn [hd].
  rewrite append_String. by rewrite startswith_char.
Qed.

(** Without an output directory, the derived path of a file is in the
    directory of the file: for a path without a drive or share prefix, made
    of a directory that does not end in a separator and of a name without
    separators. *)
Lemma output_file_name_alongside w dirpath filename input_path :
  ntpath.splitdrive (dirpath +:+ "/" +:+ filename)
    = ("", dirpath +:+ "/" +:+ filename) ->
  Str.contains "/" filename = false -> Str.contains "\" filename = false ->
  dirpath <> "" ->
  Str.endswith dirpath "/" = false -> Str.endswith dirpath "\" = false ->
  _output_file_name w (dirpath +:+ "/" +:+ filename) input_path None
  = dirpath +:+ "/" +:+ first_segment filename +:+ suffix.
Proof.
  intros Hdrive H1 H2 Hne He1 He2.
  unfold _output_file_name, ntpath.basename, ntpath.dirname, ntpath.split.
  rewrite Hdrive. change ("/" +:+ filename) with (String "/" filename).
  rewrite (cut_app_sep _ _ H1 H2), rstrip_app_sep, (rstrip_keeps _ He1 He2).
  rewrite (proj2 (eqb_neq dirpath "") Hne). cbn [fst snd].
  rewrite append_nil_l, (basename_no_slash _ H1).
  unfold posixpath.join.
  by rewrite (first_segment_not_abs _ H1), (proj2 (eqb_neq dirpath "") Hne), He1.
Qed.

(** ** The derived output path *)

Example dirname_ex : posixpath.dirname "sub/deep/c.pdf.gz" = "sub/deep".
Proof. reflexivity. Qed.
Example dirname_ex2 : posixpath.dirname "c.pdf.gz" = "".
Proof. reflexivity. Qed.
Example dirname_ex3 : posixpath.dirname "/c.pdf.gz" = "/".
Proof. reflexivity. Qed.

(** C4 (the code departs from it). With an output directory, the source
    computes the path of the input relative to the input root and then keeps
    its base name only: the file [/in/sub/c.pdf.gz] of the root [/in] is
    derived to [/out/c.dataseer.tei.xml], not to the mirrored
    [/out/sub/c.dataseer.tei.xml], and two files of the same name in
    different sub-directories are derived to the same output path. Without an
    output directory the output is next to the input, as the claim says. *)
Theorem output_directory_is_not_mirrored :
  _output_file_name Sample.annotating "/in/sub/c.pdf.gz" "/in" (Some "/out")
    = "/out/c.dataseer.tei.xml"
  /\ mirrored_output_path Sample.annotating "/in/sub/c.pdf.gz" "/in" "/out"
     = "/out/sub/c.dataseer.tei.xml"
  /\ _output_file_name Sample.annotating "/in/x/a.pdf" "/in" (Some "/out")
     = _output_file_name Sample.annotating "/in/y/a.pdf" "/in" (Some "/out")
  /\ _output_file_name Sample.annotating "/in/sub/c.pdf.gz" "/in" None
     = "/in/sub/c.dataseer.tei.xml".
Proof. repeat split; reflexivity. Qed.

(** C9 (counterexample). The derivation reads the working directory of the
    process, which is none of its arguments: with an output root, the
    relative path [..] names the parent of the working directory, and the
    same three arguments give one path from [/home/u] and another one from
    [/srv/work]. *)
Lemma output_path_depends_on_the_working_directory :
  getcwd Sample.annotating = "/home/u"
  /\ getcwd Sample.annotating_elsewhere = "/srv/work"
  /\ _output_file_name Sample.annotating ".." "/in" (Some "/out")
     = "/out/home.dataseer.tei.xml"
  /\ _output_file_name Sample.annotating_elsewhere ".." "/in" (Some "/out")
     = "/out/srv.dataseer.tei.xml"
  /\ _output_file_name Sample.annotating ".." "/in" (Some "/out")
     <> _output_file_name Sample.annotating_elsewhere ".." "/in" (Some "/out").
Proof. repeat split; try reflexivity. vm_compute. discriminate. Qed.

(** C9 (amended). The derived output path is a function of the input file,
    the input root, the output root and the working directory of the
    process, and of nothing else: two environments with the same working
    directory give the same path for all arguments, whatever else differs
    between them (the files, the service, the clock). Without an output
    root the working directory is not read either. With an output root, the
    path of every file found by the walk under the input root (in a tree
    with the names a directory can hold) is the same from every absolute
    working directory. *)
Theorem output_path_reads_the_working_directory_at_most :
  (forall w1 w2 input_file input_path output,
      getcwd w1 = getcwd w2 ->
      _output_file_name w1 input_file input_path output
      = _output_file_name w2 input_file input_path output)
  /\ (forall w1 w2 input_file input_path,
        _output_file_name w1 input_file input_path None
        = _output_file_name w2 input_file input_path None)
  /\ (forall w1 w2 input_path t dirpath filename output,
        posixpath.isabs (getcwd w1) = true ->
        posixpath.isabs (getcwd w2) = true ->
        input_path <> "" ->
        plain_tree t = true ->
        located input_path t dirpath filename ->
        _output_file_name w1 (dirpath +:+ "/" +:+ filename) input_path output
        = _output_file_name w2 (dirpath +:+ "/" +:+ filename) input_path output).
Proof.
  split; [|split].
  - intros w1 w2 input_file input_path output Hcwd.
    unfold _output_file_name. by rewrite Hcwd.
  - reflexivity.
  - intros w1 w2 input_path t dirpath filename [output|] H1 H2 Htop Ht Hloc;
      [|reflexivity].
    by rewrite !(output_file_name_flat _ input_path t).
Qed.

Lemma output_path_reads_the_working_directory_at_most_witness :
  _output_file_name Sample.annotating ("in/sub" +:+ "/" +:+ "c.pdf.gz") "in"
    (Some "out")
  = _output_file_name Sample.annotating_elsewhere
      ("in/sub" +:+ "/" +:+ "c.pdf.gz") "in" (Some "out").
Proof.
  apply (proj2 (proj2 output_path_reads_the_working_directory_at_most)
           Sample.annotating Sample.annotating_elsewhere "in"
           (scandir Sample.annotating "in")).
  - reflexivity.
  - reflexivity.
  - discriminate.
  - reflexivity.
  - eapply located_below.
    + apply elem_of_cons. left. reflexivity.
    + apply located_here. apply elem_of_cons. left. reflexivity.
Defined.

(* ================================================================== *)
(** * Further properties of the client *)
(* ================================================================== *)

(** ** The exchange of a worker with the service *)

(** On 200 the worker prints nothing and returns the text of the reply. *)
Lemma worker_succeeded self file text (retry : M outcome) fs :
  try_finally (on_status self file 200 text retry)
    (fun c => finally_return file (Some 200) (tei_data_at_end c)) fs
  = Some (Ok (file, 200, Some text), fs, []).
Proof. reflexivity. Qed.

(** The selected worker on a first reply other than 503: one request, then
    lines at most. *)
Lemma selected_process_first fuel w self service file status_code text fs :
  requests_post w (worker_url self service) file 0 = Response status_code text ->
  status_code <> 503 ->
  exists t,
    selected_process self service (S fuel) w self service file 0 fs
    = Some (Ok (terminal_outcome file status_code text), fs,
            EvPost (worker_url self service) file (worker_gunzip self service file)
              (timeout (client_config self)) :: t)
    /\ Forall worker_print t.
Proof.
  unfold selected_process, worker_url, worker_gunzip.
  destruct (Str.eqb service (endpoint_pdf self)); intros H Hs.
  - destruct (process_pdf_terminal (S fuel) w self service file 0 _ _ fs H Hs)
      as (t & -> & Ht & _). eauto.
  - destruct (process_tei_terminal fuel w self service file 0 _ _ fs H Hs)
      as (t & -> & Ht & _). eauto.
Qed.

(** X1. When the first reply to the request of a file is a status other than
    503, the worker selected for the service is done after that one request:
    it returns the file, the status, and the text of the reply as the body
    if the status is 200, no body otherwise. It pauses nowhere and touches
    no file; after the request it prints at most, and for 200 nothing. *)
Theorem first_answer_is_final fuel w self service file status_code text fs :
  requests_post w (worker_url self service) file 0 = Response status_code text ->
  status_code <> 503 ->
  exists t,
    selected_process self service (S fuel) w self service file 0 fs
    = Some (Ok (file, status_code,
                if status_code =? 200 then Some text else None), fs,
            EvPost (worker_url self service) file (worker_gunzip self service file)
              (timeout (client_config self)) :: t)
    /\ Forall worker_print t
    /\ (status_code = 200 -> t = []).
Proof.
  intros H Hs.
  destruct (selected_process_first fuel w self service file _ _ fs H Hs)
    as (t & Heq & Ht).
  exists t. split; [exact Heq|]. split; [done|].
  intros ->. revert Heq H.
  unfold selected_process, worker_url, worker_gunzip.
  destruct (Str.eqb service (endpoint_pdf self)); intros Heq H.
  - unfold process_pdf in Heq. unfold bind at 1, emit in Heq.
    rewrite H, worker_succeeded in Heq. by injection Heq as <-.
  - cbn [process_tei] in Heq. unfold bind at 1, emit in Heq.
    rewrite H, worker_succeeded in Heq. by injection Heq as <-.
Qed.

Lemma first_answer_is_final_witness :
  exists t,
    selected_process Sample.client "processDataseerPDF" 1 Sample.mixed
      Sample.client "processDataseerPDF" "/in/b.pdf" 0 ∅
    = Some (Ok ("/in/b.pdf", 500, None), ∅,
            EvPost Sample.pdf_url "/in/b.pdf" false 60 :: t)
    /\ Forall worker_print t
    /\ (500 = 200 -> t = []).
Proof.
  apply (first_answer_is_final 0 Sample.mixed Sample.client
           "processDataseerPDF" "/in/b.pdf" 500 "" ∅).
  - reflexivity.
  - discriminate.
Defined.

(** After any number of 503 answers, the first other reply (a status or a
    failure of the request) ends the exchange, when the time to pause is not
    negative. *)
Lemma process_tei_exchange w self service file n :
  0 <= sleep_time (client_config self) ->
  forall fuel k fs,
    (forall i, (i < n)%nat -> exists txt,
        requests_post w (service_url self +:+ endpoint_tei self) file (k + i)%nat
        = Response 503 txt) ->
    (forall txt,
        requests_post w (service_url self +:+ endpoint_tei self) file (k + n)%nat
        <> Response 503 txt) ->
    exists r t,
      process_tei (S (n + fuel)) w self service file k fs = Some (r, fs, t)
      /\ posted t = repeat (service_url self +:+ endpoint_tei self, file) (S n)
      /\ sleeps t = repeat (sleep_time (client_config self)) n
      /\ (n <> O -> r = Ok (file, 503, None)).
Proof.
  intros Hpause.
  induction n as [|n IH]; intros fuel k fs Hbusy Hlast.
  - rewrite Nat.add_0_r in Hlast.
    destruct (requests_post w (service_url self +:+ endpoint_tei self) file k)
      as [status_code text|e] eqn:Hk.
    + destruct (process_tei_terminal (0 + fuel) w self service file k _ _ fs Hk)
        as (t & -> & Hp & _); [by intros ->; eapply Hlast|].
      destruct (prints_only _ (worker_prints _ Hp)) as (Hp1 & Hp2 & Hp3).
      eexists _, _. split; [reflexivity|].
      unfold posted, sleeps in *. cbn. by rewrite Hp1, Hp2.
    + destruct (process_tei_transport_failure (0 + fuel) w self service file k e fs Hk)
        as (t & -> & Hp).
      destruct (prints_only _ (worker_prints _ Hp)) as (Hp1 & Hp2 & Hp3).
      eexists _, _. split; [reflexivity|].
      unfold posted, sleeps in *. cbn. by rewrite Hp1, Hp2.
  - destruct (Hbusy O ltac:(lia)) as [txt Hk]. rewrite Nat.add_0_r in Hk.
    change (S n + fuel)%nat with (S (n + fuel)).
    rewrite (process_tei_overloaded _ _ _ _ _ _ _ _ Hk).
    rewrite (proj2 (Z.ltb_ge _ _) Hpause).
    destruct (IH fuel (S k) fs) as (r & t & -> & Hp & Hsl & _).
    + intros i Hi. destruct (Hbusy (S i) ltac:(lia)) as [txt' Hi'].
      exists txt'. by rewrite <- Hi', Nat.add_succ_r.
    + intros txt'. by rewrite Nat.add_succ_comm.
    + eexists _, _. split; [reflexivity|].
      unfold posted, sleeps in *. cbn. by rewrite Hp, Hsl.
Qed.

(** X2. The retry has no bound of its own (the recursion limit of the
    interpreter is not modelled), but it needs a time to pause that is not
    negative. Let the first request of a file be answered 503. With a
    negative time to pause, the pause is refused and the worker stops there:
    it has made that one request, has not paused, and returns the status 503
    without a body (the [ValueError] of the pause is lost in the [finally]
    clause). Otherwise, if the next [n] requests are answered 503 as well,
    the worker goes on until a reply that is not 503 comes, a status or a
    failure of the request. It has then made [n + 2] requests, the first to
    the endpoint of the service and all the others to the TEI endpoint, and
    has paused [n + 1] times for the configured time, once after each 503.
    Whatever the last reply was, it returns the status 503 without a body,
    and raises nothing. *)
Theorem overload_is_retried_until_another_reply w self service file fuel fs txt :
  requests_post w (worker_url self service) file 0 = Response 503 txt ->
  let pause := sleep_time (client_config self) in
  (pause < 0 ->
   selected_process self service (S fuel) w self service file 0 fs
   = Some (Ok (file, 503, None), fs,
           [EvPost (worker_url self service) file
              (worker_gunzip self service file) (timeout (client_config self));
            EvPrint (MsgOverloaded pause)]))
  /\ (0 <= pause ->
      forall n,
        (forall i, (i < n)%nat -> exists txt',
            requests_post w (retry_url self) file (S i) = Response 503 txt') ->
        (forall txt',
            requests_post w (retry_url self) file (S n) <> Response 503 txt') ->
        exists t,
          selected_process self service (S (S (n + fuel))) w self service file 0 fs
          = Some (Ok (file, 503, None), fs, t)
          /\ posted t = (worker_url self service, file)
                        :: repeat (retry_url self, file) (S n)
          /\ sleeps t = repeat pause (S n)).
Proof.
  unfold selected_process, worker_url, worker_gunzip, retry_url.
  destruct (Str.eqb service (endpoint_pdf self)); intros Hfirst; cbv zeta; split.
  - intros Hneg. rewrite (process_pdf_overloaded _ _ _ _ _ _ _ _ Hfirst).
    by rewrite (proj2 (Z.ltb_lt _ _) Hneg).
  - intros Hpause n Hbusy Hlast.
    rewrite (process_pdf_overloaded _ _ _ _ _ _ _ _ Hfirst).
    rewrite (proj2 (Z.ltb_ge _ _) Hpause).
    destruct (process_tei_exchange w self service file n Hpause (S fuel) 1 fs)
      as (r & t & Hrun & Hp & Hsl & _); [done..|].
    rewrite Nat.add_succ_r in Hrun. rewrite Hrun.
    eexists. split; [reflexivity|].
    unfold posted, sleeps in *. cbn. by rewrite Hp, Hsl.
  - intros Hneg. rewrite (process_tei_overloaded _ _ _ _ _ _ _ _ Hfirst).
    by rewrite (proj2 (Z.ltb_lt _ _) Hneg).
  - intros Hpause n Hbusy Hlast.
    rewrite (process_tei_overloaded _ _ _ _ _ _ _ _ Hfirst).
    rewrite (proj2 (Z.ltb_ge _ _) Hpause).
    destruct (process_tei_exchange w self service file n Hpause fuel 1 fs)
      as (r & t & -> & Hp & Hsl & _); [done..|].
    eexists. split; [reflexivity|].
    unfold posted, sleeps in *. cbn. by rewrite Hp, Hsl.
Qed.

Lemma overload_is_retried_until_another_reply_witness :
  exists t,
    selected_process Sample.client "processDataseerPDF" 4
      Sample.overloaded_then_unreachable Sample.client
      "processDataseerPDF" "/in/a.pdf" 0 ∅
    = Some (Ok ("/in/a.pdf", 503, None), ∅, t)
    /\ posted t = [(Sample.pdf_url, "/in/a.pdf"); (Sample.tei_url, "/in/a.pdf");
                   (Sample.tei_url, "/in/a.pdf"); (Sample.tei_url, "/in/a.pdf")]
    /\ sleeps t = [5; 5; 5].
Proof.
  apply (proj2 (overload_is_retried_until_another_reply
                  Sample.overloaded_then_unreachable Sample.client
                  "processDataseerPDF" "/in/a.pdf" 0 ∅ "busy" eq_refl)
           ltac:(done) 2%nat).
  - intros i Hi. exists "busy". destruct i as [|[|i]]; [reflexivity..|lia].
  - intros txt'. discriminate.
Defined.

(** The same exchange with a negative time to pause: one request, no pause,
    and the answers that would have followed are never asked for. *)
Example negative_pause_ends_the_exchange :
  selected_process Sample.client_hasty "processDataseerPDF" 4
    Sample.overloaded_once Sample.client_hasty
    "processDataseerPDF" "/in/a.pdf" 0 ∅
  = Some (Ok ("/in/a.pdf", 503, None), ∅,
          [EvPost Sample.pdf_url "/in/a.pdf" false 60;
           EvPrint (MsgOverloaded (-1))]).
Proof. vm_compute. reflexivity. Qed.

(** With any fuel that lets it return, what the selected worker returns or
    raises is read off the first reply. *)
Lemma selected_process_answer fuel w self service file fs r fs' t :
  selected_process self service fuel w self service file 0 fs = Some (r, fs', t) ->
  r = match requests_post w (worker_url self service) file 0 with
      | Response status_code text => Ok (terminal_outcome file status_code text)
      | Raises _ => Exc UnboundLocalError
      end.
Proof.
  intros Hrun.
  destruct (requests_post w (worker_url self service) file 0)
    as [status_code text|e] eqn:Hfirst.
  - destruct (decide (status_code = 503)) as [->|Hs].
    2: { by eapply selected_process_first_answer. }
    revert Hrun Hfirst. unfold selected_process, worker_url.
    destruct (Str.eqb service (endpoint_pdf self)); intros Hrun Hfirst.
    + rewrite (process_pdf_overloaded _ _ _ _ _ _ _ _ Hfirst) in Hrun.
      destruct (_ <? 0); [by injection Hrun as <- _ _|].
      destruct (process_tei _ _ _ _ _ _ _) as [[[? ?] ?]|]; [|done].
      by injection Hrun as <- _ _.
    + destruct fuel as [|fuel]; [done|].
      rewrite (process_tei_overloaded _ _ _ _ _ _ _ _ Hfirst) in Hrun.
      destruct (_ <? 0); [by injection Hrun as <- _ _|].
      destruct (process_tei _ _ _ _ _ _ _) as [[[? ?] ?]|]; [|done].
      by injection Hrun as <- _ _.
  - revert Hrun Hfirst. unfold selected_process, worker_url.
    destruct (Str.eqb service (endpoint_pdf self)); intros Hrun Hfirst.
    + destruct (process_pdf_transport_failure fuel w self service file 0 e fs Hfirst)
        as (t' & Heq & _). congruence.
    + destruct fuel as [|fuel]; [done|].
      destruct (process_tei_transport_failure fuel w self service file 0 e fs Hfirst)
        as (t' & Heq & _). congruence.
Qed.

(** X3. Whenever the selected worker returns, what it returns or raises is
    decided by the first reply alone: for a reply with a status, the outcome
    with that status, and with the text as body exactly for 200 (after a 503
    the replies to the retries change nothing); for a request that failed,
    the exception [UnboundLocalError]. The worker leaves the files as they
    were, and all it does is request, pause and print for its own file. *)
Theorem first_reply_decides_the_result fuel w self service file fs r fs' t :
  selected_process self service fuel w self service file 0 fs = Some (r, fs', t) ->
  r = match requests_post w (worker_url self service) file 0 with
      | Response status_code text =>
          Ok (file, status_code, if status_code =? 200 then Some text else None)
      | Raises _ => Exc UnboundLocalError
      end
  /\ fs' = fs
  /\ Forall (worker_event file) t.
Proof.
  intros Hrun. split; [by eapply selected_process_answer|].
  by destruct (selected_process_inv _ _ _ _ _ _ _ _ _ _ Hrun) as (-> & Hev & _).
Qed.

Lemma first_reply_decides_the_result_witness :
  Exc UnboundLocalError
  = match requests_post Sample.one_timeout
            (worker_url Sample.client "processDataseerPDF") "/in/a.pdf" 0 with
    | Response status_code text =>
        Ok ("/in/a.pdf", status_code,
            if status_code =? 200 then Some text else None)
    | Raises _ => Exc UnboundLocalError
    end
  /\ (∅ : files) = ∅
  /\ Forall (worker_event "/in/a.pdf")
       [EvPost Sample.pdf_url "/in/a.pdf" false 60; EvPrint MsgTimeout].
Proof.
  apply (first_reply_decides_the_result 1 Sample.one_timeout Sample.client
           "processDataseerPDF" "/in/a.pdf" ∅).
  vm_compute. reflexivity.
Defined.

(** ** What the methods may do *)

(** The events of a method are read off its text, construct by construct. *)
Section Traced.
Context (P : event -> Prop).

Lemma traced_ret {A} (a : A) : traced P (ret a).
Proof. by intros fs r fs' t [= <- <- <-]. Qed.

Lemma traced_raise {A} e : traced P (@raise A e).
Proof. by intros fs r fs' t [= <- <- <-]. Qed.

Lemma traced_emit e : P e -> traced P (emit e).
Proof. intros He fs r fs' t [= <- <- <-]. by repeat constructor. Qed.

Lemma traced_print m : P (EvPrint m) -> traced P (print m).
Proof. apply traced_emit. Qed.

Lemma traced_bind {A B} (m : M A) (k : A -> M B) :
  traced P m -> (forall a, traced P (k a)) -> traced P (x <- m ;; k x).
Proof.
  intros Hm Hk fs r fs' t
    [(e & He & _)|(a & fs1 & t1 & t2 & H1 & H2 & ->)]%bind_Some.
  - by eapply Hm.
  - apply Forall_app. split; [by eapply Hm|by eapply Hk].
Qed.

Lemma traced_when b m : (b = true -> traced P m) -> traced P (when b m).
Proof. destruct b; [by intros H; apply H|]. intros _. apply traced_ret. Qed.

Lemma traced_try_finally {A B} (body : M A) (final : result A -> M B) :
  traced P body -> (forall c, traced P (final c)) ->
  traced P (try_finally body final).
Proof.
  intros Hb Hf fs r fs' t. unfold try_finally.
  destruct (body fs) as [[[c fs1] t1]|] eqn:H1; [|done].
  destruct (final c fs1) as [[[r' fs2] t2]|] eqn:H2; [|done].
  intros [= <- <- <-]. apply Forall_app. split; [by eapply Hb|by eapply Hf].
Qed.

Lemma traced_for_each {A} (l : list A) (body : A -> M unit) :
  (forall x, traced P (body x)) -> traced P (for_each l body).
Proof.
  intros Hb. induction l as [|x l IH]; cbn [for_each].
  - apply traced_ret.
  - by apply traced_bind.
Qed.

Lemma traced_for_fold {A S} (l : list A) (body : S -> A -> M S) s :
  (forall s x, traced P (body s x)) -> traced P (for_fold l body s).
Proof.
  intros Hb. revert s. induction l as [|x l IH]; intros s; cbn [for_fold].
  - apply traced_ret.
  - by apply traced_bind.
Qed.

Lemma traced_isfile filename : traced P (isfile filename).
Proof. by intros fs r fs' t [= <- <- <-]. Qed.

Lemma traced_executor_submit (task : M outcome) :
  traced P task -> traced P (executor_submit task).
Proof.
  intros Ht fs r fs' t. unfold executor_submit.
  destruct (task fs) as [[[r1 fs1] t1]|] eqn:H1; [|done].
  intros [= <- <- <-]. by eapply Ht.
Qed.

Lemma traced_future_result r : traced P (future_result r).
Proof. destruct r; [apply traced_ret|apply traced_raise]. Qed.

Lemma traced_impl {A} (Q : event -> Prop) (m : M A) :
  (forall e, P e -> Q e) -> traced P m -> traced Q m.
Proof.
  intros HPQ Hm fs r fs' t Hrun. eapply Forall_impl; [by eapply Hm|done].
Qed.

End Traced.

Section Footprint.
Context (w : world) (self : DataseerClient) (service : string)
  (force verbose : bool).

Local Abbreviation ev := (batch_event w self service force verbose).

Lemma except_request_traced e : traced ev (except_request e).
Proof. destruct e; cbn; first [by apply traced_print|apply traced_ret]. Qed.

Lemma finally_return_traced file response tei_data :
  traced ev (finally_return file response tei_data).
Proof. destruct response; [apply traced_ret|apply traced_raise]. Qed.

Lemma on_status_traced file status_code text (retry : M outcome) :
  traced ev retry -> traced ev (on_status self file status_code text retry).
Proof.
  intros Hretry. unfold on_status.
  repeat match goal with
         | |- traced _ (if ?b then _ else _) => destruct b
         | |- traced _ (bind _ _) => apply traced_bind; [|intros ?]
         | |- traced _ (time_sleep _) => unfold time_sleep
         | |- traced _ (print _) => by apply traced_print
         | |- traced _ (emit _) => by apply traced_emit
         | |- traced _ (ret _) => apply traced_ret
         | |- traced _ (raise _) => apply traced_raise
         end; done.
Qed.

Lemma process_tei_traced fuel service' file k :
  traced ev (process_tei fuel w self service' file k).
Proof.
  revert k. induction fuel as [|fuel IH]; intros k; [by intros ? ? ? ? [=]|].
  cbn [process_tei]. apply traced_bind.
  { apply traced_emit. cbn. split; [|done]. by right. }
  intros _. destruct (requests_post _ _ _ _) as [status_code text|e].
  - apply traced_try_finally.
    + by apply on_status_traced.
    + intros c. apply finally_return_traced.
  - apply traced_bind; [apply except_request_traced|].
    intros _. apply finally_return_traced.
Qed.

Lemma selected_process_traced fuel file :
  traced ev (selected_process self service fuel w self service file 0).
Proof.
  unfold selected_process. destruct (Str.eqb service (endpoint_pdf self)) eqn:Hs;
    [|apply process_tei_traced].
  unfold process_pdf. apply traced_bind.
  { apply traced_emit. cbn. split; [|done]. left.
    unfold worker_url, worker_gunzip. by rewrite Hs. }
  intros _. destruct (requests_post _ _ _ _) as [status_code text|e].
  - apply traced_try_finally.
    + apply on_status_traced, process_tei_traced.
    + intros c. apply finally_return_traced.
  - apply traced_bind; [apply except_request_traced|].
    intros _. apply finally_return_traced.
Qed.

Lemma submit_loop_traced fuel input_files input_path output :
  traced ev (submit_loop fuel w self service input_files input_path output force).
Proof.
  unfold submit_loop. apply traced_for_fold. intros results f.
  unfold submit_one. apply traced_bind.
  { destruct force; [apply traced_ret|apply traced_isfile]. }
  intros exists_. destruct (negb force && exists_)%bool eqn:Hskip.
  - apply traced_bind; [|intros _; apply traced_ret].
    apply traced_print. cbn. by destruct force.
  - apply traced_bind; [|intros r; apply traced_ret].
    apply traced_executor_submit, selected_process_traced.
Qed.

Lemma collect_loop_traced results input_path output :
  traced ev (collect_loop w results input_path output).
Proof.
  unfold collect_loop. apply traced_for_each. intros r.
  unfold collect_one. apply traced_bind; [apply traced_future_result|].
  intros [[input_file status] [text|]]; [|by apply traced_print].
  unfold write_tei.
  destruct (oserror w _) eqn:Hos.
  - apply traced_bind; [|intros _; by apply traced_print].
    destruct (failed_write w _ text) as [remains|] eqn:Hfw; [|apply traced_ret].
    intros fs r' fs' t [= <- <- <-]. repeat constructor; cbn; eauto.
  - intros fs r' fs' t [= <- <- <-]. by repeat constructor.
Qed.

Lemma process_batch_traced fuel input_files input_path output n :
  traced ev (process_batch fuel w self service input_files input_path output n
               force verbose).
Proof.
  unfold process_batch. apply traced_bind.
  { apply traced_when. intros Hv. by apply traced_print. }
  intros _. apply traced_bind.
  { destruct (n <=? 0); [apply traced_raise|apply traced_ret]. }
  intros _. apply traced_bind; [apply submit_loop_traced|].
  intros results. apply collect_loop_traced.
Qed.

End Footprint.

Lemma batch_event_run_event w self service force verbose e :
  batch_event w self service force verbose e ->
  run_event w self service force verbose e.
Proof. destruct e as [| | |[]| |]; done. Qed.

Lemma progress_line_traced w self service force verbose nb :
  traced (run_event w self service force verbose) (progress_line w nb).
Proof.
  unfold progress_line.
  destruct (_ =? 0); [apply traced_raise|by apply traced_print].
Qed.

Lemma process_with_traced fuel w self service input_path output n force verbose :
  traced (run_event w self service force verbose)
    (process_with fuel w self service input_path output n force verbose).
Proof.
  assert (forall l,
            traced (run_event w self service force verbose)
              (process_batch fuel w self service l input_path output n
                 force verbose)) as Hbatch.
  { intros l. eapply traced_impl; [|apply process_batch_traced].
    apply batch_event_run_event. }
  unfold process_with. apply traced_bind; [by apply traced_print|].
  intros _. apply traced_bind.
  - apply traced_for_fold. intros st [[dirpath dirnames] filenames].
    apply traced_for_fold. intros [input_files nb_total] filename.
    unfold process_file. destruct (matches service filename); [|apply traced_ret].
    apply traced_bind.
    { apply traced_when. intros Hv. by apply traced_print. }
    intros _. destruct (_ =? _); [|apply traced_ret].
    apply traced_bind; [apply Hbatch|]. intros _.
    apply traced_bind; [apply progress_line_traced|]. intros _.
    apply traced_ret.
  - intros st. unfold last_batch.
    destruct (Nat.ltb _ _); [apply Hbatch|apply traced_ret].
Qed.



(** ** A batch, from its two loops *)

(** [process_batch] as the sequence of its parts: the line of the verbose
    mode, the check of the pool size, the submissions, the collection. *)
Lemma process_batch_eq fuel w self service input_files input_path output n
    force verbose fs :
  process_batch fuel w self service input_files input_path output n
    force verbose fs
  = let hdr := if verbose then [EvPrint (MsgBatch (length input_files))] else [] in
    if n <=? 0 then Some (Exc ValueError, fs, hdr)
    else match submit_loop fuel w self service input_files input_path output
                 force fs with
         | None => None
         | Some (Exc e, fs1, t1) => Some (Exc e, fs1, hdr ++ t1)
         | Some (Ok results, fs1, t1) =>
             match collect_loop w results input_path output fs1 with
             | None => None
             | Some (r, fs2, t2) => Some (r, fs2, hdr ++ t1 ++ t2)
             end
         end.
Proof.
  unfold process_batch, bind, when, print, emit, ret, raise.
  destruct verbose, (n <=? 0); cbn; try done;
    destruct (submit_loop _ _ _ _ _ _ _ _ _) as [[[[results|e] fs1] t1]|];
    try done;
    by destruct (collect_loop _ _ _ _ _) as [[[r fs2] t2]|].
Qed.

(** *** Requests come before results *)

(** The collection does not pause. *)
Lemma collect_fold_sleeps w input_path output l :
  forall fs r fs' t,
    for_each l (collect_one w input_path output) fs = Some (r, fs', t) ->
    sleeps t = [].
Proof.
  intros fs r fs' t Hrun.
  pose proof (traced_for_each
                (fun e => match e with EvSleep _ => False | _ => True end)
                l (collect_one w input_path output)) as Htr.
  assert (Forall (fun e => match e with EvSleep _ => False | _ => True end) t)
    as Ht.
  { eapply Htr; [|exact Hrun]. intros fut fs1 r1 fs1' t1.
    rewrite collect_one_eq.
    destruct fut as [[[f st] [text|]]|e]; cbn [collect_event]; cbv zeta;
      [destruct (oserror w _); [destruct (failed_write w _ _)|]|..];
      intros [= <- <- <-]; by repeat constructor. }
  clear Hrun. induction Ht as [|e t He _ IH]; [done|]. by destruct e.
Qed.

(** X5. A batch sends all its requests before it looks at any result: its
    trace splits into a first part without a write and without a report of
    an outcome, and a second part without a request and without a pause. The
    first part holds the request of every file that is not skipped, also
    when the batch then ends with an exception: the request of one file is
    never prevented by the failure of another file of the batch. *)
Theorem requests_come_before_results fuel w self service input_files input_path
    output n force verbose fs r fs' t :
  0 < n ->
  process_batch fuel w self service input_files input_path output n
    force verbose fs = Some (r, fs', t) ->
  exists t1 t2,
    t = t1 ++ t2
    /\ (written t1 = [] /\ failed t1 = [] /\ write_failures t1 = [])
    /\ (posted t2 = [] /\ sleeps t2 = [])
    /\ forall f, f ∈ input_files ->
         force = true \/ fs !! _output_file_name w f input_path output = None ->
         (worker_url self service, f) ∈ posted t1.
Proof.
  intros Hn Hrun. rewrite process_batch_eq in Hrun. cbv zeta in Hrun.
  destruct (Z.leb_spec n 0) as [|_]; [lia|].
  destruct (submit_loop _ _ _ _ _ _ _ _ _) as [[[[results|e] fs1] t1]|] eqn:Hsub;
    [| |done]; unfold submit_loop in Hsub.
  2: { by destruct (submit_fold _ _ _ _ _ _ _ _ _ _ _ _ _ Hsub)
         as (_ & _ & _ & _ & news & [=] & _). }
  destruct (collect_loop _ _ _ _ _) as [[[r2 fs2] t2]|] eqn:Hcol; [|done].
  injection Hrun as -> -> <-. unfold collect_loop in Hcol.
  destruct (submit_fold _ _ _ _ _ _ _ _ _ _ _ _ _ Hsub)
    as (-> & (Hw & Hf & Hwf & _) & _ & Hall & _).
  destruct (collect_fold _ _ _ _ _ _ _ _ Hcol) as (_ & Hp & _).
  exists ((if verbose then [EvPrint (MsgBatch (length input_files))] else [])
          ++ t1), t2.
  split; [by rewrite app_assoc|].
  rewrite written_app, failed_app, write_failures_app, posted_app, Hw, Hf, Hwf.
  split; [by destruct verbose|].
  split; [split; [done|by eapply collect_fold_sleeps]|].
  intros f Hin Hd. apply elem_of_app. right.
  apply Hall, dispatched_elem. by split.
Qed.

Lemma requests_come_before_results_witness :
  exists t1 t2,
    [EvPost Sample.pdf_url "/in/a.pdf" false 60; EvPrint MsgTimeout;
     EvPost Sample.pdf_url "/in/b.pdf" false 60] = t1 ++ t2
    /\ (written t1 = [] /\ failed t1 = [] /\ write_failures t1 = [])
    /\ (posted t2 = [] /\ sleeps t2 = [])
    /\ forall f, f ∈ ["/in/a.pdf"; "/in/b.pdf"] ->
         true = true
         \/ (∅ : files) !! _output_file_name Sample.one_timeout f "/in" None = None ->
         (worker_url Sample.client "processDataseerPDF", f) ∈ posted t1.
Proof.
  apply (requests_come_before_results 1 Sample.one_timeout Sample.client
           "processDataseerPDF" ["/in/a.pdf"; "/in/b.pdf"] "/in" None 10 true
           false ∅ (Exc UnboundLocalError) ∅).
  - reflexivity.
  - vm_compute. reflexivity.
Defined.

(** *** Every file of a completed batch is accounted for *)

(** A collection that completes reports every outcome without a body and
    every write that failed. *)
Lemma collect_fold_reports w input_path output l :
  forall fs fs' t,
    for_each l (collect_one w input_path output) fs = Some (Ok tt, fs', t) ->
    (forall f st, Ok (f, st, None) ∈ l -> (f, st) ∈ failed t)
    /\ (forall f st text,
          Ok (f, st, Some text) ∈ l ->
          oserror w (_output_file_name w f input_path output) = true ->
          _output_file_name w f input_path output ∈ write_failures t).
Proof.
  induction l as [|fut l IH]; intros fs fs' t.
  { intros _. split; by intros * ?%elem_of_nil. }
  cbn [for_each].
  intros [(e & _ & [=])|([] & fs1 & t1 & t2 & H1 & H2 & ->)]%bind_Some.
  destruct (IH _ _ _ H2) as [Hf Hwf]. rewrite collect_one_eq in H1.
  split.
  - intros f st [<-|Hin]%elem_of_cons; rewrite failed_app; apply elem_of_app.
    + left. injection H1 as _ <-. by apply list_elem_of_singleton.
    + right. by apply Hf.
  - intros f st text [<-|Hin]%elem_of_cons Hos;
      rewrite write_failures_app; apply elem_of_app.
    + left. cbn [collect_event] in H1. cbv zeta in H1. rewrite Hos in H1.
      injection H1 as _ <-. rewrite write_failures_app. apply elem_of_app.
      right. by apply list_elem_of_singleton.
    + right. by eapply Hwf.
Qed.

(** Without the force flag, the submissions announce every file whose output
    exists. *)
Lemma submit_fold_skips fuel w self service input_path output input_files :
  forall acc fs r fs' t,
    for_fold input_files
      (submit_one fuel w self service input_path output false) acc fs
    = Some (r, fs', t) ->
    forall f,
      f ∈ input_files ->
      is_Some (fs !! _output_file_name w f input_path output) ->
      EvPrint (MsgSkipping (_output_file_name w f input_path output)) ∈ t.
Proof.
  induction input_files as [|f0 l IH]; intros acc fs r fs' t Hrun f Hf Hsome.
  { by apply elem_of_nil in Hf. }
  cbn [for_fold] in Hrun.
  apply bind_Some in Hrun as [(e & He & _)|(a & fs1 & t1 & t2 & H1 & H2 & ->)].
  { rewrite submit_one_eq in He. destruct (_ || _)%bool; [|done].
    by destruct (selected_process _ _ _ _ _ _ _ _ _) as [[[? ?] ?]|]. }
  rewrite submit_one_eq in H1.
  assert (fs1 = fs) as ->.
  { destruct (_ || _)%bool; [|by injection H1 as _ <- _].
    destruct (selected_process self service fuel w self service f0 0 fs)
      as [[[fut fs0] tf]|] eqn:Hw; [|done].
    injection H1 as _ <- _.
    by destruct (selected_process_inv _ _ _ _ _ _ _ _ _ _ Hw) as (-> & _). }
  apply elem_of_app. apply elem_of_cons in Hf as [->|Hf].
  - left. rewrite bool_decide_eq_true_2 in H1 by done. cbn in H1.
    injection H1 as _ <-. by apply list_elem_of_singleton.
  - right. by eapply IH.
Qed.

(** A longer trace accounts for what a part of it accounts for. *)
Lemma accounted_app_l w self service input_path output t0 t f :
  accounted w self service input_path output t f ->
  accounted w self service input_path output (t0 ++ t) f.
Proof.
  unfold accounted. cbv zeta.
  rewrite failed_app, written_app, write_failures_app.
  destruct (requests_post _ _ _ _) as [status_code text|e]; [|done].
  destruct (_ =? _); [destruct (oserror _ _)|];
    intros H; apply elem_of_app; by right.
Qed.

Lemma accounted_app_r w self service input_path output t0 t f :
  accounted w self service input_path output t f ->
  accounted w self service input_path output (t ++ t0) f.
Proof.
  unfold accounted. cbv zeta.
  rewrite failed_app, written_app, write_failures_app.
  destruct (requests_post _ _ _ _) as [status_code text|e]; [|done].
  destruct (_ =? _); [destruct (oserror _ _)|];
    intros H; apply elem_of_app; by left.
Qed.

(** A batch that completes has skipped or accounted for each of its files. *)
Lemma process_batch_accounts fuel w self service input_files
    input_path output n force verbose fs fs' t :
  hands_back_all w ->
  process_batch fuel w self service input_files input_path output n
    force verbose fs = Some (Ok tt, fs', t) ->
  forall f, f ∈ input_files ->
    let filename := _output_file_name w f input_path output in
    if (negb force && bool_decide (is_Some (fs !! filename)))%bool then
      EvPrint (MsgSkipping filename) ∈ t
    else accounted w self service input_path output t f.
Proof.
  intros Hback Hrun f Hf filename. rewrite process_batch_eq in Hrun.
  cbv zeta in Hrun. destruct (n <=? 0); [done|].
  destruct (submit_loop _ _ _ _ _ _ _ _ _) as [[[[results|e] fs1] t1]|] eqn:Hsub;
    [|done..].
  destruct (collect_loop _ _ _ _ _) as [[[r fs2] t2]|] eqn:Hcol; [|done].
  injection Hrun as -> -> <-.
  unfold submit_loop in Hsub. unfold collect_loop in Hcol.
  destruct (_ && _)%bool eqn:Hskip.
  - apply andb_true_iff in Hskip as [Hforce Hsome].
    destruct force; [done|]. apply bool_decide_eq_true in Hsome.
    apply elem_of_app. right. apply elem_of_app. left.
    by eapply submit_fold_skips.
  - destruct (submit_fold _ _ _ _ _ _ _ _ _ _ _ _ _ Hsub)
      as (-> & _ & _ & _ & news & [= ->] & HF).
    destruct (collect_fold _ _ _ _ _ _ _ _ Hcol)
      as (_ & _ & _ & _ & _ & _ & Hok).
    destruct (Hok eq_refl) as [Hall Hdone].
    destruct (collect_fold_reports _ _ _ _ _ _ _ Hcol) as [Hfailed Hwf].
    assert (f ∈ dispatched w fs input_path output force input_files) as Hd.
    { apply dispatched_elem. split; [done|].
      destruct force; [by left|right]. cbn in Hskip.
      apply bool_decide_eq_false in Hskip.
      destruct (fs !! _) eqn:Hl; [|done]. destruct Hskip. eauto. }
    destruct (Forall2_elem_of_l _ _ _ _ HF Hd) as (fut & Hfut & tf & Hw).
    rewrite <- (Hback news) in Hfut.
    apply selected_process_answer in Hw.
    do 2 apply accounted_app_l. unfold accounted. cbv zeta. fold filename.
    destruct (requests_post w (worker_url self service) f 0)
      as [status_code text|e].
    2: { rewrite Forall_forall in Hall. destruct (Hall _ Hfut) as [v ->]. done. }
    subst fut. unfold terminal_outcome in Hfut.
    destruct (status_code =? 200).
    + destruct (oserror w filename) eqn:Hos.
      * by eapply Hwf.
      * by eapply Hdone.
    + by apply Hfailed.
Qed.

(** Handing the futures back in the reverse order hands each one back once. *)
Lemma hands_back_reversed (w : world) :
  (forall l, as_completed w l = rev l) -> hands_back_all w.
Proof. intros H l. rewrite H. symmetry. apply Permutation_rev. Qed.

(** X6. A batch that ends without an exception leaves the files as they
    were but for its writes and for what its failed writes left of the
    files they had opened, and its trace accounts for each of its input
    files, whatever the order in which the futures came back. A file whose
    output exists is, without the force flag, announced as skipped. Every
    other file is accounted for according to the first reply to its
    request: for 200 the text is written at the derived path, or the failed
    write is reported; for another status the failure is reported with the
    status (503 also, after the retries). No first request of such a batch
    has failed. *)
Theorem completed_batch_accounts_for_every_file fuel w self service input_files
    input_path output n force verbose fs fs' t :
  hands_back_all w ->
  process_batch fuel w self service input_files input_path output n
    force verbose fs = Some (Ok tt, fs', t) ->
  fs' = apply_writes t fs
  /\ forall f, f ∈ input_files ->
       let filename := _output_file_name w f input_path output in
       if (negb force && bool_decide (is_Some (fs !! filename)))%bool then
         EvPrint (MsgSkipping filename) ∈ t
       else
         match requests_post w (worker_url self service) f 0 with
         | Response status_code text =>
             if status_code =? 200 then
               if oserror w filename then filename ∈ write_failures t
               else (filename, text) ∈ written t
             else (f, status_code) ∈ failed t
         | Raises _ => False
         end.
Proof.
  intros Hback Hrun. split.
  - by destruct (process_batch_spec _ _ _ _ _ _ _ _ _ _ _ _ _ _ Hback Hrun).
  - apply (process_batch_accounts _ _ _ _ _ _ _ _ _ _ _ _ _ Hback Hrun).
Qed.

Lemma completed_batch_accounts_for_every_file_witness :
  (<["/in/c.dataseer.tei.xml" := ""]>
     ({["/in/a.dataseer.tei.xml" := "old"]} : files))
  = apply_writes
      [EvPrint (MsgSkipping "/in/a.dataseer.tei.xml");
       EvPost Sample.pdf_url "/in/b.pdf" false 60;
       EvPrint (MsgServerError 500 "/in/b.pdf");
       EvPost Sample.pdf_url "/in/c.pdf" false 60;
       EvTruncate "/in/c.dataseer.tei.xml" "";
       EvPrint (MsgWriteFailed "/in/c.dataseer.tei.xml");
       EvPrint (MsgFailed "/in/b.pdf" 500)]
      {["/in/a.dataseer.tei.xml" := "old"]}
  /\ "/in/c.dataseer.tei.xml" ∈
       write_failures
         [EvPrint (MsgSkipping "/in/a.dataseer.tei.xml");
          EvPost Sample.pdf_url "/in/b.pdf" false 60;
          EvPrint (MsgServerError 500 "/in/b.pdf");
          EvPost Sample.pdf_url "/in/c.pdf" false 60;
          EvTruncate "/in/c.dataseer.tei.xml" "";
          EvPrint (MsgWriteFailed "/in/c.dataseer.tei.xml");
          EvPrint (MsgFailed "/in/b.pdf" 500)].
Proof.
  pose proof (completed_batch_accounts_for_every_file 1 Sample.mixed_emptied
                Sample.client "processDataseerPDF"
                ["/in/a.pdf"; "/in/b.pdf"; "/in/c.pdf"] "/in" None 10 false false
                {["/in/a.dataseer.tei.xml" := "old"]}
                (<["/in/c.dataseer.tei.xml" := ""]>
                   {["/in/a.dataseer.tei.xml" := "old"]})
                [EvPrint (MsgSkipping "/in/a.dataseer.tei.xml");
                 EvPost Sample.pdf_url "/in/b.pdf" false 60;
                 EvPrint (MsgServerError 500 "/in/b.pdf");
                 EvPost Sample.pdf_url "/in/c.pdf" false 60;
                 EvTruncate "/in/c.dataseer.tei.xml" "";
                 EvPrint (MsgWriteFailed "/in/c.dataseer.tei.xml");
                 EvPrint (MsgFailed "/in/b.pdf" 500)]
                (hands_back_reversed Sample.mixed_emptied (fun l => eq_refl)))
    as H.
  destruct H as [H1 H2]; [vm_compute; reflexivity|].
  split; [exact H1|]. apply (H2 "/in/c.pdf").
  apply elem_of_cons. right. apply elem_of_cons. right.
  apply elem_of_cons. by left.
Defined.

(** *** The order of completion *)

(** The workers and the submissions do not read the order of completion. *)
Lemma process_tei_order fuel w order self service file k :
  process_tei fuel (with_as_completed w order) self service file k
  = process_tei fuel w self service file k.
Proof.
  revert k. induction fuel as [|fuel IH]; intros k; [done|].
  cbn [process_tei requests_post with_as_completed]. by rewrite IH.
Qed.

Lemma selected_process_order fuel w order self service file k :
  selected_process self service fuel (with_as_completed w order) self service file k
  = selected_process self service fuel w self service file k.
Proof.
  unfold selected_process. destruct (Str.eqb service (endpoint_pdf self));
    [|apply process_tei_order].
  unfold process_pdf. cbn [requests_post with_as_completed].
  by rewrite process_tei_order.
Qed.

(** Loops with bodies that do the same do the same. *)
Lemma for_fold_ext {A S} (l : list A) (b1 b2 : S -> A -> M S) s fs :
  (forall s x fs, b1 s x fs = b2 s x fs) ->
  for_fold l b1 s fs = for_fold l b2 s fs.
Proof.
  intros Hb. revert s fs. induction l as [|x l IH]; intros s fs; [done|].
  cbn [for_fold]. unfold bind. rewrite Hb.
  destruct (b2 s x fs) as [[[[s'|e] fs1] t1]|]; [|done..]. by rewrite IH.
Qed.

Lemma for_each_ext {A} (l : list A) (b1 b2 : A -> M unit) fs :
  (forall x fs, b1 x fs = b2 x fs) -> for_each l b1 fs = for_each l b2 fs.
Proof.
  intros Hb. revert fs. induction l as [|x l IH]; intros fs; [done|].
  cbn [for_each]. unfold bind. rewrite Hb.
  destruct (b2 x fs) as [[[[[]|e] fs1] t1]|]; [|done..]. by rewrite IH.
Qed.

Lemma submit_loop_order fuel w order self service input_files input_path output
    force fs :
  submit_loop fuel (with_as_completed w order) self service input_files
    input_path output force fs
  = submit_loop fuel w self service input_files input_path output force fs.
Proof.
  unfold submit_loop. apply for_fold_ext. intros results f fs1.
  rewrite !submit_one_eq. by rewrite selected_process_order.
Qed.

Lemma collect_one_order w order input_path output r fs :
  collect_one (with_as_completed w order) input_path output r fs
  = collect_one w input_path output r fs.
Proof. by rewrite !collect_one_eq. Qed.

(** The collection of futures that all hold an outcome: the events of each,
    in order. *)
Lemma collect_outcomes w input_path output vs :
  forall fs,
    for_each (map Ok vs) (collect_one w input_path output) fs
    = Some (Ok tt,
            apply_writes (flat_map (collect_event w input_path output) vs) fs,
            flat_map (collect_event w input_path output) vs).
Proof.
  induction vs as [|v vs IH]; intros fs; [done|].
  cbn [map for_each flat_map]. unfold bind. rewrite collect_one_eq, IH.
  by rewrite apply_writes_app.
Qed.

(** Futures that all hold an outcome are the outcomes they hold. *)
Lemma all_ok_map (l : list future) :
  Forall (fun fut => exists v, fut = Ok v) l -> exists vs, l = map Ok vs.
Proof.
  induction 1 as [|fut l [v ->] _ [vs ->]]; [by exists []|]. by exists (v :: vs).
Qed.

Lemma map_Ok_inj (l1 l2 : list outcome) :
  map (@Ok outcome) l1 = map Ok l2 -> l1 = l2.
Proof.
  revert l2. induction l1 as [|x l1 IH]; intros [|y l2]; try done.
  cbn. intros [= -> ?]. f_equal. auto.
Qed.

Lemma map_Ok_perm (l1 l2 : list outcome) :
  map (@Ok outcome) l1 ≡ₚ map Ok l2 -> l1 ≡ₚ l2.
Proof.
  intros H. apply Permutation_map_inv in H as (l3 & Heq & Hp).
  apply map_Ok_inj in Heq as <-. done.
Qed.

(** Writes at distinct paths can be done in any order, failed ones
    included. *)
Lemma apply_writes_perm t1 t2 :
  t1 ≡ₚ t2 ->
  NoDup (touched t1) ->
  forall fs, apply_writes t1 fs = apply_writes t2 fs.
Proof.
  induction 1 as [|e t1 t2 Hp IH|e1 e2 t|t1 t2 t3 Hp1 IH1 Hp2 IH2]; intros Hnd fs.
  - done.
  - cbn. apply IH. destruct e; cbn in Hnd; try done;
      by apply NoDup_cons in Hnd as [_ ?].
  - destruct e1 as [| | | |p1 x1|p1 x1], e2 as [| | | |p2 x2|p2 x2]; cbn;
      try done;
      (rewrite insert_insert_ne; [done|]; cbn in Hnd;
       apply NoDup_cons in Hnd as [Hnotin _]; intros ->; apply Hnotin;
       by apply elem_of_cons; left).
  - rewrite IH1 by done. apply IH2.
    assert (touched t1 ≡ₚ touched t2) as Hw by (unfold touched; by rewrite Hp1).
    by rewrite <- Hw.
Qed.

(** The collection touches derived paths of the files of its outcomes, at
    most once for each outcome. *)
Lemma touched_collect_event w input_path output vs :
  touched (flat_map (collect_event w input_path output) vs)
    `sublist_of` map (fun v : outcome =>
                        _output_file_name w v.1.1 input_path output) vs.
Proof.
  induction vs as [|[[f st] text] vs IH]; [done|].
  cbn [map flat_map collect_event]. cbv zeta. destruct text as [text|].
  - destruct (oserror w _); [destruct (failed_write w _ _)|]; cbn;
      by constructor.
  - cbn. by constructor.
Qed.

Lemma dispatched_sublist w fs input_path output force input_files :
  dispatched w fs input_path output force input_files `sublist_of` input_files.
Proof.
  unfold dispatched. induction input_files as [|f l IH]; [done|].
  cbn [List.filter]. destruct (_ || _)%bool; by constructor.
Qed.

(** The outcomes of the submitted tasks name the dispatched files, in order. *)
Lemma submitted_files fuel w self service fs (tasks : list string)
    (vs : list outcome) :
  Forall2 (fun f fut => exists tf,
             selected_process self service fuel w self service f 0 fs
             = Some (fut, fs, tf)) tasks (map Ok vs) ->
  map (fun v : outcome => v.1.1) vs = tasks.
Proof.
  revert tasks. induction vs as [|[[f st] text] vs IH]; intros tasks H.
  - by apply Forall2_nil_inv_r in H.
  - cbn [map] in H. apply Forall2_cons_inv_r in H as (f0 & tasks' & [tf Hrun] & H & ->).
    cbn [map fst]. f_equal; [|by apply IH].
    destruct (selected_process_inv _ _ _ _ _ _ _ _ _ _ Hrun) as (_ & _ & _ & Hfile).
    by apply (Hfile f st text).
Qed.

(** X7. The order in which the finished futures come back does not matter
    for a batch that completes, when the derived output paths of its input
    files are distinct: with any other order the batch completes as well,
    leaves the same files, and does the same things, in another order. *)
Theorem completion_order_is_immaterial fuel w order self service input_files
    input_path output n force verbose fs fs' t :
  hands_back_all w ->
  (forall results, order results ≡ₚ results) ->
  NoDup (map (fun f => _output_file_name w f input_path output) input_files) ->
  process_batch fuel w self service input_files input_path output n
    force verbose fs = Some (Ok tt, fs', t) ->
  exists t',
    process_batch fuel (with_as_completed w order) self service input_files
      input_path output n force verbose fs = Some (Ok tt, fs', t')
    /\ t' ≡ₚ t.
Proof.
  intros Hback Horder Hnd Hrun. rewrite process_batch_eq in *.
  cbv zeta in *. destruct (n <=? 0); [done|].
  rewrite submit_loop_order.
  destruct (submit_loop _ _ _ _ _ _ _ _ _) as [[[[results|e] fs1] t1]|] eqn:Hsub;
    [|done..].
  destruct (collect_loop w _ _ _ _) as [[[r fs2] t2]|] eqn:Hcol; [|done].
  injection Hrun as -> -> <-.
  unfold submit_loop in Hsub. unfold collect_loop in *.
  cbn [as_completed with_as_completed].
  destruct (submit_fold _ _ _ _ _ _ _ _ _ _ _ _ _ Hsub)
    as (-> & _ & _ & _ & news & [= ->] & HF).
  destruct (collect_fold _ _ _ _ _ _ _ _ Hcol)
    as (_ & _ & _ & _ & _ & _ & Hok).
  destruct (Hok eq_refl) as [Hall _].
  destruct (all_ok_map _ Hall) as [vs1 Hvs1].
  assert (Forall (fun fut : future => exists v, fut = Ok v) news) as Hnews
    by (by rewrite <- (Hback news)).
  destruct (all_ok_map _ Hnews) as [vs0 ->].
  assert (Forall (fun fut : future => exists v, fut = Ok v) (order (map Ok vs0)))
    as Hall2 by (by rewrite (Horder _)).
  destruct (all_ok_map _ Hall2) as [vs2 Hvs2].
  assert (vs1 ≡ₚ vs0) as Hp1.
  { apply map_Ok_perm. by rewrite <- Hvs1, (Hback _). }
  assert (vs2 ≡ₚ vs0) as Hp2.
  { apply map_Ok_perm. by rewrite <- Hvs2, (Horder _). }
  rewrite Hvs1, collect_outcomes in Hcol. injection Hcol as <- <-.
  rewrite (for_each_ext _ _ (collect_one w input_path output))
    by (intros; apply collect_one_order).
  rewrite Hvs2, collect_outcomes.
  assert (flat_map (collect_event w input_path output) vs2
          ≡ₚ flat_map (collect_event w input_path output) vs1) as Hp.
  { apply Permutation_flat_map. by rewrite Hp1, Hp2. }
  eexists. split.
  - f_equal. f_equal. f_equal. apply apply_writes_perm; [done|].
    eapply sublist_NoDup; [|apply touched_collect_event].
    rewrite Hp2.
    rewrite <- (map_map (fun v : outcome => v.1.1)
                  (fun f => _output_file_name w f input_path output)).
    rewrite (submitted_files _ _ _ _ _ _ _ HF).
    eapply sublist_NoDup; [exact Hnd|].
    apply (fmap_sublist (fun f => _output_file_name w f input_path output)),
      dispatched_sublist.
  - by rewrite Hp.
Qed.

Lemma completion_order_is_immaterial_witness :
  exists t',
    process_batch 1 (with_as_completed Sample.annotating (@rev future))
      Sample.client "processDataseerPDF" ["/in/a.pdf"; "/in/b.pdf"] "/in" None
      10 true false ∅
    = Some (Ok tt,
            <["/in/b.dataseer.tei.xml" := "<TEI/>"]>
              (<["/in/a.dataseer.tei.xml" := "<TEI/>"]> ∅), t')
    /\ t' ≡ₚ [EvPost Sample.pdf_url "/in/a.pdf" false 60;
              EvPost Sample.pdf_url "/in/b.pdf" false 60;
              EvWrite "/in/a.dataseer.tei.xml" "<TEI/>";
              EvWrite "/in/b.dataseer.tei.xml" "<TEI/>"].
Proof.
  apply (completion_order_is_immaterial 1 Sample.annotating (@rev future)
           Sample.client "processDataseerPDF" ["/in/a.pdf"; "/in/b.pdf"] "/in"
           None 10 true false ∅).
  - exact (hands_back_in_order Sample.annotating (fun l => eq_refl)).
  - intros results. symmetry. apply Permutation_rev.
  - vm_compute. apply NoDup_cons. split; [|apply NoDup_singleton].
    intros H%list_elem_of_singleton. discriminate.
  - vm_compute. reflexivity.
Defined.

(** When two files of a batch have the same derived path, the text that the
    path holds in the end is the one of the future that came back last. *)
Example colliding_outputs_follow_the_order :
  process_batch 1 Sample.colliding Sample.client "processDataseerPDF"
    ["/in/a.pdf"; "/in/a.pdf.gz"] "/in" None 10 true false ∅
  = Some (Ok tt, {[ "/in/a.dataseer.tei.xml" := "<B/>" ]},
          [EvPost Sample.pdf_url "/in/a.pdf" false 60;
           EvPost Sample.pdf_url "/in/a.pdf.gz" true 60;
           EvWrite "/in/a.dataseer.tei.xml" "<A/>";
           EvWrite "/in/a.dataseer.tei.xml" "<B/>"])
  /\ process_batch 1 (with_as_completed Sample.colliding (@rev future))
       Sample.client "processDataseerPDF"
       ["/in/a.pdf"; "/in/a.pdf.gz"] "/in" None 10 true false ∅
     = Some (Ok tt, {[ "/in/a.dataseer.tei.xml" := "<A/>" ]},
             [EvPost Sample.pdf_url "/in/a.pdf" false 60;
              EvPost Sample.pdf_url "/in/a.pdf.gz" true 60;
              EvWrite "/in/a.dataseer.tei.xml" "<B/>";
              EvWrite "/in/a.dataseer.tei.xml" "<A/>"]).
Proof. split; vm_compute; reflexivity. Qed.

(** ** The verbose mode *)

(** Dropping the lines of the verbose mode follows the structure of the
    methods. *)
Lemma quiet_app t1 t2 : quiet (t1 ++ t2) = quiet t1 ++ quiet t2.
Proof. apply List.filter_app. Qed.

Lemma quiet_id t : Forall (fun e => verbose_line e = false) t -> quiet t = t.
Proof.
  induction 1 as [|e t He _ IH]; [done|]. unfold quiet in *. cbn.
  by rewrite He, IH.
Qed.

Lemma batch_event_quiet w self service force e :
  batch_event w self service force false e -> verbose_line e = false.
Proof. destruct e as [| | |[]| |]; done. Qed.

Lemma quiets_ret {A} (a : A) : quiets (ret a) (ret a).
Proof. done. Qed.

Lemma quiets_emit e : verbose_line e = false -> quiets (emit e) (emit e).
Proof. intros He fs. unfold emit, quiet. cbn. by rewrite He. Qed.

Lemma quiets_progress_line w nb : quiets (progress_line w nb) (progress_line w nb).
Proof.
  unfold progress_line. destruct (_ =? 0); [done|by apply quiets_emit].
Qed.

Lemma quiets_when m : quiets (when true (print (MsgFile m))) (when false (print (MsgFile m))).
Proof. done. Qed.

Lemma quiets_bind {A B} (m1 m2 : M A) (k1 k2 : A -> M B) :
  quiets m1 m2 -> (forall a, quiets (k1 a) (k2 a)) ->
  quiets (x <- m1 ;; k1 x) (x <- m2 ;; k2 x).
Proof.
  intros Hm Hk fs. unfold bind. rewrite (Hm fs).
  destruct (m1 fs) as [[[[a|e] fs1] t1]|]; [|done..].
  rewrite (Hk a fs1).
  destruct (k1 a fs1) as [[[r fs2] t2]|]; [|done].
  by rewrite quiet_app.
Qed.

Lemma quiets_for_fold {A S} (l : list A) (b1 b2 : S -> A -> M S) s :
  (forall s x, quiets (b1 s x) (b2 s x)) ->
  quiets (for_fold l b1 s) (for_fold l b2 s).
Proof.
  intros Hb. revert s. induction l as [|x l IH]; intros s; cbn [for_fold].
  - apply quiets_ret.
  - by apply quiets_bind.
Qed.

(** The verbose mode adds one line to a batch. *)
Lemma process_batch_quiets fuel w self service input_files input_path output n
    force :
  quiets
    (process_batch fuel w self service input_files input_path output n force true)
    (process_batch fuel w self service input_files input_path output n force false).
Proof.
  intros fs.
  pose proof (process_batch_traced w self service force false fuel input_files
                input_path output n fs) as Htr.
  rewrite !process_batch_eq in *. cbv zeta iota in *.
  destruct (n <=? 0); [done|].
  destruct (submit_loop _ _ _ _ _ _ _ _ _) as [[[[results|e] fs1] t1]|]; [| |done].
  - destruct (collect_loop _ _ _ _ _) as [[[r fs2] t2]|]; [|done].
    cbn [app] in *. unfold quiet at 1. cbn [List.filter verbose_line negb].
    fold (quiet (t1 ++ t2)). rewrite quiet_id; [done|].
    eapply Forall_impl; [by eapply Htr|]. apply batch_event_quiet.
  - cbn [app] in *. unfold quiet at 1. cbn [List.filter verbose_line negb].
    fold (quiet t1). rewrite quiet_id; [done|].
    eapply Forall_impl; [by eapply Htr|]. apply batch_event_quiet.
Qed.

Lemma process_with_quiets fuel w self service input_path output n force :
  quiets
    (process_with fuel w self service input_path output n force true)
    (process_with fuel w self service input_path output n force false).
Proof.
  unfold process_with. apply quiets_bind; [by apply quiets_emit|].
  intros _. apply quiets_bind.
  - apply quiets_for_fold. intros st [[dirpath dirnames] filenames].
    apply quiets_for_fold. intros [input_files nb_total] filename.
    unfold process_file. destruct (matches service filename); [|apply quiets_ret].
    apply quiets_bind; [apply quiets_when|].
    intros _. destruct (_ =? _); [|apply quiets_ret].
    apply quiets_bind; [apply process_batch_quiets|]. intros _.
    apply quiets_bind; [apply quiets_progress_line|]. intros _.
    apply quiets_ret.
  - intros st. unfold last_batch.
    destruct (Nat.ltb _ _); [apply process_batch_quiets|apply quiets_ret].
Qed.

(** X8. The verbose mode only adds lines. A call of [process] without the
    [verbose] argument is the call with [verbose=False], and that call does
    what the call with [verbose=True] does (it ends the same way and leaves
    the same files), its trace being the verbose trace less the file lines
    and the batch lines. *)
Theorem verbose_only_adds_lines fuel w self service input_path output n force fs :
  process fuel w self service input_path output n force None fs
  = process fuel w self service input_path output n force (Some false) fs
  /\ process fuel w self service input_path output n force (Some false) fs
     = match process fuel w self service input_path output n force (Some true) fs with
       | None => None
       | Some (r, fs', t) => Some (r, fs', quiet t)
       end.
Proof. split; [done|]. apply process_with_quiets. Qed.

(** ** Runs *)

(** *** Runs with nothing to dispatch, and a pool that cannot exist *)

(** The file lines of the verbose mode for a batch. *)
Lemma announce_eq verbose b fs :
  announce verbose b fs
  = Some (Ok tt, fs,
          if verbose then map (fun p => EvPrint (MsgFile (snd p))) b else []).
Proof.
  unfold announce, when. destruct verbose; [|done].
  induction b as [|p b IH]; [done|].
  cbn [for_each map]. unfold bind.
  change (print (MsgFile (snd p)) fs)
    with (Some (Ok tt, fs, [EvPrint (MsgFile (snd p))])).
  cbv beta iota. by rewrite IH.
Qed.

(** No name passes the test of a service other than the two it knows. *)
Lemma unknown_service_matches_nothing service input_path t :
  service <> "processDataseerPDF" -> service <> "processDataseerTEI" ->
  matching_files service input_path t = [].
Proof.
  intros Hpdf Htei. rewrite matching_files_filter.
  induction (walked_files input_path t) as [|p l IH]; [done|].
  cbn [List.filter]. unfold matches at 1.
  by rewrite (proj2 (eqb_neq _ _) Hpdf), (proj2 (eqb_neq _ _) Htei).
Qed.

Lemma process_nothing_found fuel w self service input_path output n force
    verbose fs :
  matching_files service input_path (scandir w input_path) = [] ->
  process fuel w self service input_path output n force verbose fs
  = Some (Ok tt, fs, [EvPrint (MsgTotal 0)]).
Proof.
  intros Hnone. unfold process. rewrite process_with_batches, Hnone. done.
Qed.

(** X9. When no file of the tree passes the test of the service, [process]
    prints its first progress line and returns: no pool is created (so that
    even a pool size of zero goes unnoticed), nothing is requested and no
    file is touched. This is the case, whatever the tree, for every service
    name other than the two that the test knows. *)
Theorem nothing_found_nothing_done fuel w self service input_path output n force
    verbose fs :
  (matching_files service input_path (scandir w input_path) = [] ->
   process fuel w self service input_path output n force verbose fs
   = Some (Ok tt, fs, [EvPrint (MsgTotal 0)]))
  /\ (service <> "processDataseerPDF" -> service <> "processDataseerTEI" ->
      process fuel w self service input_path output n force verbose fs
      = Some (Ok tt, fs, [EvPrint (MsgTotal 0)])).
Proof.
  split; [apply process_nothing_found|].
  intros Hpdf Htei. apply process_nothing_found.
  by apply unknown_service_matches_nothing.
Qed.

(** X10. A pool size of zero or less is refused by the executor when the
    first batch is processed: if a file matches, [process] ends with
    [ValueError], having printed at most; nothing was requested and the files
    are as they were. *)
Theorem pool_size_is_checked_at_the_first_batch fuel w self service input_path
    output n force verbose fs :
  n <= 0 ->
  matching_files service input_path (scandir w input_path) <> [] ->
  exists t,
    process fuel w self service input_path output (Some n) force verbose fs
    = Some (Exc ValueError, fs, t)
    /\ Forall is_print t.
Proof.
  intros Hn Hfound. unfold process. rewrite process_with_batches.
  destruct (batches _ _) as [|b bs] eqn:Hbs.
  { destruct Hfound.
    pose proof (batches_from_concat (batch_size (client_config self))
                  (matching_files service input_path (scandir w input_path)) [])
      as Hc.
    unfold batches in Hbs. by rewrite Hbs in Hc. }
  cbn [run_batches default from_option id]. unfold bind at 1, print, emit.
  unfold bind at 1. rewrite announce_eq.
  unfold bind at 1, run_batch. unfold bind at 1. rewrite process_batch_eq.
  cbv zeta. rewrite (proj2 (Z.leb_le n 0) Hn).
  eexists. split; [reflexivity|].
  constructor; [done|]. apply Forall_app.
  split; destruct (default false verbose); try done; [|by repeat constructor].
  apply Forall_forall. intros e He.
  by apply list_elem_of_In, in_map_iff in He as (p & <- & _).
Qed.

Lemma pool_size_is_checked_at_the_first_batch_witness :
  exists t,
    process 0 Sample.annotating Sample.client "processDataseerPDF" "/in" None
      (Some 0) None (Some true) ∅
    = Some (Exc ValueError, ∅, t)
    /\ Forall is_print t.
Proof.
  apply (pool_size_is_checked_at_the_first_batch 0 Sample.annotating
           Sample.client "processDataseerPDF" "/in" None 0 None (Some true) ∅).
  - reflexivity.
  - vm_compute. discriminate.
Defined.

(** *** A batch size that is never reached *)

(** A size that the open batch never reaches closes no batch. *)
Lemma batches_from_single {A} (size : Z) (l acc : list A) :
  size <= 0 \/ Z.of_nat (length (acc ++ l)) < size ->
  acc ++ l <> [] ->
  batches_from size acc l = [acc ++ l].
Proof.
  revert acc. induction l as [|x l IH]; intros acc Hsize Hne;
    cbn [batches_from].
  - rewrite app_nil_r in *. by destruct acc.
  - destruct (Z.eqb_spec (Z.of_nat (length (acc ++ [x]))) size) as [Heq|_].
    { rewrite !length_app in *. cbn [length] in *. lia. }
    rewrite IH; rewrite <- ?app_assoc; done.
Qed.

Lemma bind_ret_tt (m : M unit) (nb : nat) fs :
  (nb' <- (m ;; ret nb) ;; ret tt) fs = m fs.
Proof.
  unfold bind, ret. destruct (m fs) as [[[[[]|e] fs1] t1]|]; cbn; [|done..].
  by rewrite !app_nil_r.
Qed.

(** X11. A batch is closed only when its length is the configured size. With
    a size of zero or less, or above the number of matching files, that
    never happens: all the matching files are processed as one batch, the
    last one, and no progress line follows it. *)
Theorem batch_size_never_reached_gives_one_batch fuel w self service input_path
    output n force verbose fs :
  let found := matching_files service input_path (scandir w input_path) in
  found <> [] ->
  batch_size (client_config self) <= 0
  \/ Z.of_nat (length found) < batch_size (client_config self) ->
  process fuel w self service input_path output n force verbose fs
  = (print (MsgTotal 0) ;;
     announce (default false verbose) found ;;
     process_batch fuel w self service (map input_file_of found) input_path
       output (default 10 n) (default true force) (default false verbose)) fs.
Proof.
  intros found Hne Hsize. unfold process. rewrite process_with_batches.
  fold found. unfold batches.
  rewrite (batches_from_single _ found []) by done. cbn [app run_batches].
  apply bind_ext. intros _ fs1. apply bind_ext. intros _ fs2.
  unfold run_batch.
  destruct (Z.eqb_spec (Z.of_nat (length found)) (batch_size (client_config self)))
    as [Heq|_]; [|apply bind_ret_tt].
  destruct Hsize as [Hsize|Hsize]; [|lia].
  destruct found; [done|]. cbn [length] in Heq. lia.
Qed.

Lemma batch_size_never_reached_gives_one_batch_witness :
  process 1 Sample.annotating Sample.client_unbatched "processDataseerPDF" "/in"
    None None None None ∅
  = (print (MsgTotal 0) ;;
     announce false
       (matching_files "processDataseerPDF" "/in" (scandir Sample.annotating "/in")) ;;
     process_batch 1 Sample.annotating Sample.client_unbatched
       "processDataseerPDF"
       (map input_file_of
          (matching_files "processDataseerPDF" "/in"
             (scandir Sample.annotating "/in")))
       "/in" None 10 true false) ∅.
Proof.
  apply (batch_size_never_reached_gives_one_batch 1 Sample.annotating
           Sample.client_unbatched "processDataseerPDF" "/in" None None None
           None ∅).
  - vm_compute. discriminate.
  - left. reflexivity.
Defined.

(** *** The number of batches and the progress lines *)

(** The number of batches, from an open batch below the size. *)
Lemma batches_from_length {A} (size : Z) (l acc : list A) :
  0 < size -> Z.of_nat (length acc) < size ->
  Z.of_nat (length (batches_from size acc l))
  = (Z.of_nat (length acc) + Z.of_nat (length l) + size - 1) / size.
Proof.
  intros Hsize. revert acc.
  induction l as [|x l IH]; intros acc Hacc; cbn [batches_from].
  - cbn [length]. destruct (Nat.ltb_spec 0 (length acc)) as [Hpos|Hzero].
    + cbn [length].
      apply Z.div_unique with (r := Z.of_nat (length acc) - 1); lia.
    + cbn [length]. symmetry. apply Z.div_small. lia.
  - destruct (Z.eqb_spec (Z.of_nat (length (acc ++ [x]))) size) as [Heq|Hne].
    + cbn [length]. rewrite Nat2Z.inj_succ, (IH []) by (cbn; lia).
      rewrite length_app in Heq. cbn [length] in *.
      replace (Z.of_nat (length acc) + Z.of_nat (S (length l)) + size - 1)
        with (1 * size + (Z.of_nat 0 + Z.of_nat (length l) + size - 1)) by lia.
      rewrite Z.div_add_l by lia. lia.
    + rewrite IH by (rewrite length_app in *; cbn [length] in *; lia).
      f_equal. rewrite length_app. cbn [length]. lia.
Qed.

(** The progress lines of a sequence of batches. *)
Lemma totals_app t1 t2 : totals (t1 ++ t2) = totals t1 ++ totals t2.
Proof. apply omap_app. Qed.

Lemma batch_event_totals w self service force verbose t :
  Forall (batch_event w self service force verbose) t -> totals t = [].
Proof.
  induction 1 as [|e t He _ IH]; [done|].
  destruct e as [| | |[]| |]; done.
Qed.

(** A batch of a sequence that went on: it completed, and if it had the
    configured size its progress line was printed. *)
Lemma run_batch_Ok fuel w self service input_path output n force verbose b nb
    fs nb' fs' t :
  run_batch fuel w self service input_path output n force verbose b nb fs
    = Some (Ok nb', fs', t) ->
  exists tb,
    process_batch fuel w self service (map input_file_of b) input_path output n
      force verbose fs = Some (Ok tt, fs', tb)
    /\ if Z.of_nat (length b) =? batch_size (client_config self)
       then nb' = (nb + length b)%nat
            /\ t = tb ++ [EvPrint (MsgTotal (nb + length b))]
            /\ runtime w (nb + length b) <> 0
       else nb' = nb /\ t = tb.
Proof.
  unfold run_batch.
  intros [(e & _ & [=])|([] & fs1 & tb & tp & Hb & Hp & ->)]%bind_Some.
  exists tb. destruct (_ =? _).
  - apply bind_Some in Hp as [(e & _ & [=])|([] & fs2 & t1 & t2 & H1 & H2 & ->)].
    apply progress_line_inv in H1 as (-> & [(_ & -> & Hclock)|([=] & _)]).
    injection H2 as <- <- <-. by rewrite app_nil_r.
  - injection Hp as <- <- <-. by rewrite app_nil_r.
Qed.

Lemma run_batches_totals fuel w self service input_path output n force verbose :
  forall bs nb fs fs' t,
    run_batches fuel w self service input_path output n force verbose bs nb fs
      = Some (Ok tt, fs', t) ->
    totals t = progress (batch_size (client_config self)) bs nb.
Proof.
  induction bs as [|b bs IH]; intros nb fs fs' t Hrun.
  { by injection Hrun as _ <-. }
  cbn [run_batches progress] in *. unfold bind at 1 in Hrun.
  rewrite announce_eq in Hrun.
  destruct (bind _ _ fs) as [[[r fs1] t1]|] eqn:Hrest; [|done].
  injection Hrun as -> -> <-.
  apply bind_Some in Hrest
    as [(e & _ & [=])|(nb' & fs2 & t2 & t3 & H2 & H3 & ->)].
  apply run_batch_Ok in H2 as (tb & Hb & Hshape).
  apply process_batch_traced, batch_event_totals in Hb.
  assert (totals (if verbose
                  then map (fun p : string * string => EvPrint (MsgFile p.2)) b
                  else []) = []) as Hann.
  { destruct verbose; [|done]. clear. by induction b. }
  rewrite !totals_app, Hann, (IH _ _ _ _ H3). cbn [app].
  destruct (Z.of_nat (length b) =? batch_size (client_config self)).
  - destruct Hshape as (-> & -> & _). by rewrite totals_app, Hb.
  - destruct Hshape as (-> & ->). by rewrite Hb.
Qed.

(** The totals along the cut: one for each multiple of the size reached. *)
Lemma progress_batches_from {A} (size : Z) (l acc : list A) nb :
  0 < size -> Z.of_nat (length acc) < size ->
  progress size (batches_from size acc l) nb
  = map (fun k => nb + k * Z.to_nat size)%nat
      (seq 1 ((length acc + length l) / Z.to_nat size)).
Proof.
  intros Hsize. revert acc nb.
  induction l as [|x l IH]; intros acc nb Hacc; cbn [batches_from].
  - rewrite Nat.add_0_r, Nat.div_small by lia.
    destruct (Nat.ltb 0 (length acc)); [|done]. cbn [progress].
    by destruct (Z.eqb_spec (Z.of_nat (length acc)) size); [lia|].
  - destruct (Z.eqb_spec (Z.of_nat (length (acc ++ [x]))) size) as [Heq|Hne].
    + cbn [progress]. rewrite (proj2 (Z.eqb_eq _ _) Heq).
      rewrite (IH [] _) by (cbn; lia).
      rewrite length_app in *. cbn [length] in *.
      replace (length acc + S (length l))%nat
        with (1 * Z.to_nat size + length l)%nat by lia.
      rewrite Nat.div_add_l by lia. cbn [Nat.add seq map].
      f_equal; [lia|].
      rewrite <- (seq_shift _ 1), map_map. apply map_ext. intros k. lia.
    + rewrite IH by (rewrite length_app in *; cbn [length] in *; lia).
      rewrite length_app. cbn [length]. do 3 f_equal. lia.
Qed.

(** X13. The progress lines of a run that ends without an exception, with a
    positive batch size: the first shows 0, and one follows each batch of
    the configured size, showing the number of files processed so far, a
    multiple of the size. The files of a last, smaller batch are never
    counted. *)
Theorem progress_counts_full_batches_only fuel w self service input_path output
    n force verbose fs fs' t :
  0 < batch_size (client_config self) ->
  process fuel w self service input_path output n force verbose fs
    = Some (Ok tt, fs', t) ->
  let size := Z.to_nat (batch_size (client_config self)) in
  let found := matching_files service input_path (scandir w input_path) in
  totals t = map (fun k => k * size)%nat (seq 0 (S (length found / size))).
Proof.
  intros Hsize Hrun size found.
  unfold process in Hrun. rewrite process_with_batches in Hrun.
  unfold bind at 1, print, emit in Hrun.
  destruct (run_batches _ _ _ _ _ _ _ _ _ _ _ fs) as [[[r fs1] t1]|] eqn:Hbs;
    [|done].
  injection Hrun as -> -> <-.
  apply run_batches_totals in Hbs.
  change (totals (EvPrint (MsgTotal 0) :: t1)) with (O :: totals t1).
  rewrite Hbs. unfold batches.
  rewrite progress_batches_from by (cbn; lia).
  subst size found. cbn [length Nat.add seq map]. done.
Qed.

Lemma progress_counts_full_batches_only_witness :
  totals [EvPrint (MsgTotal 0);
          EvPost Sample.pdf_url "/in/a.pdf" false 60;
          EvPost Sample.pdf_url "/in/b.pdf" false 60;
          EvWrite "/in/a.dataseer.tei.xml" "<TEI/>";
          EvWrite "/in/b.dataseer.tei.xml" "<TEI/>";
          EvPrint (MsgTotal 2);
          EvPost Sample.pdf_url "/in/sub/c.pdf.gz" true 60;
          EvWrite "/in/sub/c.dataseer.tei.xml" "<TEI/>"]
  = [0; 2]%nat.
Proof.
  apply (progress_counts_full_batches_only 1 Sample.annotating Sample.client
           "processDataseerPDF" "/in" None None None None ∅
           (<["/in/sub/c.dataseer.tei.xml" := "<TEI/>"]>
              (<["/in/b.dataseer.tei.xml" := "<TEI/>"]>
                 (<["/in/a.dataseer.tei.xml" := "<TEI/>"]> ∅)))).
  - reflexivity.
  - vm_compute. reflexivity.
Defined.

(** The batch lines of a trace. *)
Lemma batch_lines_app t1 t2 :
  batch_lines (t1 ++ t2) = batch_lines t1 ++ batch_lines t2.
Proof. apply omap_app. Qed.

Lemma batch_event_batch_lines w self service force t :
  Forall (batch_event w self service force false) t -> batch_lines t = [].
Proof.
  induction 1 as [|e t He _ IH]; [done|].
  destruct e as [| | |[]| |]; done.
Qed.

(** In the verbose mode a batch prints one batch line, with the number of
    its files, however it ends. *)
Lemma process_batch_batch_lines fuel w self service input_files input_path
    output n force verbose fs r fs' t :
  process_batch fuel w self service input_files input_path output n
    force verbose fs = Some (r, fs', t) ->
  batch_lines t = if verbose then [length input_files] else [].
Proof.
  intros Hrun. rewrite process_batch_eq in Hrun. cbv zeta in Hrun.
  destruct (n <=? 0); [injection Hrun as _ _ <-; by destruct verbose|].
  destruct (submit_loop _ _ _ _ _ _ _ _ _) as [[[[results|e] fs1] t1]|] eqn:Hsub;
    [| |done];
    apply (submit_loop_traced w self service force false) in Hsub;
    apply batch_event_batch_lines in Hsub.
  - destruct (collect_loop _ _ _ _ _) as [[[r2 fs2] t2]|] eqn:Hcol; [|done].
    apply (collect_loop_traced w self service force false) in Hcol.
    apply batch_event_batch_lines in Hcol.
    injection Hrun as _ _ <-.
    rewrite !batch_lines_app, Hsub, Hcol, app_nil_r. by destruct verbose.
  - injection Hrun as _ _ <-.
    rewrite batch_lines_app, Hsub, app_nil_r. by destruct verbose.
Qed.

(** The batch lines of a sequence of batches that completes, in the verbose
    mode: one for each batch, with its length. *)
Lemma run_batches_batch_lines fuel w self service input_path output n force :
  forall bs nb fs fs' t,
    run_batches fuel w self service input_path output n force true bs nb fs
      = Some (Ok tt, fs', t) ->
    batch_lines t = map length bs.
Proof.
  induction bs as [|b bs IH]; intros nb fs fs' t Hrun.
  { by injection Hrun as _ <-. }
  cbn [run_batches map] in *. unfold bind at 1 in Hrun.
  rewrite announce_eq in Hrun.
  destruct (bind _ _ fs) as [[[r fs1] t1]|] eqn:Hrest; [|done].
  injection Hrun as -> -> <-.
  apply bind_Some in Hrest
    as [(e & _ & [=])|(nb' & fs2 & t2 & t3 & H2 & H3 & ->)].
  apply run_batch_Ok in H2 as (tb & Hb & Hshape).
  apply process_batch_batch_lines in Hb. rewrite length_map in Hb.
  assert (batch_lines (map (fun p : string * string => EvPrint (MsgFile p.2)) b)
          = []) as Hann.
  { clear. by induction b. }
  rewrite !batch_lines_app, Hann, (IH _ _ _ _ H3). cbn [app].
  destruct (Z.of_nat (length b) =? batch_size (client_config self)).
  - destruct Hshape as (-> & -> & _). by rewrite batch_lines_app, Hb.
  - destruct Hshape as (-> & ->). by rewrite Hb.
Qed.

Lemma sum_list_lengths {A} (ls : list (list A)) :
  sum_list (map length ls) = length (concat ls).
Proof.
  induction ls as [|l ls IH]; [done|].
  cbn [map sum_list concat]. by rewrite length_app, IH.
Qed.

(** X12. The batches of a run, as its batch lines show them. In the verbose
    mode, with a positive batch size, a run of [process] that ends without
    an exception has printed one batch line for each batch it processed:
    as many as the number of matching files divided by the size, rounded
    up. No line shows zero or more than the size, every line but the last
    shows exactly the size, and the numbers add up to the number of
    matching files. *)
Theorem number_of_batches_of_a_run fuel w self service input_path output n force
    fs fs' t :
  0 < batch_size (client_config self) ->
  process fuel w self service input_path output n force (Some true) fs
    = Some (Ok tt, fs', t) ->
  let size := batch_size (client_config self) in
  let found := matching_files service input_path (scandir w input_path) in
  Z.of_nat (length (batch_lines t)) = (Z.of_nat (length found) + size - 1) / size
  /\ Forall (fun k => 0 < Z.of_nat k <= size) (batch_lines t)
  /\ (forall i k, (S i < length (batch_lines t))%nat ->
        batch_lines t !! i = Some k -> Z.of_nat k = size)
  /\ sum_list (batch_lines t) = length found.
Proof.
  intros Hsize Hrun size found.
  unfold process in Hrun. rewrite process_with_batches in Hrun.
  unfold bind at 1, print, emit in Hrun.
  destruct (run_batches _ _ _ _ _ _ _ _ _ _ _ fs) as [[[r fs1] t1]|] eqn:Hbs;
    [|done].
  injection Hrun as -> -> <-.
  apply run_batches_batch_lines in Hbs.
  change (batch_lines (EvPrint (MsgTotal 0) :: t1)) with (batch_lines t1).
  rewrite Hbs. fold found size.
  destruct (batches_from_sizes size found []) as [Hall Hfull]; [done|cbn; lia|].
  fold (batches size found) in Hall, Hfull.
  split; [|split; [|split]].
  - rewrite length_map. unfold batches.
    rewrite batches_from_length by (cbn; lia). done.
  - by apply Forall_fmap.
  - intros i k Hi Hk. rewrite length_map in Hi.
    rewrite list_lookup_fmap in Hk.
    destruct (batches size found !! i) as [b|] eqn:Hb; [|done].
    injection Hk as <-. by eapply Hfull.
  - rewrite sum_list_lengths. unfold batches. by rewrite batches_from_concat.
Qed.

Lemma number_of_batches_of_a_run_witness :
  batch_lines
    [EvPrint (MsgTotal 0);
     EvPrint (MsgFile "a.pdf"); EvPrint (MsgFile "b.pdf"); EvPrint (MsgBatch 2);
     EvPost Sample.pdf_url "/in/a.pdf" false 60;
     EvPost Sample.pdf_url "/in/b.pdf" false 60;
     EvWrite "/in/a.dataseer.tei.xml" "<TEI/>";
     EvWrite "/in/b.dataseer.tei.xml" "<TEI/>";
     EvPrint (MsgTotal 2);
     EvPrint (MsgFile "c.pdf.gz"); EvPrint (MsgBatch 1);
     EvPost Sample.pdf_url "/in/sub/c.pdf.gz" true 60;
     EvWrite "/in/sub/c.dataseer.tei.xml" "<TEI/>"] = [2; 1]%nat
  /\ Z.of_nat (length [2; 1]%nat)
     = (Z.of_nat (length (matching_files "processDataseerPDF" "/in"
                            (scandir Sample.annotating "/in"))) + 2 - 1) / 2.
Proof.
  split; [reflexivity|].
  refine (proj1 (number_of_batches_of_a_run 1 Sample.annotating Sample.client
                   "processDataseerPDF" "/in" None None None ∅
                   (<["/in/sub/c.dataseer.tei.xml" := "<TEI/>"]>
                      (<["/in/b.dataseer.tei.xml" := "<TEI/>"]>
                         (<["/in/a.dataseer.tei.xml" := "<TEI/>"]> ∅)))
                   [EvPrint (MsgTotal 0);
                    EvPrint (MsgFile "a.pdf"); EvPrint (MsgFile "b.pdf");
                    EvPrint (MsgBatch 2);
                    EvPost Sample.pdf_url "/in/a.pdf" false 60;
                    EvPost Sample.pdf_url "/in/b.pdf" false 60;
                    EvWrite "/in/a.dataseer.tei.xml" "<TEI/>";
                    EvWrite "/in/b.dataseer.tei.xml" "<TEI/>";
                    EvPrint (MsgTotal 2);
                    EvPrint (MsgFile "c.pdf.gz"); EvPrint (MsgBatch 1);
                    EvPost Sample.pdf_url "/in/sub/c.pdf.gz" true 60;
                    EvWrite "/in/sub/c.dataseer.tei.xml" "<TEI/>"]
                   _ _)).
  - reflexivity.
  - vm_compute. reflexivity.
Defined.

(** *** Every matching file of a completed run is accounted for *)

(** A sequence of batches that completes has skipped or accounted for every
    file of every batch. *)
Lemma run_batches_accounts fuel w self service input_path output n force verbose :
  hands_back_all w ->
  forall bs nb fs fs' t,
    run_batches fuel w self service input_path output n force verbose bs nb fs
      = Some (Ok tt, fs', t) ->
    forall p, p ∈ concat bs ->
      force = false
      /\ EvPrint (MsgSkipping
                    (_output_file_name w (input_file_of p) input_path output)) ∈ t
      \/ accounted w self service input_path output t (input_file_of p).
Proof.
  intros Hback. induction bs as [|b bs IH]; intros nb fs fs' t Hrun p Hp.
  { by apply elem_of_nil in Hp. }
  cbn [run_batches concat] in *. unfold bind at 1 in Hrun.
  rewrite announce_eq in Hrun.
  destruct (bind _ _ fs) as [[[r fs1] t1]|] eqn:Hrest; [|done].
  injection Hrun as -> -> <-.
  apply bind_Some in Hrest
    as [(e & _ & [=])|(nb' & fs2 & t2 & t3 & H2 & H3 & ->)].
  assert (exists tb tp, process_batch fuel w self service (map input_file_of b)
                          input_path output n force verbose fs
                        = Some (Ok tt, fs2, tb) /\ t2 = tb ++ tp)
    as (tb & tp & Hb & ->).
  { apply run_batch_Ok in H2 as (tb & Hb & Hshape).
    destruct (Z.of_nat (length b) =? batch_size (client_config self)).
    - destruct Hshape as (_ & -> & _). eauto.
    - destruct Hshape as (_ & ->). exists tb, []. by rewrite app_nil_r. }
  apply elem_of_app in Hp as [Hp|Hp].
  - pose proof (process_batch_accounts _ _ _ _ _ _ _ _ _ _ _ _ _ Hback Hb
                  (input_file_of p)
                  (list_elem_of_fmap_2 input_file_of _ _ Hp)) as Hacc.
    cbv zeta in Hacc. destruct (_ && _)%bool eqn:Hskip.
    + left. apply andb_true_iff in Hskip as [Hforce _].
      split; [by destruct force|].
      apply elem_of_app. right. do 2 (apply elem_of_app; left). done.
    + right. apply accounted_app_l. do 2 apply accounted_app_r. done.
  - destruct (IH _ _ _ _ H3 p Hp) as [[Hforce Hskip]|Hacc].
    + left. split; [done|]. by do 2 (apply elem_of_app; right).
    + right. by do 2 apply accounted_app_l.
Qed.

(** X14. A run of [process] that ends without an exception accounts for
    every matching file of the walk: the file was announced as skipped,
    which happens with [force=False] only, or the trace shows its outcome
    according to the first reply to its request (the text written or the
    failed write reported for 200, the status reported otherwise). No first
    request of a file that was not skipped has failed. *)
Theorem every_matching_file_is_accounted_for fuel w self service input_path output
    n force verbose fs fs' t :
  hands_back_all w ->
  process fuel w self service input_path output n force verbose fs
    = Some (Ok tt, fs', t) ->
  forall dirpath filename,
    (dirpath, filename) ∈
      matching_files service input_path (scandir w input_path) ->
    let f := dirpath +:+ "/" +:+ filename in
    force = Some false
    /\ EvPrint (MsgSkipping (_output_file_name w f input_path output)) ∈ t
    \/ match requests_post w (worker_url self service) f 0 with
       | Response status_code text =>
           if status_code =? 200 then
             if oserror w (_output_file_name w f input_path output)
             then _output_file_name w f input_path output ∈ write_failures t
             else (_output_file_name w f input_path output, text) ∈ written t
           else (f, status_code) ∈ failed t
       | Raises _ => False
       end.
Proof.
  intros Hback Hrun dirpath filename Hin f.
  unfold process in Hrun. rewrite process_with_batches in Hrun.
  unfold bind at 1, print, emit in Hrun.
  destruct (run_batches _ _ _ _ _ _ _ _ _ _ _ fs) as [[[r fs1] t1]|] eqn:Hbs;
    [|done].
  injection Hrun as -> -> <-.
  destruct (run_batches_accounts _ _ _ _ _ _ _ _ _ Hback _ _ _ _ _ Hbs
              (dirpath, filename)) as [[Hforce Hskip]|Hacc].
  - unfold batches. by rewrite batches_from_concat.
  - left. split; [by destruct force as [[]|]|]. by apply elem_of_cons; right.
  - right. by apply (accounted_app_l _ _ _ _ _ [_]).
Qed.

Lemma every_matching_file_is_accounted_for_witness :
  (None = Some false
   /\ EvPrint (MsgSkipping "/in/b.dataseer.tei.xml") ∈
        [EvPrint (MsgTotal 0);
         EvPost Sample.pdf_url "/in/a.pdf" false 60;
         EvPost Sample.pdf_url "/in/b.pdf" false 60;
         EvPrint (MsgServerError 500 "/in/b.pdf");
         EvPrint (MsgFailed "/in/b.pdf" 500);
         EvWrite "/in/a.dataseer.tei.xml" "<TEI/>";
         EvPrint (MsgTotal 2);
         EvPost Sample.pdf_url "/in/c.pdf" false 60;
         EvPrint (MsgWriteFailed "/in/c.dataseer.tei.xml")])
  \/ ("/in/b.pdf", 500) ∈
       failed
         [EvPrint (MsgTotal 0);
          EvPost Sample.pdf_url "/in/a.pdf" false 60;
          EvPost Sample.pdf_url "/in/b.pdf" false 60;
          EvPrint (MsgServerError 500 "/in/b.pdf");
          EvPrint (MsgFailed "/in/b.pdf" 500);
          EvWrite "/in/a.dataseer.tei.xml" "<TEI/>";
          EvPrint (MsgTotal 2);
          EvPost Sample.pdf_url "/in/c.pdf" false 60;
          EvPrint (MsgWriteFailed "/in/c.dataseer.tei.xml")].
Proof.
  refine (every_matching_file_is_accounted_for 1 Sample.mixed Sample.client
            "processDataseerPDF" "/in" None None None None ∅
            (<["/in/a.dataseer.tei.xml" := "<TEI/>"]> ∅) _
            (hands_back_reversed Sample.mixed (fun l => eq_refl)) _
            "/in" "b.pdf" _).
  - vm_compute. reflexivity.
  - vm_compute. apply elem_of_cons. right. apply elem_of_cons. by left.
Defined.

(** *** How a run can fail *)

(** An exception leaves the collection only from a future that holds it. *)
Lemma collect_fold_raises w input_path output l :
  forall fs e fs' t,
    for_each l (collect_one w input_path output) fs = Some (Exc e, fs', t) ->
    Exc e ∈ l.
Proof.
  induction l as [|fut l IH]; intros fs e fs' t; [done|].
  cbn [for_each].
  intros [(e' & He & [= <-])|([] & fs1 & t1 & t2 & H1 & H2 & ->)]%bind_Some.
  - rewrite collect_one_eq in He. destruct fut as [v|e']; [done|].
    injection He as <-. by apply elem_of_cons; left.
  - apply elem_of_cons; right. by eapply IH.
Qed.

(** A batch ends with an exception for a refused pool or for a task whose
    first request failed. *)
Lemma process_batch_raises fuel w self service input_files input_path output n
    force verbose fs e fs' t :
  hands_back_all w ->
  process_batch fuel w self service input_files input_path output n
    force verbose fs = Some (Exc e, fs', t) ->
  e = ValueError /\ n <= 0
  \/ e = UnboundLocalError
     /\ exists f e', f ∈ input_files
                     /\ requests_post w (worker_url self service) f 0 = Raises e'.
Proof.
  intros Hback Hrun. rewrite process_batch_eq in Hrun. cbv zeta in Hrun.
  destruct (Z.leb_spec n 0) as [Hn|_].
  { injection Hrun as <- _ _. by left. }
  right.
  destruct (submit_loop _ _ _ _ _ _ _ _ _) as [[[[results|e0] fs1] t1]|] eqn:Hsub;
    [| |done]; unfold submit_loop in Hsub.
  2: { by destruct (submit_fold _ _ _ _ _ _ _ _ _ _ _ _ _ Hsub)
         as (_ & _ & _ & _ & news & [=] & _). }
  destruct (collect_loop _ _ _ _ _) as [[[r fs2] t2]|] eqn:Hcol; [|done].
  injection Hrun as -> _ _. unfold collect_loop in Hcol.
  apply collect_fold_raises in Hcol.
  destruct (submit_fold _ _ _ _ _ _ _ _ _ _ _ _ _ Hsub)
    as (_ & _ & _ & _ & news & [= ->] & HF).
  rewrite (Hback news) in Hcol.
  destruct (Forall2_elem_of_r _ _ _ _ HF Hcol) as (f & Hf & tf & Hw).
  apply dispatched_elem in Hf as [Hf _].
  apply selected_process_answer in Hw.
  destruct (requests_post w (worker_url self service) f 0)
    as [status_code text|e'] eqn:Hfirst; [done|].
  injection Hw as ->. eauto.
Qed.

(** A batch of a sequence ends it with the exception of the batch itself,
    or, after a batch of the configured size, with the division by an
    elapsed time of zero in the progress line. *)
Lemma run_batch_Exc fuel w self service input_path output n force verbose b nb
    fs e fs' t :
  run_batch fuel w self service input_path output n force verbose b nb fs
    = Some (Exc e, fs', t) ->
  process_batch fuel w self service (map input_file_of b) input_path output n
    force verbose fs = Some (Exc e, fs', t)
  \/ e = ZeroDivisionError
     /\ Z.of_nat (length b) = batch_size (client_config self)
     /\ runtime w (nb + length b) = 0
     /\ exists tb,
          process_batch fuel w self service (map input_file_of b) input_path
            output n force verbose fs = Some (Ok tt, fs', tb)
          /\ t = tb.
Proof.
  unfold run_batch.
  intros [(e' & Hb & [= <-])|([] & fs1 & tb & tp & Hb & Hp & ->)]%bind_Some;
    [by left|right].
  destruct (Z.eqb_spec (Z.of_nat (length b)) (batch_size (client_config self)))
    as [Hfull|_]; [|done].
  apply bind_Some in Hp as [(e' & H1 & [= <-])|([] & fs2 & t1 & t2 & _ & [=] & _)].
  apply progress_line_inv in H1 as (-> & [([=] & _)|([= <-] & -> & Hclock)]).
  rewrite app_nil_r. eauto 10.
Qed.

(** No batch of the cut is empty, whatever the size. *)
Lemma batches_from_nonempty {A} (size : Z) (l acc : list A) :
  Forall (fun b => b <> []) (batches_from size acc l).
Proof.
  revert acc. induction l as [|x l IH]; intros acc; cbn [batches_from].
  - destruct acc; cbn; by repeat constructor.
  - destruct (_ =? size); [|apply IH].
    constructor; [by destruct acc|apply IH].
Qed.

Lemma run_batches_raises fuel w self service input_path output n force verbose :
  hands_back_all w ->
  forall bs nb fs e fs' t,
    Forall (fun b => b <> []) bs ->
    run_batches fuel w self service input_path output n force verbose bs nb fs
      = Some (Exc e, fs', t) ->
    e = ValueError /\ n <= 0
    \/ e = UnboundLocalError
       /\ (exists p e', p ∈ concat bs
                        /\ requests_post w (worker_url self service)
                             (input_file_of p) 0 = Raises e')
    \/ e = ZeroDivisionError
       /\ exists nb_total, (0 < nb_total)%nat /\ runtime w nb_total = 0.
Proof.
  intros Hback. induction bs as [|b bs IH]; intros nb fs e fs' t Hne Hrun; [done|].
  apply Forall_cons in Hne as [Hb0 Hne].
  cbn [run_batches concat] in *. unfold bind at 1 in Hrun.
  rewrite announce_eq in Hrun.
  destruct (bind _ _ fs) as [[[r fs1] t1]|] eqn:Hrest; [|done].
  injection Hrun as -> -> <-.
  apply bind_Some in Hrest
    as [(e' & H2 & [= <-])|(nb' & fs2 & t2 & t3 & H2 & H3 & ->)].
  - apply run_batch_Exc in H2 as [Hb|(-> & Hfull & Hclock & _)].
    + destruct (process_batch_raises _ _ _ _ _ _ _ _ _ _ _ _ _ _ Hback Hb)
        as [?|(-> & f & e' & Hf & Hfirst)]; [by left|right; left].
      split; [done|].
      apply list_elem_of_fmap in Hf as (p & -> & Hp).
      exists p, e'. split; [|done]. apply elem_of_app. by left.
    + right; right. split; [done|]. exists (nb + length b)%nat.
      split; [|done]. destruct b; [done|cbn; lia].
  - destruct (IH _ _ _ _ _ Hne H3)
      as [?|[(-> & p & e' & Hp & Hfirst)|?]]; [by left|right; left|by right; right].
    split; [done|]. exists p, e'. split; [|done]. apply elem_of_app. by right.
Qed.

(** X15. Of the exceptions of the model, three only can leave [process]:
    [ValueError], for a pool size of zero or less; [UnboundLocalError], when
    the first request of some matching file failed; and
    [ZeroDivisionError], when the elapsed time that a progress line reads,
    after a batch of the configured size, rounds to zero. The exceptions of
    [requests] are caught in the workers, the [TypeError] of the 404 line
    and the [ValueError] of a negative pause are swallowed by the [finally]
    clause, and a failed write is caught and reported. (The model lets
    neither reading an input file nor printing fail.) *)
Theorem three_ways_to_fail fuel w self service input_path output n force verbose
    fs e fs' t :
  hands_back_all w ->
  process fuel w self service input_path output n force verbose fs
    = Some (Exc e, fs', t) ->
  e = ValueError /\ default 10 n <= 0
  \/ e = UnboundLocalError
     /\ (exists dirpath filename e',
           (dirpath, filename) ∈
             matching_files service input_path (scandir w input_path)
           /\ requests_post w (worker_url self service)
                (dirpath +:+ "/" +:+ filename) 0 = Raises e')
  \/ e = ZeroDivisionError
     /\ exists nb_total, (0 < nb_total)%nat /\ runtime w nb_total = 0.
Proof.
  intros Hback Hrun.
  unfold process in Hrun. rewrite process_with_batches in Hrun.
  unfold bind at 1, print, emit in Hrun.
  destruct (run_batches _ _ _ _ _ _ _ _ _ _ _ fs) as [[[r fs1] t1]|] eqn:Hbs;
    [|done].
  injection Hrun as -> -> <-.
  destruct (run_batches_raises _ _ _ _ _ _ _ _ _ Hback _ _ _ _ _ _
              (batches_from_nonempty _ _ _) Hbs)
    as [?|[(-> & [dirpath filename] & e' & Hp & Hfirst)|?]];
    [by left|right; left|by right; right].
  split; [done|]. exists dirpath, filename, e'. split; [|done].
  unfold batches in Hp. by rewrite batches_from_concat in Hp.
Qed.

Lemma three_ways_to_fail_witness :
  ZeroDivisionError = ValueError /\ default 10 None <= 0
  \/ ZeroDivisionError = UnboundLocalError
     /\ (exists dirpath filename e',
           (dirpath, filename) ∈
             matching_files "processDataseerPDF" "/in"
               (scandir Sample.instant "/in")
           /\ requests_post Sample.instant
                (worker_url Sample.client "processDataseerPDF")
                (dirpath +:+ "/" +:+ filename) 0 = Raises e')
  \/ ZeroDivisionError = ZeroDivisionError
     /\ exists nb_total, (0 < nb_total)%nat /\ runtime Sample.instant nb_total = 0.
Proof.
  apply (three_ways_to_fail 1 Sample.instant Sample.client
           "processDataseerPDF" "/in" None None (Some false) None
           Sample.resumed ZeroDivisionError Sample.resumed
           [EvPrint (MsgTotal 0);
            EvPrint (MsgSkipping "/in/a.dataseer.tei.xml");
            EvPrint (MsgSkipping "/in/b.dataseer.tei.xml")]
           (hands_back_in_order Sample.instant (fun l => eq_refl))).
  vm_compute. reflexivity.
Defined.

(** *** What a run leaves in the files *)






(** ** The name of the output *)

(** The first dot-segment of a name. *)
Lemma first_segment_stem stem rest :
  Str.contains "." stem = false ->
  first_segment (stem +:+ String "." rest) = stem.
Proof.
  intros H. unfold first_segment. by rewrite split_app_sep, (split_no_sep _ _ H).
Qed.

Lemma first_segment_no_dot name : Str.contains "." (first_segment name) = false.
Proof.
  unfold first_segment. pose proof (split_parts_no_sep "." name) as H.
  destruct (Str.split "." name); [done|]. by inversion H.
Qed.

(** The last dot-segment of a name, and of a name with a given ending. *)
Lemma last_segment a b :
  Str.contains "." b = false ->
  List.last (Str.split "." (a +:+ String "." b)) "" = b.
Proof.
  intros H. rewrite split_app_sep, (split_no_sep _ _ H).
  by rewrite last_app_nonempty.
Qed.

Lemma endswith_last_segment s a b :
  Str.contains "." b = false ->
  Str.endswith s (a +:+ String "." b) = true ->
  List.last (Str.split "." s) "" = b.
Proof.
  intros Hb [stem ->]%endswith_spec.
  rewrite <- append_assoc. by apply last_segment.
Qed.

(** X17. The name of the output keeps what precedes the first dot of the
    name of the input, and nothing of what follows it: for a file found by
    the walk, with an output directory, and for a file without an output
    directory, the derived path ends in that stem and the suffix. So
    [a.pdf], [a.pdf.gz] and [a.v2.pdf] of one directory are all derived to
    [a.dataseer.tei.xml]. *)
Theorem output_name_stops_at_the_first_dot stem rest :
  Str.contains "." stem = false ->
  first_segment (stem +:+ "." +:+ rest) = stem
  /\ (forall w top t dirpath output,
        posixpath.isabs (getcwd w) = true ->
        top <> "" ->
        plain_tree t = true ->
        located top t dirpath (stem +:+ "." +:+ rest) ->
        _output_file_name w (dirpath +:+ "/" +:+ stem +:+ "." +:+ rest) top
          (Some output)
        = posixpath.join output (stem +:+ suffix))
  /\ (forall w dirpath input_path,
        ntpath.splitdrive (dirpath +:+ "/" +:+ stem +:+ "." +:+ rest)
          = ("", dirpath +:+ "/" +:+ stem +:+ "." +:+ rest) ->
        Str.contains "/" (stem +:+ "." +:+ rest) = false ->
        Str.contains "\" (stem +:+ "." +:+ rest) = false ->
        dirpath <> "" ->
        Str.endswith dirpath "/" = false -> Str.endswith dirpath "\" = false ->
        _output_file_name w (dirpath +:+ "/" +:+ stem +:+ "." +:+ rest)
          input_path None
        = dirpath +:+ "/" +:+ stem +:+ suffix).
Proof.
  intros Hstem.
  assert (first_segment (stem +:+ "." +:+ rest) = stem) as Hseg
    by apply (first_segment_stem _ _ Hstem).
  split; [done|]. split.
  - intros w top t dirpath output Hcwd Htop Ht Hloc.
    by rewrite (output_file_name_flat w top t), Hseg.
  - intros w dirpath input_path Hdrive H1 H2 Hne He1 He2.
    by rewrite output_file_name_alongside, Hseg.
Qed.

Lemma output_name_stops_at_the_first_dot_witness :
  first_segment ("a" +:+ "." +:+ "pdf.gz") = "a".
Proof.
  exact (proj1 (output_name_stops_at_the_first_dot "a" "pdf.gz" eq_refl)).
Defined.

(** A character that a name does not hold is in none of its segments. *)
Lemma split_parts_keep c d s :
  Str.contains c s = false ->
  Forall (fun x => Str.contains c x = false) (Str.split d s).
Proof.
  induction s as [|a s IH]; [by repeat constructor|].
  cbn [Str.contains Str.split]. intros [Ha Hs]%orb_false_iff.
  specialize (IH Hs). destruct (Ascii.eqb a d); [by constructor|].
  pose proof (split_nonempty d s).
  destruct (Str.split d s) as [|x xs]; [done|].
  apply Forall_cons in IH as [Hx Hxs]. constructor; [|done].
  cbn [Str.contains]. by rewrite Ha, Hx.
Qed.

Lemma first_segment_keeps c name :
  Str.contains c name = false -> Str.contains c (first_segment name) = false.
Proof.
  intros H. unfold first_segment. pose proof (split_parts_keep c "." name H) as HF.
  destruct (Str.split "." name); [done|]. by inversion HF.
Qed.

Lemma contains_app c a b :
  Str.contains c (a +:+ b) = (Str.contains c a || Str.contains c b)%bool.
Proof.
  induction a as [|x a IH]; [done|].
  rewrite append_String. cbn [Str.contains]. by rewrite IH, orb_assoc.
Qed.

(** X18. The name of an output passes the test of the TEI service, and does
    not pass the test of the PDF service; the name derived from it is the
    same name again. Without an output directory, for a file of a directory
    whose path has no drive, the output is derived into that directory
    under that name, and the path derived from the output is the path of
    the output itself. *)
Theorem derived_names_are_inputs_of_the_tei_service name :
  let derived := first_segment name +:+ suffix in
  matches "processDataseerTEI" derived = true
  /\ matches "processDataseerPDF" derived = false
  /\ first_segment derived = first_segment name
  /\ (forall w dirpath input_path,
        ntpath.splitdrive (dirpath +:+ "/" +:+ name)
          = ("", dirpath +:+ "/" +:+ name) ->
        ntpath.splitdrive (dirpath +:+ "/" +:+ derived)
          = ("", dirpath +:+ "/" +:+ derived) ->
        Str.contains "/" name = false -> Str.contains "\" name = false ->
        dirpath <> "" ->
        Str.endswith dirpath "/" = false -> Str.endswith dirpath "\" = false ->
        _output_file_name w (dirpath +:+ "/" +:+ name) input_path None
          = dirpath +:+ "/" +:+ derived
        /\ _output_file_name w (dirpath +:+ "/" +:+ derived) input_path None
           = dirpath +:+ "/" +:+ derived).
Proof.
  intros derived. unfold derived, suffix.
  assert (Str.endswith (first_segment name +:+ ".dataseer.tei.xml") ".tei.xml"
          = true) as Htei.
  { apply endswith_spec. exists (first_segment name +:+ ".dataseer").
    by rewrite append_assoc. }
  assert (forall a b, b <> "xml" -> Str.contains "." b = false ->
            Str.endswith (first_segment name +:+ ".dataseer.tei.xml")
              (a +:+ String "." b) = false) as Hnot.
  { intros a b Hb Hdot.
    destruct (Str.endswith _ (a +:+ String "." b)) eqn:He; [|done].
    apply (endswith_last_segment _ _ _ Hdot) in He.
    change ".dataseer.tei.xml" with (".dataseer.tei" +:+ String "." "xml") in He.
    rewrite <- append_assoc, last_segment in He by done. by destruct Hb. }
  assert (first_segment (first_segment name +:+ ".dataseer.tei.xml")
          = first_segment name) as Hseg.
  { apply (first_segment_stem _ "dataseer.tei.xml"), first_segment_no_dot. }
  split; [|split; [|split]].
  - unfold matches. rewrite Htei. done.
  - assert (Str.endswith (first_segment name +:+ ".dataseer.tei.xml") ".pdf.gz"
            = false) as Hgz by (by apply (Hnot ".pdf" "gz")).
    assert (Str.endswith (first_segment name +:+ ".dataseer.tei.xml") ".pdf"
            = false) as Hpdf by (by apply (Hnot "" "pdf")).
    unfold matches. rewrite Hgz, Hpdf. done.
  - done.
  - intros w dirpath input_path Hd1 Hd2 H1 H2 Hne He1 He2. split.
    + by rewrite output_file_name_alongside.
    + rewrite output_file_name_alongside; try done.
      * by rewrite Hseg.
      * by rewrite contains_app, (first_segment_keeps _ _ H1).
      * by rewrite contains_app, (first_segment_keeps _ _ H2).
Qed.

Lemma derived_names_are_inputs_of_the_tei_service_witness :
  _output_file_name Sample.annotating "/in/a.pdf" "/in" None
    = "/in/a.dataseer.tei.xml"
  /\ _output_file_name Sample.annotating "/in/a.dataseer.tei.xml" "/in" None
     = "/in/a.dataseer.tei.xml".
Proof.
  apply (proj2 (proj2 (proj2
           (derived_names_are_inputs_of_the_tei_service "a.pdf")))
           Sample.annotating "/in" "/in"); try reflexivity; discriminate.
Defined.

(** ** The client and its server *)

(** The address that [__init__] builds. *)
Lemma service_url_base cfg : service_url (__init__fields cfg) = base_url cfg.
Proof.
  unfold __init__fields, base_url. cbn [service_url].
  destruct (dataseer_port cfg) as [|c port]; cbn [String.length Nat.ltb Nat.leb].
  - done.
  - change (Str.eqb (String c port) "") with false. cbv iota.
    by rewrite !append_assoc.
Qed.

(** What a run may do, for a client made by [__init__]. *)
Lemma batch_event_contact cfg w service force verbose e :
  batch_event w (__init__fields cfg) service force verbose e ->
  contact cfg service e.
Proof.
  destruct e as [|url file gz tmo| | | |]; try done.
  cbn [batch_event contact]. unfold worker_url, retry_url.
  rewrite service_url_base. cbn [endpoint_pdf endpoint_tei __init__fields].
  intros [[[-> _]|[-> _]] _]; [|by left].
  destruct (Str_eqb_spec service "processDataseerPDF") as [->|_]; [by right|by left].
Qed.

Lemma run_event_contact cfg w service force verbose e :
  run_event w (__init__fields cfg) service force verbose e ->
  contact cfg service e.
Proof.
  destruct e as [| | |m| |]; try apply batch_event_contact. by destruct m.
Qed.

(** Creating the client: the probe, and its line. *)
Lemma init_eq w cfg fs :
  __init__ w cfg fs
  = match requests_get w (base_url cfg +:+ "isalive") with
    | Raises _ =>
        Some (Exc ServerUnavailableException, fs,
              [EvGet (base_url cfg +:+ "isalive"); EvPrint MsgConnectionFailed])
    | Response status _ =>
        Some (Ok (__init__fields cfg), fs,
              [EvGet (base_url cfg +:+ "isalive");
               EvPrint (if status =? 200 then MsgRunning
                        else MsgNotRunning status)])
    end.
Proof.
  unfold __init__, _test_server_connection. rewrite service_url_base.
  cbn [endpoint_isalive __init__fields].
  unfold bind, emit, print, emit, raise, ret.
  destruct (requests_get w _) as [status text|e]; [|done].
  by destruct (status =? 200).
Qed.

(** X19. A client contacts the server of its configuration, and nothing
    else. In a program that creates the client and then calls [process],
    the first event is the probe, a GET of [isalive] under the address
    [http://server/service/], with [:port] after the server when the port is
    not empty; no other GET follows, and every request goes to
    [processDataseerTEI] under the same address, or, for the PDF service
    only, to [processDataseerPDF]. *)
Theorem a_client_contacts_its_server_only fuel w cfg service input_path output n
    force verbose fs r fs' t :
  (client <- __init__ w cfg ;;
   process fuel w client service input_path output n force verbose) fs
  = Some (r, fs', t) ->
  exists t',
    t = EvGet (base_url cfg +:+ "isalive") :: t'
    /\ Forall (contact cfg service) t'.
Proof.
  intros [(e & He & _)|(client & fs1 & t1 & t2 & H1 & H2 & ->)]%bind_Some;
    rewrite init_eq in *.
  - destruct (requests_get w _) as [status text|e']; [done|].
    injection He as _ _ <-. eexists. split; [done|]. by repeat constructor.
  - destruct (requests_get w _) as [status text|e']; [|done].
    injection H1 as <- _ <-. eexists. split; [reflexivity|].
    constructor; [done|].
    apply process_with_traced in H2.
    eapply Forall_impl; [exact H2|]. apply run_event_contact.
Qed.

Lemma a_client_contacts_its_server_only_witness :
  exists t',
    [EvGet Sample.isalive_url; EvPrint MsgRunning; EvPrint (MsgTotal 0);
     EvPost Sample.pdf_url "/in/a.pdf" false 60;
     EvPost Sample.pdf_url "/in/b.pdf" false 60;
     EvWrite "/in/a.dataseer.tei.xml" "<TEI/>";
     EvWrite "/in/b.dataseer.tei.xml" "<TEI/>";
     EvPrint (MsgTotal 2);
     EvPost Sample.pdf_url "/in/sub/c.pdf.gz" true 60;
     EvWrite "/in/sub/c.dataseer.tei.xml" "<TEI/>"]
    = EvGet (base_url Sample.cfg +:+ "isalive") :: t'
    /\ Forall (contact Sample.cfg "processDataseerPDF") t'.
Proof.
  apply (a_client_contacts_its_server_only 1 Sample.annotating Sample.cfg
           "processDataseerPDF" "/in" None None None None ∅ (Ok tt)
           (<["/in/sub/c.dataseer.tei.xml" := "<TEI/>"]>
              (<["/in/b.dataseer.tei.xml" := "<TEI/>"]>
                 (<["/in/a.dataseer.tei.xml" := "<TEI/>"]> ∅)))).
  vm_compute. reflexivity.
Defined.

(* ================================================================== *)
(** * The default of the force flag *)




